(** * descriptastorus/raw.py: the fixed-width row store

    A shallow embedding of [descriptastorus/raw.py] and the properties of
    its row store: [MakeStore], [RawStore] ([_openfile], [close],
    [appendBlankRows], [get], [getColByIdx], [getCol], [putRow]) and
    [RawStoreIter].

    Conventions of the embedding.

    - The module is Python 2 code: the row iterator implements the [next]
      protocol, the column generator ends with [raise StopIteration] and
      compares a read with the [str] literal [''].  The embedding follows
      the Python 2.7 meaning of these constructs; [str] is a byte string.
    - [struct] formats carry no byte-order prefix, so packing is in native
      mode: native sizes and native alignment.  The embedding fixes the
      usual little-endian LP64 platform (the source says "raw stores are
      little endian").
    - One store directory is modelled: the record [filesystem] holds the
      two files [__rawformat__] and [__store___] of that directory.
    - A method is a function from the state [world] (the file system and
      the attributes of [self]) to a result and the state it leaves; a
      raised exception keeps the effects that happened before it. *)

From Stdlib Require Import ZArith List String Ascii Bool Lia SpecFloat.
From Stdlib Require Import Strings.Byte.
Import ListNotations.
Local Open Scope Z_scope.

(** ** Python values and exceptions *)

(** The callables stored in [dtypes]: the builtins [int], [float], [bool]
    and the module's [str_store]. *)
Inductive dtype := d_int | d_float | d_bool | d_str_store.

(** The Python values a row may hold.  A [float] is its IEEE-754 binary64
    bit pattern; a [str] is a byte string. *)
Inductive pyval :=
| VNone
| VBool (b : bool)
| VInt (z : Z)
| VFloat (bits : Z)
| VStr (s : string).

(** A row, and any other tuple of values. *)
Definition row := list pyval.

(** One line of the message of the [TypeError] that [putRow] builds. *)
Inductive msg_line :=
| OriginalMessage
| CannotConvert (colname : string) (v : pyval) (d : dtype).

Inductive pyexn :=
| IndexError
| ValueError
| TypeError (message : list msg_line)
| IOError
| AttributeError
| OverflowError
| UnicodeError
| UnboundLocalError
| StructError
| StopIteration.

Inductive result (A : Type) :=
| Ok (a : A)
| Raise (e : pyexn).
Arguments Ok {A} a.
Arguments Raise {A} e.

Definition is_ValueError (e : pyexn) : bool :=
  match e with ValueError | UnicodeError => true | _ => false end.
Definition is_StructError (e : pyexn) : bool :=
  match e with StructError => true | _ => false end.

(** The error monad of pure library calls. *)
Definition rbind {A B} (r : result A) (k : A -> result B) : result B :=
  match r with Ok a => k a | Raise e => Raise e end.

Fixpoint rmap {A B} (g : A -> result B) (l : list A) : result (list B) :=
  match l with
  | [] => Ok []
  | a :: l' => rbind (g a) (fun b => rbind (rmap g l') (fun bs => Ok (b :: bs)))
  end.

(** ** Text: digits, decimal numerals and literals *)

Definition digit_of_char (c : ascii) : option nat :=
  let n := nat_of_ascii c in
  if ((48 <=? n) && (n <=? 57))%nat then Some (n - 48)%nat else None.

Definition char_of_digit (d : Z) : ascii := ascii_of_nat (48 + Z.to_nat d).

Fixpoint digits_of (fuel : nat) (z : Z) (acc : list ascii) : list ascii :=
  match fuel with
  | O => acc
  | S fuel' =>
      let acc' := char_of_digit (z mod 10) :: acc in
      if z <? 10 then acc' else digits_of fuel' (z / 10) acc'
  end.

(** The decimal numeral of a non-negative integer. *)
Definition decimal (z : Z) : list ascii :=
  digits_of (S (Z.to_nat (Z.log2 z))) z [].

(** [str(z)] for an integer. *)
Definition str_of_int (z : Z) : string :=
  string_of_list_ascii
    (if z <? 0 then "-"%char :: decimal (- z) else decimal z).

Definition is_space (c : ascii) : bool :=
  let n := nat_of_ascii c in ((n =? 32) || ((9 <=? n) && (n <=? 13)))%nat.

Fixpoint lstrip (cs : list ascii) : list ascii :=
  match cs with
  | c :: cs' => if is_space c then lstrip cs' else cs
  | [] => []
  end.

Definition strip (cs : list ascii) : list ascii :=
  rev (lstrip (rev (lstrip cs))).

(** Reads a run of digits: the number read, how many digits, the rest. *)
Fixpoint read_digits (cs : list ascii) (acc : Z) (n : nat)
  : Z * nat * list ascii :=
  match cs with
  | c :: cs' =>
      match digit_of_char c with
      | Some d => read_digits cs' (10 * acc + Z.of_nat d) (S n)
      | None => (acc, n, cs)
      end
  | [] => (acc, n, [])
  end.

Definition read_sign (cs : list ascii) : bool * list ascii :=
  match cs with
  | "-"%char :: cs' => (true, cs')
  | "+"%char :: cs' => (false, cs')
  | _ => (false, cs)
  end.

(** The text accepted by [int(s)] for a [str]: blanks, an optional sign,
    decimal digits, blanks. *)
Definition int_literal (s : string) : option Z :=
  let '(neg, cs) := read_sign (strip (list_ascii_of_string s)) in
  match read_digits cs 0 O with
  | (z, S _, []) => Some (if neg then - z else z)
  | _ => None
  end.

Definition lower (c : ascii) : ascii :=
  let n := nat_of_ascii c in
  if ((65 <=? n) && (n <=? 90))%nat then ascii_of_nat (n + 32) else c.

(** The text accepted by [float(s)] for a [str]: blanks, an optional sign,
    then [inf], [infinity], [nan] or a decimal numeral with an optional
    fraction and an optional exponent. *)
Definition float_literal (s : string) : bool :=
  let '(_, cs) := read_sign (strip (list_ascii_of_string s)) in
  let name := string_of_list_ascii (map lower cs) in
  if (name =? "inf")%string || (name =? "infinity")%string
     || (name =? "nan")%string then true
  else
    let '(_, n1, r1) := read_digits cs 0 O in
    let '(n2, r2) :=
      match r1 with
      | "."%char :: r => let '(_, n, r') := read_digits r 0 O in (n, r')
      | _ => (O, r1)
      end in
    if (n1 + n2 =? 0)%nat then false
    else
      match r2 with
      | [] => true
      | e :: r =>
          if Ascii.eqb (lower e) "e"%char then
            match read_digits (snd (read_sign r)) 0 O with
            | (_, S _, []) => true
            | _ => false
            end
          else false
      end.

Definition is_ascii (s : string) : bool :=
  forallb (fun c => (nat_of_ascii c <? 128)%nat) (list_ascii_of_string s).

(** ** Floats

    A [float] value is carried as its binary64 bit pattern; rounding is
    that of [SpecFloat] (round to nearest even), which is how the platform
    converts an integer to a double and a double to a single.  Every NaN is
    converted to the quiet NaN. *)

Definition float_of_bits (mw ew bits : Z) : spec_float :=
  let m := bits mod 2 ^ mw in
  let e := (bits / 2 ^ mw) mod 2 ^ ew in
  let s := Z.odd (bits / 2 ^ (mw + ew)) in
  if e =? 0 then
    match m with
    | Zpos p => S754_finite s p (2 - 2 ^ (ew - 1) - mw)
    | _ => S754_zero s
    end
  else if e =? 2 ^ ew - 1 then
    if m =? 0 then S754_infinity s else S754_nan
  else
    match m + 2 ^ mw with
    | Zpos p => S754_finite s p (e - (2 ^ (ew - 1) - 1) - mw)
    | _ => S754_nan
    end.

Definition bits_of_float (mw ew : Z) (x : spec_float) : Z :=
  let sign (s : bool) := if s then 2 ^ (mw + ew) else 0 in
  match x with
  | S754_zero s => sign s
  | S754_infinity s => sign s + (2 ^ ew - 1) * 2 ^ mw
  | S754_nan => (2 ^ ew - 1) * 2 ^ mw + 2 ^ (mw - 1)
  | S754_finite s m e =>
      if Zpos m <? 2 ^ mw then sign s + Zpos m
      else sign s + (e + (2 ^ (ew - 1) - 1) + mw) * 2 ^ mw + (Zpos m - 2 ^ mw)
  end.

Definition double_of_bits := float_of_bits 52 11.
Definition bits_of_double := bits_of_float 52 11.

(** The C conversions [(float) x] and [(double) y] on bit patterns. *)
Definition single_of_double (bits : Z) : Z :=
  bits_of_float 23 8
    match double_of_bits bits with
    | S754_finite s m e => binary_round 24 128 s m e
    | x => x
    end.

Definition double_of_single (bits : Z) : Z :=
  bits_of_double
    match float_of_bits 23 8 bits with
    | S754_finite s m e => binary_round 53 1024 s m e
    | x => x
    end.

(** The double [1.0]. *)
Definition one_bits : Z := bits_of_double (binary_normalize 53 1024 1 0 false).

(** [float(z)] for an integer: [OverflowError] beyond the doubles. *)
Definition float_of_int (z : Z) : result Z :=
  match binary_normalize 53 1024 z 0 false with
  | S754_infinity _ => Raise OverflowError
  | x => Ok (bits_of_double x)
  end.

(** [int(x)] for a float: truncation toward zero. *)
Definition int_of_float (bits : Z) : result Z :=
  match double_of_bits bits with
  | S754_zero _ => Ok 0
  | S754_infinity _ => Raise OverflowError
  | S754_nan => Raise ValueError
  | S754_finite s m e =>
      let a := if 0 <=? e then Zpos m * 2 ^ e else Zpos m / 2 ^ (- e) in
      Ok (if s then - a else a)
  end.

(** ** The callables of [dtypes] *)

(** What a call [dtype(v)] does: it returns a value or raises.  Two
    results are named rather than computed: the float that [float] reads
    from a text, and the text that [str] gives to a float. *)
Inductive outcome :=
| Returned (v : pyval)
| ReturnedFloatOf (text : string)
| ReturnedTextOf (bits : Z)
| Raised (e : pyexn).

Definition py_int (v : pyval) : outcome :=
  match v with
  | VNone => Raised (TypeError [OriginalMessage])
  | VBool b => Returned (VInt (if b then 1 else 0))
  | VInt z => Returned (VInt z)
  | VFloat bits =>
      match int_of_float bits with
      | Ok z => Returned (VInt z)
      | Raise e => Raised e
      end
  | VStr s =>
      match int_literal s with
      | Some z => Returned (VInt z)
      | None => Raised ValueError
      end
  end.

Definition py_float (v : pyval) : outcome :=
  match v with
  | VNone => Raised (TypeError [OriginalMessage])
  | VBool b =>
      Returned (VFloat (if b then one_bits else 0))
  | VInt z =>
      match float_of_int z with
      | Ok bits => Returned (VFloat bits)
      | Raise e => Raised e
      end
  | VFloat bits => Returned (VFloat bits)
  | VStr s => if float_literal s then ReturnedFloatOf s else Raised ValueError
  end.

Definition py_bool (v : pyval) : bool :=
  match v with
  | VNone => false
  | VBool b => b
  | VInt z => negb (z =? 0)
  | VFloat bits => negb (bits mod 2 ^ 63 =? 0)
  | VStr s => negb (s =? "")%string
  end.

(** [str.encode(s)] on a Python 2 [str]: the text goes through the ASCII
    codec. *)
Definition str_encode (s : string) : result string :=
  if is_ascii s then Ok s else Raise UnicodeError.

(** [def convert_string(v)] *)
Definition convert_string (v : pyval) : result pyval :=
  match v with
  | VStr s => rbind (str_encode s) (fun s' => Ok (VStr s'))
  | _ => Ok v
  end.

(** [def str_store(s): return str.encode(str(s))] *)
Definition str_store (s : pyval) : outcome :=
  match s with
  | VNone => Returned (VStr "None")
  | VBool b => Returned (VStr (if b then "True" else "False"))
  | VInt z => Returned (VStr (str_of_int z))
  | VFloat bits => ReturnedTextOf bits
  | VStr t =>
      match str_encode t with
      | Ok t' => Returned (VStr t')
      | Raise e => Raised e
      end
  end.

Definition call_dtype (d : dtype) (v : pyval) : outcome :=
  match d with
  | d_int => py_int v
  | d_float => py_float v
  | d_bool => Returned (VBool (py_bool v))
  | d_str_store => str_store v
  end.

(** The exception of [dtype(v)], if it raises. *)
Definition raised (d : dtype) (v : pyval) : option pyexn :=
  match call_dtype d v with Raised e => Some e | _ => None end.

(** The value [dtype(0)]. *)
Definition call_zero (d : dtype) : pyval :=
  match d with
  | d_int => VInt 0
  | d_float => VFloat 0
  | d_bool => VBool false
  | d_str_store => VStr "0"
  end.

(** ** The [struct] module in native mode *)

(** The format characters that [MakeStore] emits. *)
Inductive fcode :=
| code_i | code_q | code_B | code_H | code_I | code_Q
| code_f | code_d | code_bool | code_s.

Definition code_of_char (c : ascii) : option fcode :=
  (match c with
   | "i" => Some code_i | "q" => Some code_q | "B" => Some code_B
   | "H" => Some code_H | "I" => Some code_I | "Q" => Some code_Q
   | "f" => Some code_f | "d" => Some code_d | "?" => Some code_bool
   | "s" => Some code_s
   | _ => None
   end)%char.

(** Native size of one element, which is also its alignment. *)
Definition code_size (k : fcode) : nat :=
  match k with
  | code_i | code_I | code_f => 4
  | code_q | code_Q | code_d => 8
  | code_H => 2
  | code_B | code_bool | code_s => 1
  end.

(** A format is a sequence of items [count code]; a count with no code
    after it and a character that is no code are errors. *)
Fixpoint parse_format (cs : list ascii) (count : option nat)
  : result (list (fcode * nat)) :=
  match cs with
  | [] => match count with None => Ok [] | Some _ => Raise StructError end
  | c :: cs' =>
      match digit_of_char c with
      | Some d =>
          parse_format cs'
            (Some (10 * match count with Some n => n | None => O end + d)%nat)
      | None =>
          match code_of_char c with
          | Some k =>
              rbind (parse_format cs' None) (fun items =>
              Ok ((k, match count with Some n => n | None => 1%nat end) :: items))
          | None => Raise StructError
          end
      end
  end.

(** One place of the packed layout: [s_arg] tells whether it takes a value
    (an item with count zero only aligns). *)
Record slot := { s_code : fcode; s_size : nat; s_arg : bool }.

Definition slots_of_item (item : fcode * nat) : list slot :=
  let '(k, n) := item in
  match k, n with
  | code_s, _ => [{| s_code := code_s; s_size := n; s_arg := true |}]
  | _, O => [{| s_code := k; s_size := O; s_arg := false |}]
  | _, _ => repeat {| s_code := k; s_size := code_size k; s_arg := true |} n
  end.

Definition prepare (fmt : string) : result (list slot) :=
  rbind (parse_format (list_ascii_of_string fmt) None) (fun items =>
  Ok (flat_map slots_of_item items)).

(** Pad bytes needed at offset [off] to reach a multiple of [a]. *)
Definition padding (off a : nat) : nat := ((a - off mod a) mod a)%nat.

Definition slot_pad (off : nat) (s : slot) : nat :=
  padding off (code_size (s_code s)).

Fixpoint end_offset (sl : list slot) (off : nat) : nat :=
  match sl with
  | [] => off
  | s :: sl' => end_offset sl' (off + slot_pad off s + s_size s)%nat
  end.

Definition calcsize (sl : list slot) : nat := end_offset sl O.

Definition count_args (sl : list slot) : nat :=
  List.length (filter s_arg sl).

(** Bytes, little endian. *)
Definition byte_of_Z (z : Z) : byte :=
  match Byte.of_N (Z.to_N (z mod 256)) with Some b => b | None => x00 end.

Definition Z_of_byte (b : byte) : Z := Z.of_N (Byte.to_N b).

Fixpoint le_bytes (n : nat) (z : Z) : list byte :=
  match n with
  | O => []
  | S n' => byte_of_Z z :: le_bytes n' (z / 256)
  end.

Fixpoint le_value (bs : list byte) : Z :=
  match bs with
  | [] => 0
  | b :: bs' => Z_of_byte b + 256 * le_value bs'
  end.

Definition is_signed (k : fcode) : bool :=
  match k with code_i | code_q => true | _ => false end.

Definition in_range (k : fcode) (z : Z) : bool :=
  let bits := 8 * Z.of_nat (code_size k) in
  if is_signed k then (- 2 ^ (bits - 1) <=? z) && (z <? 2 ^ (bits - 1))
  else (0 <=? z) && (z <? 2 ^ bits).

(** The integer that an integer code packs for [v]: an [int] or a [bool]
    as it is, a [float] through its [__int__] (deprecated), nothing else. *)
Definition integer_argument (v : pyval) : result Z :=
  match v with
  | VInt z => Ok z
  | VBool b => Ok (if b then 1 else 0)
  | VFloat bits => int_of_float bits
  | VNone | VStr _ => Raise StructError
  end.

(** The double that a float code packs for [v]. *)
Definition float_argument (v : pyval) : result Z :=
  match v with
  | VFloat bits => Ok bits
  | VInt z =>
      match float_of_int z with Ok b => Ok b | Raise _ => Raise StructError end
  | VBool b => Ok (if b then one_bits else 0)
  | VNone | VStr _ => Raise StructError
  end.

Definition pack_value (k : fcode) (size : nat) (v : pyval)
  : result (list byte) :=
  match k with
  | code_i | code_q | code_B | code_H | code_I | code_Q =>
      rbind (integer_argument v) (fun z =>
      if in_range k z then Ok (le_bytes size z) else Raise StructError)
  | code_f =>
      rbind (float_argument v) (fun b => Ok (le_bytes size (single_of_double b)))
  | code_d => rbind (float_argument v) (fun b => Ok (le_bytes size b))
  | code_bool => Ok [if py_bool v then x01 else x00]
  | code_s =>
      match v with
      | VStr s =>
          let bs := list_byte_of_string s in
          Ok (firstn size bs ++ repeat x00 (size - List.length bs))
      | _ => Raise StructError
      end
  end.

Definition unpack_value (k : fcode) (bs : list byte) : pyval :=
  match k with
  | code_i | code_q =>
      let u := le_value bs in
      let bits := 8 * Z.of_nat (List.length bs) in
      VInt (if u <? 2 ^ (bits - 1) then u else u - 2 ^ bits)
  | code_B | code_H | code_I | code_Q => VInt (le_value bs)
  | code_f => VFloat (double_of_single (le_value bs))
  | code_d => VFloat (le_value bs)
  | code_bool => VBool (negb (le_value bs =? 0))
  | code_s => VStr (string_of_list_byte bs)
  end.

Fixpoint pack_slots (sl : list slot) (off : nat) (args : list pyval)
  : result (list byte) :=
  match sl with
  | [] => Ok []
  | s :: sl' =>
      let pad := slot_pad off s in
      if s_arg s then
        match args with
        | v :: args' =>
            rbind (pack_value (s_code s) (s_size s) v) (fun b =>
            rbind (pack_slots sl' (off + pad + s_size s) args') (fun bs =>
            Ok (repeat x00 pad ++ b ++ bs)))
        | [] => Raise StructError
        end
      else
        rbind (pack_slots sl' (off + pad + s_size s) args) (fun bs =>
        Ok (repeat x00 pad ++ repeat x00 (s_size s) ++ bs))
  end.

Fixpoint unpack_slots (sl : list slot) (off : nat) (bs : list byte) : row :=
  match sl with
  | [] => []
  | s :: sl' =>
      let pad := slot_pad off s in
      let bs1 := skipn pad bs in
      let rest :=
        unpack_slots sl' (off + pad + s_size s) (skipn (s_size s) bs1) in
      if s_arg s then unpack_value (s_code s) (firstn (s_size s) bs1) :: rest
      else rest
  end.

(** [struct.pack(fmt, *args)]: the number of values is checked first. *)
Definition struct_pack (fmt : string) (args : list pyval)
  : result (list byte) :=
  rbind (prepare fmt) (fun sl =>
  if (List.length args =? count_args sl)%nat then pack_slots sl O args
  else Raise StructError).

(** [struct.unpack(fmt, data)]: the data must have the size of the
    format. *)
Definition struct_unpack (fmt : string) (data : list byte) : result row :=
  rbind (prepare fmt) (fun sl =>
  if (List.length data =? calcsize sl)%nat then Ok (unpack_slots sl O data)
  else Raise StructError).

(** ** Sequences: [l[:k]], [l[k]] and [x in l] *)

Definition py_prefix {A} (l : list A) (k : Z) : list A :=
  if k <? 0 then firstn (List.length l - Z.to_nat (- k)) l
  else firstn (Z.to_nat k) l.

Definition py_index {A} (l : list A) (k : Z) : result A :=
  let n := Z.of_nat (List.length l) in
  let j := if k <? 0 then k + n else k in
  if (j <? 0) || (n <=? j) then Raise IndexError
  else match nth_error l (Z.to_nat j) with
       | Some a => Ok a
       | None => Raise IndexError
       end.

Definition contains_char (c : ascii) (s : string) : bool :=
  existsb (Ascii.eqb c) (list_ascii_of_string s).

(** [x.replace("\x00", "")] *)
Definition remove_nul (s : string) : string :=
  string_of_list_ascii
    (filter (fun c => negb (Ascii.eqb c zero)) (list_ascii_of_string s)).

(** ** Dictionaries *)

(** A [dict] with [str] keys: its items, a key once; setting a key that
    is there replaces its value. *)
Definition pydict : Type := list (string * pyval).

Fixpoint dict_set (k : string) (v : pyval) (d : pydict) : pydict :=
  match d with
  | [] => [(k, v)]
  | (k', v') :: d' =>
      if (k =? k')%string then (k, v) :: d' else (k', v') :: dict_set k v d'
  end.

Fixpoint dict_get (k : string) (d : pydict) : option pyval :=
  match d with
  | [] => None
  | (k', v') :: d' => if (k =? k')%string then Some v' else dict_get k d'
  end.

(** [{k: v for k, v in pairs}] *)
Definition dict_of (pairs : list (string * pyval)) : pydict :=
  fold_left (fun d kv => dict_set (fst kv) (snd kv) d) pairs [].

(** ** Files and memory maps *)

(** [class Mode] *)
Module Mode.
Inductive t := READONLY | WRITE | APPEND | READONCE.
End Mode.

(** The dictionary pickled into [__rawformat__]. *)
Record metadata := {
  md_rowbytes : Z;
  md_pack_format : string;
  md_colnames : list string;
  md_dtypes : list dtype;
  md_N : Z
}.

(** The store directory: whether it exists, and its two files. *)
Record filesystem := {
  directory_exists : bool;
  rawformat : option metadata;
  store_file : option (list byte)
}.

(** A memory map of the whole store file (length 0 maps the file as it is;
    the file is resized only while no map is open), and a plain file
    object. *)
Record mmap_obj := { m_closed : bool; m_pos : Z; m_write : bool }.
Record file_obj := { h_closed : bool; h_pos : Z; h_write : bool }.

Inductive handle :=
| PyNone
| MmapObj (m : mmap_obj)
| FileObj (h : file_obj).

(** The value of the local variable [access] of [_openfile]. *)
Inductive access := Unbound | AccessNone | ACCESS_READ | ACCESS_WRITE.

(** Writing [bs] at position [pos] of a file: the gap up to [pos], if
    any, reads as zeros. *)
Definition file_write (data : list byte) (pos : nat) (bs : list byte)
  : list byte :=
  firstn pos (data ++ repeat x00 (pos - List.length data))
  ++ bs ++ skipn (pos + List.length bs) data.

(** ** [class RawStore] *)

Module RawStore.

(** The attributes of [self]. *)
Record t := {
  rowbytes : Z;
  pack_format : string;
  colnames : list string;
  dtypes : list dtype;
  N : Z;
  mode : Mode.t;
  f : handle;
  _f : handle
}.

Definition set_f (h : handle) (s : t) : t :=
  {| rowbytes := rowbytes s; pack_format := pack_format s;
     colnames := colnames s; dtypes := dtypes s; N := N s; mode := mode s;
     f := h; _f := _f s |}.

Definition set__f (h : handle) (s : t) : t :=
  {| rowbytes := rowbytes s; pack_format := pack_format s;
     colnames := colnames s; dtypes := dtypes s; N := N s; mode := mode s;
     f := f s; _f := h |}.

Definition set_N (n : Z) (s : t) : t :=
  {| rowbytes := rowbytes s; pack_format := pack_format s;
     colnames := colnames s; dtypes := dtypes s; N := n; mode := mode s;
     f := f s; _f := _f s |}.

(** The state a method runs in. *)
Record world := { fs : filesystem; self : t }.

Definition with_self (s : t) (w : world) : world :=
  {| fs := fs w; self := s |}.

Definition with_store_file (d : list byte) (w : world) : world :=
  {| fs := {| directory_exists := directory_exists (fs w);
              rawformat := rawformat (fs w);
              store_file := Some d |};
     self := self w |}.

Definition with_rawformat (md : metadata) (w : world) : world :=
  {| fs := {| directory_exists := directory_exists (fs w);
              rawformat := Some md;
              store_file := store_file (fs w) |};
     self := self w |}.

(** The bytes of [__store___]. *)
Definition data (w : world) : list byte :=
  match store_file (fs w) with Some d => d | None => [] end.

Definition size (w : world) : Z := Z.of_nat (List.length (data w)).

(** Methods: state and exceptions. *)
Definition M (A : Type) : Type := world -> result A * world.

Definition ret {A} (a : A) : M A := fun w => (Ok a, w).
Definition raise {A} (e : pyexn) : M A := fun w => (Raise e, w).
Definition bind {A B} (c : M A) (k : A -> M B) : M B :=
  fun w => match c w with
           | (Ok a, w') => k a w'
           | (Raise e, w') => (Raise e, w')
           end.
Definition lift {A} (r : result A) : M A := fun w => (r, w).
Definition me : M t := fun w => (Ok (self w), w).
Definition update (g : t -> t) : M unit :=
  fun w => (Ok tt, with_self (g (self w)) w).
(** [try: c  except <caught>: handler] *)
Definition try_except {A} (c : M A) (caught : pyexn -> bool)
  (handler : pyexn -> M A) : M A :=
  fun w => match c w with
           | (Raise e, w') => if caught e then handler e w' else (Raise e, w')
           | r => r
           end.

Declare Scope method_scope.
Delimit Scope method_scope with method.
Notation "x <- c ;; k" := (bind c (fun x => k))
  (at level 61, c at next level, right associativity) : method_scope.
Notation "c ;; k" := (bind c (fun _ => k))
  (at level 61, right associativity) : method_scope.
Local Open Scope method_scope.

(** [open(fname, flags)] on the store file. *)
Definition open (write : bool) : M file_obj :=
  fun w => match store_file (fs w) with
           | Some _ =>
               (Ok {| h_closed := false; h_pos := 0; h_write := write |}, w)
           | None => (Raise IOError, w)
           end.

(** [mmap.mmap(h.fileno(), 0, access=access)] *)
Definition mmap (h : handle) (a : access) : M handle :=
  match h with
  | FileObj o =>
      if h_closed o then raise ValueError
      else match a with
           | Unbound => raise UnboundLocalError
           | AccessNone => raise (TypeError [OriginalMessage])
           | ACCESS_READ | ACCESS_WRITE =>
               w <- (fun w => (Ok w, w)) ;;
               if size w =? 0 then raise ValueError
               else
                 ret (MmapObj
                        {| m_closed := false; m_pos := 0;
                           m_write := match a with
                                      | ACCESS_WRITE => true
                                      | _ => false
                                      end |})
           end
  | _ => raise AttributeError
  end.

(** The same map or file at another position. *)
Definition mmap_at (m : mmap_obj) (pos : Z) : handle :=
  MmapObj {| m_closed := false; m_pos := pos; m_write := m_write m |}.

Definition file_at (h : file_obj) (pos : Z) : handle :=
  FileObj {| h_closed := false; h_pos := pos; h_write := h_write h |}.

(** [self.f.seek(offset, 0)] *)
Definition f_seek (offset : Z) : M unit :=
  fun w =>
    match f (self w) with
    | PyNone => (Raise AttributeError, w)
    | MmapObj m =>
        if m_closed m then (Raise ValueError, w)
        else if (offset <? 0) || (size w <? offset) then (Raise ValueError, w)
        else (Ok tt, with_self (set_f (mmap_at m offset) (self w)) w)
    | FileObj h =>
        if h_closed h then (Raise ValueError, w)
        else if offset <? 0 then (Raise IOError, w)
        else (Ok tt, with_self (set_f (file_at h offset) (self w)) w)
    end.

(** The bytes that a read of [n] bytes at [pos] returns: fewer at the
    end of the data, all that is left for a negative [n]. *)
Definition read_at (d : list byte) (pos n : Z) : list byte :=
  let rest := skipn (Z.to_nat pos) d in
  if n <? 0 then rest else firstn (Z.to_nat n) rest.

(** [self.f.read(n)] *)
Definition f_read (n : Z) : M (list byte) :=
  fun w =>
    match f (self w) with
    | PyNone => (Raise AttributeError, w)
    | MmapObj m =>
        if m_closed m then (Raise ValueError, w)
        else
          let bs := read_at (data w) (m_pos m) n in
          (Ok bs,
           with_self
             (set_f (mmap_at m (m_pos m + Z.of_nat (List.length bs)))
                (self w)) w)
    | FileObj h =>
        if h_closed h then (Raise ValueError, w)
        else
          let bs := read_at (data w) (h_pos h) n in
          (Ok bs,
           with_self
             (set_f (file_at h (h_pos h + Z.of_nat (List.length bs)))
                (self w)) w)
    end.

(** [self.f.write(bs)]: a map cannot grow and a read-only map or file
    cannot be written. *)
Definition f_write (bs : list byte) : M unit :=
  fun w =>
    let n := Z.of_nat (List.length bs) in
    match f (self w) with
    | PyNone => (Raise AttributeError, w)
    | MmapObj m =>
        if m_closed m then (Raise ValueError, w)
        else if negb (m_write m) then (Raise (TypeError [OriginalMessage]), w)
        else if size w <? m_pos m + n then (Raise ValueError, w)
        else
          (Ok tt,
           with_store_file (file_write (data w) (Z.to_nat (m_pos m)) bs)
             (with_self (set_f (mmap_at m (m_pos m + n)) (self w)) w))
    | FileObj h =>
        if h_closed h then (Raise ValueError, w)
        else if negb (h_write h) then (Raise IOError, w)
        else
          (Ok tt,
           with_store_file (file_write (data w) (Z.to_nat (h_pos h)) bs)
             (with_self (set_f (file_at h (h_pos h + n)) (self w)) w))
    end.

(** [h.close()] *)
Definition close_handle (h : handle) : result handle :=
  match h with
  | PyNone => Raise AttributeError
  | MmapObj m =>
      Ok (MmapObj {| m_closed := true; m_pos := m_pos m;
                     m_write := m_write m |})
  | FileObj o =>
      Ok (FileObj {| h_closed := true; h_pos := h_pos o;
                     h_write := h_write o |})
  end.

(** [def _openfile(self)] *)
Definition _openfile : M unit :=
  s <- me ;;
  access0 <-
    match mode s with
    | Mode.APPEND =>
        h <- open true ;; update (set__f (FileObj h)) ;; ret AccessNone
    | _ => ret Unbound
    end ;;
  access1 <-
    match mode s with
    | Mode.READONLY =>
        h <- open false ;; update (set__f (FileObj h)) ;; ret ACCESS_READ
    | Mode.READONCE =>
        h <- open false ;; update (set_f (FileObj h)) ;; ret access0
    | _ =>
        h <- open true ;; update (set__f (FileObj h)) ;; ret ACCESS_WRITE
    end ;;
  s <- me ;;
  match _f s with
  | PyNone => update (set_f (_f s))
  | h => m <- mmap h access1 ;; update (set_f m)
  end.

(** [def __init__(self, directory, mode=Mode.READONLY)] *)
Definition __init__ (mode : Mode.t) (d : filesystem) : result world :=
  if negb (directory_exists d) then Raise IOError
  else
    match rawformat d with
    | None => Raise IOError
    | Some md =>
        let s := {| rowbytes := md_rowbytes md;
                    pack_format := md_pack_format md;
                    colnames := md_colnames md;
                    dtypes := md_dtypes md;
                    N := md_N md;
                    mode := mode; f := PyNone; _f := PyNone |} in
        match _openfile {| fs := d; self := s |} with
        | (Ok _, w) => Ok w
        | (Raise e, _) => Raise e
        end
    end.

(** [def close(self)] *)
Definition close : M unit :=
  s <- me ;;
  h <- lift (close_handle (f s)) ;;
  update (set_f h) ;;
  s <- me ;;
  h <- lift (close_handle (_f s)) ;;
  update (set__f h).

(** [def __len__(self)] *)
Definition __len__ : M Z := s <- me ;; ret (N s).

(** [def appendBlankRows(self, M)] *)
Definition appendBlankRows (m : Z) : M unit :=
  s <- me ;;
  match mode s with
  | Mode.APPEND =>
      close ;;
      _ <- open true ;;
      if m <? 1 then raise ValueError
      else
        close ;;
        s <- me ;;
        let target := rowbytes s * (N s + m) in
        (if target <? 0 then raise IOError
         else fun w =>
                (Ok tt,
                 with_store_file
                   (file_write (data w) (Z.to_nat target) [x00]) w)) ;;
        update (set_N (N s + m)) ;;
        s <- me ;;
        opts <- (fun w => match rawformat (fs w) with
                          | Some md => (Ok md, w)
                          | None => (Raise IOError, w)
                          end) ;;
        (fun w => (Ok tt, with_rawformat
                            {| md_rowbytes := md_rowbytes opts;
                               md_pack_format := md_pack_format opts;
                               md_colnames := md_colnames opts;
                               md_dtypes := md_dtypes opts;
                               md_N := N s |} w)) ;;
        _openfile
  | _ => raise IOError
  end.

(** The clean-up of a decoded field in [get]:
    [str(x).replace("\x00","") if isinstance(x, (str, bytes)) else x]. *)
Definition strip_field (x : pyval) : pyval :=
  match x with VStr s => VStr (remove_nul s) | _ => x end.

(** [def get(self, idx)] *)
Definition get (idx : Z) : M row :=
  s <- me ;;
  if (N s <=? idx) || (idx <? 0) then raise IndexError
  else
    let offset := idx * rowbytes s in
    try_except (f_seek offset) is_ValueError (fun _ => raise IndexError) ;;
    _bytes <- f_read (rowbytes s) ;;
    res <- lift (struct_unpack (pack_format s) _bytes) ;;
    if negb (contains_char "s" (pack_format s)) then ret res
    else ret (map strip_field res).

(** How a generator came to its end: by [StopIteration], by another
    exception, or not yet (the fuel of the embedding ran out). *)
Inductive ending := Exhausted | Failed (e : pyexn) | Running.

(** What a consumer of a generator sees: the items yielded, in order,
    and the end. *)
Definition trace : Type := list row * ending.

(** The [while 1:] loop of [getColByIdx]; [pack_format] and [nbytes] are
    the locals of the generator, [offset] the next position to seek. *)
Fixpoint getColByIdx_loop (fuel : nat) (pack_format : string)
  (nbytes offset : Z) (w : world) : trace * world :=
  match fuel with
  | O => (([], Running), w)
  | S fuel' =>
      match f_read nbytes w with
      | (Raise e, w1) => (([], Failed e), w1)
      | (Ok [], w1) => (([], Exhausted), w1)
      | (Ok bytes, w1) =>
          match struct_unpack pack_format bytes with
          | Raise e =>
              if is_StructError e
                 && negb (Z.of_nat (List.length bytes) =? nbytes)
              then (([], Exhausted), w1)
              else (([], Failed e), w1)
          | Ok item =>
              match f_seek offset w1 with
              | (Raise e, w2) =>
                  if is_ValueError e then (([item], Exhausted), w2)
                  else (([item], Failed e), w2)
              | (Ok _, w2) =>
                  let '((items, e), w3) :=
                    getColByIdx_loop fuel' pack_format nbytes
                      (offset + rowbytes (self w2)) w2 in
                  ((item :: items, e), w3)
              end
          end
      end
  end.

(** [def getColByIdx(self, column)], run to its end. *)
Definition getColByIdx (fuel : nat) (column : Z) (w : world)
  : trace * world :=
  let s := self w in
  let fmt := list_ascii_of_string (pack_format s) in
  let skip_format := string_of_list_ascii (py_prefix fmt column) in
  let prologue :=
    rbind (struct_pack skip_format (map call_zero (py_prefix (dtypes s) column)))
      (fun skipped =>
    let offset := Z.of_nat (List.length skipped) in
    rbind (py_index fmt column) (fun c =>
    let pack_format := String c EmptyString in
    rbind (py_index (dtypes s) column) (fun d =>
    rbind (struct_pack pack_format [call_zero d]) (fun one =>
    Ok (offset, pack_format, Z.of_nat (List.length one)))))) in
  match prologue with
  | Raise e => (([], Failed e), w)
  | Ok (offset, pack_format, nbytes) =>
      match f_seek offset w with
      | (Raise e, w1) => (([], Failed e), w1)
      | (Ok _, w1) =>
          getColByIdx_loop fuel pack_format nbytes (offset + rowbytes s) w1
      end
  end.

(** [list.index] *)
Fixpoint list_index (x : string) (l : list string) : option Z :=
  match l with
  | [] => None
  | y :: l' =>
      if (x =? y)%string then Some 0
      else option_map Z.succ (list_index x l')
  end.

(** [def getCol(self, column_name)], run to its end. *)
Definition getCol (fuel : nat) (column_name : string) (w : world)
  : trace * world :=
  match list_index column_name (colnames (self w)) with
  | None => (([], Failed ValueError), w)
  | Some idx => getColByIdx fuel idx w
  end.

(** The first exception of [[dtype(v) for dtype, v in zip(dtypes, row)]]. *)
Fixpoint first_raised (l : list (dtype * pyval)) : option pyexn :=
  match l with
  | [] => None
  | (d, v) :: l' =>
      match raised d v with
      | Some e => Some e
      | None => first_raised l'
      end
  end.

(** The lines that the handler of [putRow] appends, one for each column
    whose conversion raises. *)
Fixpoint cannot_convert (colnames : list string) (i : Z)
  (l : list (dtype * pyval)) : result (list msg_line) :=
  match l with
  | [] => Ok []
  | (d, v) :: l' =>
      match raised d v with
      | Some _ =>
          rbind (py_index colnames i) (fun name =>
          rbind (cannot_convert colnames (i + 1) l') (fun lines =>
          Ok (CannotConvert name v d :: lines)))
      | None => cannot_convert colnames (i + 1) l'
      end
  end.

(** [def putRow(self, idx, row)] *)
Definition putRow (idx : Z) (row : row) : M unit :=
  s <- me ;;
  if N s <=? idx then raise IndexError
  else if negb (List.length row =? List.length (dtypes s))%nat
  then raise ValueError
  else
    match first_raised (combine (dtypes s) row) with
    | Some (TypeError message) =>
        lines <- lift (cannot_convert (colnames s) 0 (combine (dtypes s) row)) ;;
        raise (TypeError (message ++ lines))
    | Some e => raise e
    | None =>
        let offset := idx * rowbytes s in
        f_seek offset ;;
        bytes <- lift (rbind (rmap convert_string row)
                         (struct_pack (pack_format s))) ;;
        f_write bytes
    end.

(** [def getDict(self, idx)] *)
Definition getDict (idx : Z) : M pydict :=
  s <- me ;;
  r <- get idx ;;
  ret (dict_of (combine (colnames s) r)).

(** [def write(self, row)] *)
Definition write (row : row) : M unit :=
  s <- me ;;
  bytes <- lift (struct_pack (pack_format s) row) ;;
  f_write bytes.

End RawStore.

(** ** [class RawStoreIter] *)

Module RawStoreIter.
Import RawStore.

(** The attribute [i] of the iterator; [raw] is the store of the
    [world]. *)
Record t := { i : Z }.

(** [def __init__(self, raw)] *)
Definition __init__ : t := {| i := -1 |}.

(** [def next(self)] *)
Definition next (it : t) (w : world) : result row * t * world :=
  let it' := {| i := i it + 1 |} in
  if N (self w) <=? i it' then (Raise StopIteration, it', w)
  else let '(r, w') := get (i it') w in (r, it', w').

(** The results of [n] successive calls of [next]. *)
Fixpoint nexts (n : nat) (it : t) (w : world)
  : list (result row) * t * world :=
  match n with
  | O => ([], it, w)
  | S n' =>
      let '(r, it1, w1) := next it w in
      let '(rs, it2, w2) := nexts n' it1 w1 in
      (r :: rs, it2, w2)
  end.
End RawStoreIter.

(** [def __iter__(self): return RawStoreIter(self)] *)
Definition __iter__ : RawStoreIter.t := RawStoreIter.__init__.

(** ** [def MakeStore(cols, N, directory, checkDirectoryExists=True)] *)

(** The logical types, as the tests of [MakeStore] tell them apart: the
    nine numeric types, an object with a [type] attribute (a dtype
    instance; [is_string] says whether that attribute is [numpy.string_])
    and any other object. *)
Inductive numpy_type :=
| np_int32 | np_int64 | np_uint8 | np_uint16 | np_uint32 | np_uint64
| np_float32 | np_float64 | np_bool
| np_dtype (is_string : bool) (itemsize : nat)
| np_other.

(** The locals [type], [types], [names], [dtypes] of [MakeStore]; [type]
    is unbound until a branch assigns it. *)
Record locals := {
  l_type : option string;
  l_types : list string;
  l_names : list string;
  l_dtypes : list dtype
}.

Definition string_format (itemsize : nat) : string :=
  string_of_list_ascii (decimal (Z.of_nat itemsize) ++ ["s"%char]).

(** One turn of [for name, dtype in cols:]. *)
Definition MakeStore_step (l : locals) (col : string * numpy_type)
  : result locals :=
  let '(name, numpy_dtype) := col in
  let names := l_names l ++ [name] in
  let assign (type : string) (d : dtype) : result (option string * list dtype) :=
    Ok (Some type, l_dtypes l ++ [d]) in
  rbind
    match numpy_dtype with
    | np_int32 => assign "i"%string d_int
    | np_int64 => assign "q"%string d_int
    | np_uint8 => assign "B"%string d_int
    | np_uint16 => assign "H"%string d_int
    | np_uint32 => assign "I"%string d_int
    | np_uint64 => assign "Q"%string d_int
    | np_float32 => assign "f"%string d_float
    | np_float64 => assign "d"%string d_float
    | np_bool => assign "?"%string d_bool
    | np_dtype true size => assign (string_format size) d_str_store
    | np_dtype false _ => Ok (l_type l, l_dtypes l)
    | np_other => Raise ValueError
    end (fun '(type, dtypes) =>
  match type with
  | None => Raise UnboundLocalError
  | Some t =>
      Ok {| l_type := type; l_types := l_types l ++ [t];
            l_names := names; l_dtypes := dtypes |}
  end).

Fixpoint MakeStore_loop (l : locals) (cols : list (string * numpy_type))
  : result locals :=
  match cols with
  | [] => Ok l
  | col :: cols' => rbind (MakeStore_step l col) (fun l' => MakeStore_loop l' cols')
  end.

(** The locals before the loop. *)
Definition no_locals : locals :=
  {| l_type := None; l_types := []; l_names := []; l_dtypes := [] |}.

Definition MakeStore (cols : list (string * numpy_type)) (N : option Z)
  (checkDirectoryExists : bool) (d : filesystem)
  : result RawStore.world * filesystem :=
  if directory_exists d && checkDirectoryExists then (Raise IOError, d)
  else
    let d1 := {| directory_exists := true; rawformat := rawformat d;
                 store_file := store_file d |} in
    match N with
    | None | Some 0 => (Raise ValueError, d1)
    | Some n =>
        match MakeStore_loop no_locals cols with
        | Raise e => (Raise e, d1)
        | Ok l =>
            let pack_format := String.concat "" (l_types l) in
            match struct_pack pack_format (map call_zero (l_dtypes l)) with
            | Raise e => (Raise e, d1)
            | Ok packed =>
                let rowbytes := Z.of_nat (List.length packed) in
                let md := {| md_rowbytes := rowbytes;
                             md_pack_format := pack_format;
                             md_colnames := l_names l;
                             md_dtypes := l_dtypes l;
                             md_N := n |} in
                let d2 := {| directory_exists := true; rawformat := Some md;
                             store_file := store_file d |} in
                if rowbytes * n <? 0 then
                  (Raise IOError,
                   {| directory_exists := true; rawformat := Some md;
                      store_file := Some [] |})
                else
                  let created :=
                    file_write [] (Z.to_nat (rowbytes * n)) [x00] in
                  let d3 := {| directory_exists := true; rawformat := Some md;
                               store_file := Some created |} in
                  (RawStore.__init__ Mode.WRITE d3, d3)
            end
        end
    end.

(** ** The stores and rows of the properties *)

Module Import Notions.
Import RawStore.

(** A directory that does not exist yet. *)
Definition no_directory : filesystem :=
  {| directory_exists := false; rawformat := None; store_file := None |}.

(** The descriptor of [s] is the one that [MakeStore] derives from the
    column specification [cols]. *)
Definition derived (cols : list (string * numpy_type)) (s : t) : Prop :=
  exists l packed,
    MakeStore_loop no_locals cols = Ok l
    /\ struct_pack (String.concat "" (l_types l)) (map call_zero (l_dtypes l))
       = Ok packed
    /\ pack_format s = String.concat "" (l_types l)
    /\ colnames s = l_names l
    /\ dtypes s = l_dtypes l
    /\ rowbytes s = Z.of_nat (List.length packed).

(** The types that a branch of [MakeStore] maps, and what the branch
    assigns to [type], appends to [dtypes], and the place the column
    takes in the packed row. *)
Definition supported (ty : numpy_type) : bool :=
  match ty with np_dtype false _ | np_other => false | _ => true end.

Definition type_of (ty : numpy_type) : string :=
  match ty with
  | np_int32 => "i" | np_int64 => "q" | np_uint8 => "B" | np_uint16 => "H"
  | np_uint32 => "I" | np_uint64 => "Q" | np_float32 => "f"
  | np_float64 => "d" | np_bool => "?"
  | np_dtype _ size => string_format size
  | np_other => ""
  end.

Definition dtype_of (ty : numpy_type) : dtype :=
  match ty with
  | np_float32 | np_float64 => d_float
  | np_bool => d_bool
  | np_dtype _ _ => d_str_store
  | _ => d_int
  end.

Definition code_of (ty : numpy_type) : fcode :=
  match ty with
  | np_int32 => code_i | np_int64 => code_q | np_uint8 => code_B
  | np_uint16 => code_H | np_uint32 => code_I | np_uint64 => code_Q
  | np_float32 => code_f | np_float64 => code_d | np_bool => code_bool
  | _ => code_s
  end.

Definition slot_of (ty : numpy_type) : slot :=
  {| s_code := code_of ty;
     s_size := match ty with
               | np_dtype _ size => size
               | _ => code_size (code_of ty)
               end;
     s_arg := true |}.

(** The digits read so far by [parse_format], fed with more digits. *)
Definition feed (ds : list ascii) (count : option nat) : option nat :=
  fold_left (fun c ch =>
               match digit_of_char ch with
               | Some d => Some (10 * match c with Some n => n | None => O end + d)%nat
               | None => c
               end) ds count.

Definition all_digits (ds : list ascii) : Prop :=
  Forall (fun ch => digit_of_char ch <> None) ds.

(** A text that some branch of [MakeStore] assigns to [type]. *)
Definition is_type (t : string) : Prop :=
  exists ty, supported ty = true /\ t = type_of ty.

(** A slot as [prepare] makes them: a one-byte code has size one unless
    it is the string code. *)
Definition slot_ok (s : slot) : Prop :=
  s_code s = code_bool -> s_size s = 1%nat.

(** The pad bytes that alignment puts before the columns of a row that
    starts at offset [off]. *)
Fixpoint alignment_padding (tys : list numpy_type) (off : nat) : nat :=
  match tys with
  | [] => O
  | ty :: tys' =>
      let pad := slot_pad off (slot_of ty) in
      (pad + alignment_padding tys' (off + pad + s_size (slot_of ty)))%nat
  end.

(** The store is open on a memory map. *)
Definition is_open (w : world) : Prop :=
  exists m, f (self w) = MmapObj m /\ m_closed m = false.

Definition is_writable (w : world) : Prop :=
  exists m, f (self w) = MmapObj m /\ m_closed m = false /\ m_write m = true.

(** The store file has the rows and the one byte that marks its end. *)
Definition file_length_ok (w : world) : Prop :=
  exists d, store_file (fs w) = Some d
            /\ Z.of_nat (List.length d) = N (self w) * rowbytes (self w) + 1.

(** Sum of the sizes of the encodings of the columns. *)
Definition column_size (ty : numpy_type) : Z :=
  match ty with
  | np_int32 | np_uint32 | np_float32 => 4
  | np_int64 | np_uint64 | np_float64 => 8
  | np_uint16 => 2
  | np_uint8 | np_bool => 1
  | np_dtype _ size => Z.of_nat size
  | np_other => 0
  end.

Definition sum_of_sizes (cols : list (string * numpy_type)) : Z :=
  fold_right (fun col acc => column_size (snd col) + acc) 0 cols.

(** The result of [dtype(v)] for every field, when all are values. *)
Fixpoint coerce_row (ds : list dtype) (r : row) : option row :=
  match ds, r with
  | [], [] => Some []
  | d :: ds', v :: r' =>
      match call_dtype d v, coerce_row ds' r' with
      | Returned v', Some r'' => Some (v' :: r'')
      | _, _ => None
      end
  | _, _ => None
  end.

Definition no_nul (s : string) : bool :=
  forallb (fun c => negb (Ascii.eqb c zero)) (list_ascii_of_string s).

(** The value [v] has the type of the column and its encoding holds it
    exactly. *)
Definition fits (ty : numpy_type) (v : pyval) : bool :=
  match ty, v with
  | np_int32, VInt z => in_range code_i z
  | np_int64, VInt z => in_range code_q z
  | np_uint8, VInt z => in_range code_B z
  | np_uint16, VInt z => in_range code_H z
  | np_uint32, VInt z => in_range code_I z
  | np_uint64, VInt z => in_range code_Q z
  | np_float32, VFloat bits =>
      let single := single_of_double bits in
      (0 <=? single) && (single <? 2 ^ 32)
      && (double_of_single single =? bits)
  | np_float64, VFloat bits => (0 <=? bits) && (bits <? 2 ^ 64)
  | np_bool, VBool _ => true
  | np_dtype true size, VStr s =>
      (String.length s <=? size)%nat && no_nul s && is_ascii s
  | _, _ => false
  end.

Fixpoint row_fits (cols : list (string * numpy_type)) (r : row) : bool :=
  match cols, r with
  | [], [] => true
  | col :: cols', v :: r' => fits (snd col) v && row_fits cols' r'
  | _, _ => false
  end.

(** The columns whose conversion raises, as [putRow] lists them. *)
Fixpoint failing_columns (names : list string) (ds : list dtype) (r : row)
  : list msg_line :=
  match names, ds, r with
  | name :: names', d :: ds', v :: r' =>
      match raised d v with
      | Some _ => CannotConvert name v d :: failing_columns names' ds' r'
      | None => failing_columns names' ds' r'
      end
  | _, _, _ => []
  end.

(** The handle is a closed map or a closed file. *)
Definition closed (h : handle) : Prop :=
  match h with
  | PyNone => False
  | MmapObj m => m_closed m = true
  | FileObj o => h_closed o = true
  end.

(** The directory of the scenarios: [MakeStore] with the columns
    [("a", int32), ("b", fixed_bytes(4))] and three rows. *)
Definition scenario_columns : list (string * numpy_type) :=
  [("a"%string, np_int32); ("b"%string, np_dtype true 4)].

Definition scenario_directory : filesystem :=
  snd (MakeStore scenario_columns (Some 3) true no_directory).

(** [self.f] is [None] or a memory map. *)
Definition mapped (h : handle) : Prop :=
  match h with FileObj _ => False | _ => True end.

(** The directory and the handle agree: the metadata carry the row
    count and the row size of the handle, and the store file has the
    rows and one more byte. *)
Definition consistent (w : world) : Prop :=
  exists md d,
    rawformat (fs w) = Some md
    /\ store_file (fs w) = Some d
    /\ directory_exists (fs w) = true
    /\ md_N md = N (self w)
    /\ md_rowbytes md = rowbytes (self w)
    /\ 0 <= rowbytes (self w)
    /\ Z.of_nat (List.length d) = N (self w) * rowbytes (self w) + 1
    /\ mapped (f (self w)).

(** The states that follow a state: the store is opened again on the
    directory, read, written with success, grown with success. *)
Inductive reachable (w0 : world) : world -> Prop :=
| reach_start : reachable w0 w0
| reach_open w mode w' :
    reachable w0 w -> __init__ mode (fs w) = Ok w' -> reachable w0 w'
| reach_get w idx r w' :
    reachable w0 w -> get idx w = (r, w') -> reachable w0 w'
| reach_putRow w idx r w' :
    reachable w0 w -> putRow idx r w = (Ok tt, w') -> reachable w0 w'
| reach_appendBlankRows w m w' :
    reachable w0 w -> appendBlankRows m w = (Ok tt, w') -> reachable w0 w'.

(** Two states that differ at most in the position of the handle
    [self.f]. *)
Definition same_handle (h h' : handle) : Prop :=
  match h, h' with
  | PyNone, PyNone => True
  | MmapObj m, MmapObj m' =>
      m_closed m = m_closed m' /\ m_write m = m_write m'
  | FileObj o, FileObj o' =>
      h_closed o = h_closed o' /\ h_write o = h_write o'
  | _, _ => False
  end.

Definition same_but_position (w w' : world) : Prop :=
  fs w = fs w'
  /\ rowbytes (self w) = rowbytes (self w')
  /\ pack_format (self w) = pack_format (self w')
  /\ colnames (self w) = colnames (self w')
  /\ dtypes (self w) = dtypes (self w')
  /\ N (self w) = N (self w')
  /\ mode (self w) = mode (self w')
  /\ same_handle (f (self w)) (f (self w'))
  /\ _f (self w) = _f (self w').
(** The metadata file holds the descriptor of the handle. *)
Definition in_sync (w : world) : Prop :=
  rawformat (fs w)
  = Some {| md_rowbytes := rowbytes (self w);
            md_pack_format := pack_format (self w);
            md_colnames := colnames (self w);
            md_dtypes := dtypes (self w);
            md_N := N (self w) |}.

(** What a column of zero bytes decodes to. *)
Definition zero_value (ty : numpy_type) : pyval :=
  match ty with
  | np_float32 | np_float64 => VFloat 0
  | np_bool => VBool false
  | np_dtype _ _ => VStr ""
  | _ => VInt 0
  end.

Definition zero_row (cols : list (string * numpy_type)) : row :=
  map (fun col => zero_value (snd col)) cols.

(** The value [v] is of the Python type that [get] returns for the
    column, within what the column can hold. *)
Definition has_type (ty : numpy_type) (v : pyval) : bool :=
  match ty, v with
  | np_int32, VInt z => in_range code_i z
  | np_int64, VInt z => in_range code_q z
  | np_uint8, VInt z => in_range code_B z
  | np_uint16, VInt z => in_range code_H z
  | np_uint32, VInt z => in_range code_I z
  | np_uint64, VInt z => in_range code_Q z
  | np_float32, VFloat _ | np_float64, VFloat _ => true
  | np_bool, VBool _ => true
  | np_dtype true size, VStr s => (String.length s <=? size)%nat && no_nul s
  | _, _ => false
  end.

Fixpoint row_has_types (cols : list (string * numpy_type)) (r : row) : bool :=
  match cols, r with
  | [], [] => true
  | col :: cols', v :: r' => has_type (snd col) v && row_has_types cols' r'
  | _, _ => false
  end.

(** The handle is a memory map, open, at position [pos]. *)
Definition open_at (pos : Z) (w : world) : Prop :=
  exists m, f (self w) = MmapObj m /\ m_closed m = false /\ m_pos m = pos.

(** The store with its open map [m] moved to [pos]. *)
Definition moved (m : mmap_obj) (pos : Z) (w : world) : world :=
  with_self (set_f (mmap_at m pos) (self w)) w.

(** The value of type [ty] that the bytes at [pos] of the store file
    decode to. *)
Definition decoded_at (w : world) (ty : numpy_type) (pos : Z) : pyval :=
  unpack_value (code_of ty)
    (read_at (data w) pos (Z.of_nat (code_size (code_of ty)))).

(** The packed size of the columns before column [c]: no pad bytes
    follow the last of them. *)
Definition packed_before (tys : list numpy_type) (c : nat) : nat :=
  calcsize (map slot_of (firstn c tys)).

End Notions.

(** * Properties *)

Import RawStore.
Local Open Scope method_scope.

(** ** Closing *)

Lemma close_handle_closed h h' : close_handle h = Ok h' -> closed h'.
Proof.
  destruct h as [|m|o]; simpl; intros E; inversion E; subst; reflexivity.
Qed.

Lemma close_handle_some h : h <> PyNone -> exists h', close_handle h = Ok h'.
Proof.
  destruct h as [|m|o]; simpl; intros E; [congruence | eauto | eauto].
Qed.

Lemma close_spec w :
  f (self w) <> PyNone -> _f (self w) <> PyNone ->
  exists h h',
    close w = (Ok tt, with_self (set__f h' (set_f h (self w))) w)
    /\ close_handle (f (self w)) = Ok h
    /\ close_handle (_f (self w)) = Ok h'.
Proof.
  intros Hf H_f.
  destruct (close_handle_some _ Hf) as [h Eh].
  destruct (close_handle_some _ H_f) as [h' Eh'].
  exists h, h'. split; [| split; assumption].
  unfold close, bind, me, lift, update. simpl. rewrite Eh. simpl.
  rewrite Eh'. reflexivity.
Qed.

Lemma f_seek_closed offset w :
  closed (f (self w)) -> f_seek offset w = (Raise ValueError, w).
Proof.
  unfold f_seek, mmap_at, file_at. destruct (f (self w)) as [|m|o]; simpl; intros E;
    [contradiction | rewrite E; reflexivity | rewrite E; reflexivity].
Qed.

Lemma get_closed idx w :
  closed (f (self w)) -> fst (get idx w) = Raise IndexError.
Proof.
  intros E. unfold get, bind, me, raise, try_except. simpl.
  destruct ((N (self w) <=? idx) || (idx <? 0)); [reflexivity |].
  rewrite (f_seek_closed _ _ E). reflexivity.
Qed.

Lemma putRow_closed idx r w :
  closed (f (self w)) -> exists e, fst (putRow idx r w) = Raise e.
Proof.
  intros E. unfold putRow, bind, me, raise, lift. simpl.
  destruct (N (self w) <=? idx); [eexists; reflexivity |].
  destruct (negb (List.length r =? List.length (dtypes (self w)))%nat);
    [eexists; reflexivity |].
  destruct (first_raised _) as [e|].
  - destruct e; try (eexists; reflexivity).
    destruct (cannot_convert _ _ _); eexists; reflexivity.
  - rewrite (f_seek_closed _ _ E). eexists; reflexivity.
Qed.

(** C10.  In append mode, [appendBlankRows(m)] with [m < 1] raises
    [ValueError] only after [close()] has run: the memory map and the file
    handle of the store are left closed, the row count and the files are as
    before, and every later [get] and [putRow] on the handle fails. *)
Theorem appendBlankRows_invalid_leaves_store_closed (w : world) (m : Z) :
  mode (self w) = Mode.APPEND ->
  f (self w) <> PyNone ->
  _f (self w) <> PyNone ->
  store_file (fs w) <> None ->
  m < 1 ->
  exists w',
    appendBlankRows m w = (Raise ValueError, w')
    /\ closed (f (self w')) /\ closed (_f (self w'))
    /\ fs w' = fs w /\ N (self w') = N (self w)
    /\ (forall idx, fst (get idx w') = Raise IndexError)
    /\ (forall idx r, exists e, fst (putRow idx r w') = Raise e).
Proof.
  intros Hmode Hf H_f Hfile Hm.
  destruct (close_spec w Hf H_f) as (h & h' & Hclose & Eh & Eh').
  exists (with_self (set__f h' (set_f h (self w))) w).
  assert (Hc : closed h) by (eapply close_handle_closed; eauto).
  assert (Hc' : closed h') by (eapply close_handle_closed; eauto).
  repeat split; try assumption; try reflexivity.
  - unfold appendBlankRows, bind, me. simpl. rewrite Hmode.
    rewrite Hclose. unfold open. simpl.
    destruct (store_file (fs w)); [| congruence].
    destruct (Z.ltb_spec m 1); [reflexivity | lia].
  - intros idx. apply get_closed. exact Hc.
  - intros idx r. apply putRow_closed. exact Hc.
Qed.

Lemma appendBlankRows_invalid_leaves_store_closed_witness :
  exists w,
    __init__ Mode.APPEND scenario_directory = Ok w
    /\ exists w',
      appendBlankRows 0 w = (Raise ValueError, w')
      /\ closed (f (self w')) /\ closed (_f (self w'))
      /\ fs w' = fs w /\ N (self w') = N (self w)
      /\ (forall idx, fst (get idx w') = Raise IndexError)
      /\ (forall idx r, exists e, fst (putRow idx r w') = Raise e).
Proof.
  eexists. split; [vm_compute; reflexivity |].
  apply appendBlankRows_invalid_leaves_store_closed;
    simpl; (reflexivity || discriminate || lia).
Defined.

(** ** Reading moves only the position *)

Lemma same_handle_refl h : same_handle h h.
Proof. destruct h; simpl; auto. Qed.

Lemma same_handle_sym h h' : same_handle h h' -> same_handle h' h.
Proof. destruct h, h'; simpl; intuition congruence. Qed.

Lemma same_handle_trans h1 h2 h3 :
  same_handle h1 h2 -> same_handle h2 h3 -> same_handle h1 h3.
Proof. destruct h1, h2, h3; simpl; intuition congruence. Qed.

Lemma same_but_position_refl w : same_but_position w w.
Proof. unfold same_but_position. auto 10 using same_handle_refl. Qed.

Lemma same_but_position_sym w w' :
  same_but_position w w' -> same_but_position w' w.
Proof.
  unfold same_but_position. intros (A & B & C & D & E & F & G & H & I).
  auto 10 using same_handle_sym.
Qed.

Lemma same_but_position_trans w1 w2 w3 :
  same_but_position w1 w2 -> same_but_position w2 w3 ->
  same_but_position w1 w3.
Proof.
  unfold same_but_position.
  intros (A & B & C & D & E & F & G & H & I)
         (A' & B' & C' & D' & E' & F' & G' & H' & I').
  repeat split; try congruence. eapply same_handle_trans; eauto.
Qed.

Lemma set_f_position w h :
  same_handle (f (self w)) h ->
  same_but_position w (with_self (set_f h (self w)) w).
Proof. intros H. unfold same_but_position. simpl. auto 10. Qed.

Lemma f_seek_position offset w :
  same_but_position w (snd (f_seek offset w)).
Proof.
  unfold f_seek, mmap_at, file_at. destruct (f (self w)) as [|m|o] eqn:E; simpl.
  - apply same_but_position_refl.
  - destruct (m_closed m) eqn:C; simpl; [apply same_but_position_refl |].
    destruct ((offset <? 0) || (size w <? offset)); simpl;
      [apply same_but_position_refl |].
    apply set_f_position. rewrite E. simpl. auto.
  - destruct (h_closed o) eqn:C; simpl; [apply same_but_position_refl |].
    destruct (offset <? 0); simpl; [apply same_but_position_refl |].
    apply set_f_position. rewrite E. simpl. auto.
Qed.

Lemma f_read_position n w : same_but_position w (snd (f_read n w)).
Proof.
  unfold f_read, mmap_at, file_at. destruct (f (self w)) as [|m|o] eqn:E; simpl.
  - apply same_but_position_refl.
  - destruct (m_closed m) eqn:C; simpl; [apply same_but_position_refl |].
    apply set_f_position. rewrite E. simpl. auto.
  - destruct (h_closed o) eqn:C; simpl; [apply same_but_position_refl |].
    apply set_f_position. rewrite E. simpl. auto.
Qed.

Lemma get_position idx w : same_but_position w (snd (get idx w)).
Proof.
  unfold get, bind, me, raise, try_except, lift, ret. simpl.
  destruct ((N (self w) <=? idx) || (idx <? 0)); simpl;
    [apply same_but_position_refl |].
  pose proof (f_seek_position (idx * rowbytes (self w)) w) as Hs.
  destruct (f_seek (idx * rowbytes (self w)) w) as [[[]|e] w1]; simpl in *.
  - pose proof (f_read_position (rowbytes (self w)) w1) as Hr.
    destruct (f_read (rowbytes (self w)) w1) as [[bs|e] w2]; simpl in *.
    + assert (same_but_position w w2)
        by (eapply same_but_position_trans; eauto).
      destruct (struct_unpack _ bs); simpl; [| assumption].
      destruct (negb _); assumption.
    + eapply same_but_position_trans; eauto.
  - destruct (is_ValueError e); assumption.
Qed.

(** After a seek that succeeds the position is forgotten: two states that
    differed in it are the same state. *)
Lemma f_seek_same offset w w' :
  same_but_position w w' ->
  fst (f_seek offset w) = fst (f_seek offset w')
  /\ (forall u, fst (f_seek offset w) = Ok u ->
      snd (f_seek offset w) = snd (f_seek offset w'))
  /\ same_but_position (snd (f_seek offset w)) (snd (f_seek offset w')).
Proof.
  intros Hs.
  assert (Hss : same_but_position (snd (f_seek offset w)) (snd (f_seek offset w'))).
  { eapply same_but_position_trans;
      [apply same_but_position_sym, f_seek_position |].
    eapply same_but_position_trans; [exact Hs | apply f_seek_position]. }
  split; [| split; [| exact Hss]];
    clear Hss; destruct Hs as (A & B & C & D & E & F & G & H & I);
    destruct w as [d s], w' as [d' s']; simpl in *; subst d';
    destruct s, s'; simpl in *; subst;
    unfold f_seek, mmap_at, file_at, size, data; simpl;
    destruct f0 as [|m|o], f1 as [|m'|o']; simpl in *; try contradiction;
    try reflexivity; try discriminate.
  - destruct H as [H1 H2]. rewrite <- H1.
    destruct (m_closed m); [reflexivity |].
    destruct ((offset <? 0) || _); reflexivity.
  - destruct H as [H1 H2]. rewrite <- H1.
    destruct (h_closed o); [reflexivity |].
    destruct (offset <? 0); reflexivity.
  - destruct H as [H1 H2]. rewrite <- H1, <- H2.
    destruct (m_closed m); [discriminate |].
    destruct ((offset <? 0) || _); [discriminate | reflexivity].
  - destruct H as [H1 H2]. rewrite <- H1, <- H2.
    destruct (h_closed o); [discriminate |].
    destruct (offset <? 0); [discriminate | reflexivity].
Qed.

Lemma get_same idx w w' :
  same_but_position w w' -> fst (get idx w) = fst (get idx w').
Proof.
  intros Hs.
  destruct (f_seek_same (idx * rowbytes (self w)) w w' Hs) as (S1 & S2 & _).
  destruct Hs as (A & B & C & D & E & F & G & H & I).
  unfold get, bind, me, raise, try_except, lift, ret. simpl.
  rewrite <- F, <- B, <- C.
  destruct ((N (self w) <=? idx) || (idx <? 0)); [reflexivity |].
  destruct (f_seek (idx * rowbytes (self w)) w) as [[[]|e] w1];
    destruct (f_seek (idx * rowbytes (self w)) w') as [[[]|e'] w1'];
    simpl in *; try discriminate.
  - rewrite (S2 tt eq_refl). reflexivity.
  - inversion S1; subst e'. destruct (is_ValueError e); reflexivity.
Qed.

(** ** Iteration *)

Lemma nexts_spec n :
  forall it w0 w,
    same_but_position w0 w ->
    fst (fst (RawStoreIter.nexts n it w))
    = map (fun k => if N (self w0) <=? RawStoreIter.i it + 1 + Z.of_nat k
                    then Raise StopIteration
                    else fst (get (RawStoreIter.i it + 1 + Z.of_nat k) w0))
          (seq 0 n)
    /\ same_but_position w0 (snd (RawStoreIter.nexts n it w)).
Proof.
  induction n as [|n IH]; intros it w0 w Hs; simpl; [auto |].
  assert (HN : N (self w0) = N (self w)) by apply Hs.
  unfold RawStoreIter.next. simpl. rewrite <- HN.
  rewrite Z.add_0_r.
  destruct (N (self w0) <=? RawStoreIter.i it + 1) eqn:E.
  - specialize (IH {| RawStoreIter.i := RawStoreIter.i it + 1 |} w0 w Hs).
    destruct (RawStoreIter.nexts n _ w) as [[rs it2] w2]. simpl in *.
    destruct IH as [IH1 IH2]. split; [| exact IH2].
    f_equal. rewrite IH1, <- seq_shift, map_map.
    apply map_ext. intros k. rewrite Nat2Z.inj_succ.
    replace (RawStoreIter.i it + 1 + 1 + Z.of_nat k)
      with (RawStoreIter.i it + 1 + Z.succ (Z.of_nat k)) by lia.
    reflexivity.
  - pose proof (get_position (RawStoreIter.i it + 1) w) as Hp.
    pose proof (get_same (RawStoreIter.i it + 1) w0 w Hs) as Hg.
    destruct (get (RawStoreIter.i it + 1) w) as [r w1]. simpl in *.
    assert (Hs1 : same_but_position w0 w1)
      by (eapply same_but_position_trans; eauto).
    specialize (IH {| RawStoreIter.i := RawStoreIter.i it + 1 |} w0 w1 Hs1).
    destruct (RawStoreIter.nexts n _ w1) as [[rs it2] w2]. simpl in *.
    destruct IH as [IH1 IH2]. split; [| exact IH2].
    rewrite Hg. f_equal. rewrite IH1, <- seq_shift, map_map.
    apply map_ext. intros k. rewrite Nat2Z.inj_succ.
    replace (RawStoreIter.i it + 1 + 1 + Z.of_nat k)
      with (RawStoreIter.i it + 1 + Z.succ (Z.of_nat k)) by lia.
    reflexivity.
Qed.


(** ** Conversion failures in [putRow] *)

Lemma py_index_app {A} (pre : list A) (x : A) (post : list A) :
  py_index (pre ++ x :: post) (Z.of_nat (List.length pre)) = Ok x.
Proof.
  unfold py_index. rewrite length_app. simpl.
  destruct (Z.ltb_spec (Z.of_nat (List.length pre)) 0); [lia |].
  destruct (Z.ltb_spec (Z.of_nat (List.length pre)) 0); [lia |].
  destruct (Z.leb_spec (Z.of_nat (List.length pre + S (List.length post)))
              (Z.of_nat (List.length pre))); [lia |].
  simpl. rewrite Nat2Z.id, nth_error_app2 by lia.
  rewrite Nat.sub_diag. reflexivity.
Qed.

Lemma cannot_convert_spec names :
  forall pre ds r,
    List.length names = List.length ds ->
    List.length r = List.length ds ->
    cannot_convert (pre ++ names) (Z.of_nat (List.length pre)) (combine ds r)
    = Ok (failing_columns names ds r).
Proof.
  induction names as [|name names IH]; intros pre ds r Hn Hr;
    destruct ds as [|d ds]; try discriminate; destruct r as [|v r];
    try discriminate; simpl; [reflexivity |].
  assert (E : cannot_convert (pre ++ name :: names)
                (Z.of_nat (List.length pre) + 1) (combine ds r)
              = Ok (failing_columns names ds r)).
  { replace (pre ++ name :: names) with ((pre ++ [name]) ++ names)
      by (rewrite <- app_assoc; reflexivity).
    replace (Z.of_nat (List.length pre) + 1)
      with (Z.of_nat (List.length (pre ++ [name])))
      by (rewrite length_app; simpl; lia).
    apply IH; simpl in *; lia. }
  destruct (raised d v).
  - rewrite py_index_app. simpl. rewrite E. reflexivity.
  - exact E.
Qed.

(** C7, as the code has it.  When the conversion of some value of a row
    raises, [putRow] fails and writes nothing.  If the first conversion
    that fails raises [TypeError], the error is a [TypeError] whose message
    is the original message followed by one line for each column whose
    value cannot be converted, whatever its conversion raises.  If the
    first failure is another exception ([ValueError] for a text that is no
    number, [OverflowError]), that exception leaves [putRow] as it is. *)
Theorem putRow_conversion_failure (w : world) (idx : Z) (r : row) (e : pyexn) :
  idx < N (self w) ->
  List.length r = List.length (dtypes (self w)) ->
  List.length (colnames (self w)) = List.length (dtypes (self w)) ->
  first_raised (combine (dtypes (self w)) r) = Some e ->
  putRow idx r w =
    (Raise match e with
           | TypeError message =>
               TypeError (message
                          ++ failing_columns (colnames (self w))
                               (dtypes (self w)) r)
           | _ => e
           end, w).
Proof.
  intros Hidx Hr Hn He.
  unfold putRow, bind, me, raise, lift. simpl.
  destruct (Z.leb_spec (N (self w)) idx); [lia |].
  rewrite Hr, Nat.eqb_refl. simpl. rewrite He.
  destruct e; try reflexivity.
  pose proof (cannot_convert_spec (colnames (self w)) [] (dtypes (self w)) r
                Hn Hr) as E.
  simpl in E. rewrite E. reflexivity.
Qed.

Lemma putRow_conversion_failure_witness :
  exists w,
    fst (MakeStore [("a"%string, np_int32); ("b"%string, np_int32)]
           (Some 3) true no_directory) = Ok w
    /\ putRow 0 [VNone; VStr "abc"] w =
       (Raise (TypeError [OriginalMessage;
                          CannotConvert "a" VNone d_int;
                          CannotConvert "b" (VStr "abc") d_int]), w).
Proof.
  eexists. split; [vm_compute; reflexivity |].
  match goal with
  | |- putRow _ _ ?w = _ =>
      exact (putRow_conversion_failure w 0 [VNone; VStr "abc"]
               (TypeError [OriginalMessage])
               eq_refl eq_refl eq_refl eq_refl)
  end.
Defined.

(** C7, as the claim states it, fails: the text ["abc"] cannot be
    converted by [int], yet [putRow] raises the bare [ValueError] of that
    conversion, which is no [TypeError] and lists no column. *)
Lemma putRow_ValueError_lists_no_column :
  exists w,
    fst (MakeStore scenario_columns (Some 3) true no_directory) = Ok w
    /\ List.length [VStr "abc"; VStr "hi"] = List.length (dtypes (self w))
    /\ raised d_int (VStr "abc") = Some ValueError
    /\ putRow 0 [VStr "abc"; VStr "hi"] w = (Raise ValueError, w).
Proof.
  eexists. split; [vm_compute; reflexivity |].
  repeat split; vm_compute; reflexivity.
Qed.

(** ** Read-once mode *)

(** C8 fails on the code.  [_openfile] in mode [READONCE] stores the plain
    file in [self.f] and then overwrites it with [self._f], which is
    [None]: the handle has no backing resource and [get] raises
    [AttributeError] at every index. *)
Theorem READONCE_store_has_no_handle :
  exists w,
    __init__ Mode.READONCE scenario_directory = Ok w
    /\ N (self w) = 3
    /\ f (self w) = PyNone
    /\ fst (get 0 w) = Raise AttributeError
    /\ fst (get 1 w) = Raise AttributeError
    /\ fst (get 2 w) = Raise AttributeError.
Proof.
  eexists. split; [vm_compute; reflexivity |].
  repeat split; vm_compute; reflexivity.
Qed.

(** ** Indices out of range *)

(** C4 fails on the code for [putRow] at a negative index.  [get] tests
    [idx >= N or idx < 0]; [putRow] tests [idx >= N] only, so with index
    [-1] it goes on to [self.f.seek] with a negative offset, and what
    leaves [putRow] is the [ValueError] of the memory map.  No byte is
    written. *)
Theorem putRow_negative_index_raises_ValueError :
  exists w w',
    fst (MakeStore scenario_columns (Some 3) true no_directory) = Ok w
    /\ fst (get (-1) w) = Raise IndexError
    /\ fst (get 3 w) = Raise IndexError
    /\ fst (putRow 3 [VInt 7; VStr "hi"] w) = Raise IndexError
    /\ putRow (-1) [VInt 7; VStr "hi"] w = (Raise ValueError, w')
    /\ fs w' = fs w.
Proof.
  do 2 eexists. split; [vm_compute; reflexivity |].
  repeat split; vm_compute; reflexivity.
Qed.

(** ** Column scans *)

(** C3 fails on the code.  The store file ends with the byte that
    [MakeStore] wrote after the last row.  On a store of two rows with one
    [uint8] column, the scan reads that byte as a third element: the
    sequence has [N + 1] elements, and each element is the tuple that
    [struct.unpack] returns, not the field itself. *)
Theorem getCol_yields_the_end_byte :
  exists w0 w1 w2 w3,
    fst (MakeStore [("a"%string, np_uint8)] (Some 2) true no_directory) = Ok w0
    /\ putRow 0 [VInt 5] w0 = (Ok tt, w1)
    /\ putRow 1 [VInt 6] w1 = (Ok tt, w2)
    /\ N (self w2) = 2
    /\ fst (get 0 w2) = Ok [VInt 5]
    /\ fst (get 1 w2) = Ok [VInt 6]
    /\ getCol 10 "a" w2
       = (([[VInt 5]; [VInt 6]; [VInt 0]], Exhausted), w3).
Proof.
  do 4 eexists. split; [vm_compute; reflexivity |].
  split; [vm_compute; reflexivity |].
  split; [vm_compute; reflexivity |].
  repeat split; vm_compute; reflexivity.
Qed.

(** ** Types without an encoding *)

(** C6 fails on the code.  An object that has a [type] attribute other
    than [numpy.string_] enters the [elif hasattr(dtype, 'type')] branch,
    which has no [else]: no [ValueError] is raised.  As a later column it
    takes the format of the column before it and adds no entry to
    [dtypes], and [MakeStore] ends in the [struct.error] of the row-size
    computation; as the first column it ends in [UnboundLocalError].  An
    object without [type] attribute gets the [ValueError].  In each case
    the directory has been created and holds no file. *)
Theorem MakeStore_unmapped_dtype_misses_ValueError :
  let created := {| directory_exists := true; rawformat := None;
                    store_file := None |} in
  MakeStore_loop no_locals
    [("a"%string, np_int32); ("b"%string, np_dtype false 2)]
  = Ok {| l_type := Some "i"%string; l_types := ["i"; "i"]%string;
          l_names := ["a"; "b"]%string; l_dtypes := [d_int] |}
  /\ MakeStore [("a"%string, np_int32); ("b"%string, np_dtype false 2)]
       (Some 3) true no_directory = (Raise StructError, created)
  /\ MakeStore [("b"%string, np_dtype false 2)] (Some 3) true no_directory
     = (Raise UnboundLocalError, created)
  /\ MakeStore [("a"%string, np_int32); ("b"%string, np_other)]
       (Some 3) true no_directory = (Raise ValueError, created).
Proof. repeat split; vm_compute; reflexivity. Qed.

(** ** Formats *)

Lemma digit_of_char_of_digit d :
  0 <= d < 10 -> digit_of_char (char_of_digit d) = Some (Z.to_nat d).
Proof.
  intros H. unfold digit_of_char, char_of_digit.
  rewrite nat_ascii_embedding by lia.
  destruct (Nat.leb_spec 48 (48 + Z.to_nat d)); [| lia].
  destruct (Nat.leb_spec (48 + Z.to_nat d) 57); [| lia].
  simpl. f_equal. lia.
Qed.

Lemma parse_format_digits ds :
  all_digits ds ->
  forall rest count,
    parse_format (ds ++ rest) count = parse_format rest (feed ds count).
Proof.
  induction 1 as [|ch ds Hch _ IH]; intros rest count; [reflexivity |].
  simpl. unfold feed. simpl.
  destruct (digit_of_char ch) as [d|]; [| congruence].
  apply IH.
Qed.

Lemma log2_div10 z : 10 <= z -> Z.log2 (z / 10) < Z.log2 z.
Proof.
  intros H.
  assert (z / 10 <= z / 2).
  { apply Z.div_le_compat_l; lia. }
  assert (Z.log2 (z / 2) = Z.log2 z - 1).
  { rewrite <- Z.div2_div, Z.div2_spec. rewrite Z.log2_shiftr by lia.
    assert (1 <= Z.log2 z) by (apply (Z.log2_le_mono 2 z); lia). lia. }
  pose proof (Z.log2_le_mono (z / 10) (z / 2)). lia.
Qed.

Lemma feed_digit d acc count :
  0 <= d < 10 ->
  feed (char_of_digit d :: acc) count
  = feed acc (Some (10 * match count with Some n => n | None => O end
                    + Z.to_nat d)%nat).
Proof.
  intros H. unfold feed. cbn [fold_left].
  rewrite digit_of_char_of_digit by exact H. reflexivity.
Qed.

Lemma digits_of_spec fuel :
  forall z acc,
    0 <= z -> Z.log2 z < Z.of_nat fuel -> all_digits acc ->
    all_digits (digits_of fuel z acc)
    /\ feed (digits_of fuel z acc) None = feed acc (Some (Z.to_nat z)).
Proof.
  induction fuel as [|fuel IH]; intros z acc Hz Hl Hacc.
  - pose proof (Z.log2_nonneg z). lia.
  - cbn [digits_of].
    assert (Hd : 0 <= z mod 10 < 10) by (apply Z.mod_pos_bound; lia).
    assert (Hacc' : all_digits (char_of_digit (z mod 10) :: acc)).
    { constructor; [| exact Hacc].
      rewrite digit_of_char_of_digit by exact Hd. discriminate. }
    destruct (Z.ltb_spec z 10).
    + split; [exact Hacc' |].
      rewrite feed_digit by exact Hd.
      rewrite Z.mod_small by lia. rewrite Nat.mul_0_r. reflexivity.
    + pose proof (log2_div10 z ltac:(lia)).
      assert (0 <= z / 10) by (apply Z.div_pos; lia).
      destruct (IH (z / 10) (char_of_digit (z mod 10) :: acc)) as [A B];
        [lia | lia | exact Hacc' |].
      split; [exact A |]. rewrite B.
      rewrite feed_digit by exact Hd.
      do 2 f_equal.
      pose proof (Z.div_mod z 10 ltac:(lia)). lia.
Qed.

Lemma decimal_spec (n : nat) :
  all_digits (decimal (Z.of_nat n))
  /\ feed (decimal (Z.of_nat n)) None = Some n.
Proof.
  unfold decimal.
  destruct (digits_of_spec (S (Z.to_nat (Z.log2 (Z.of_nat n)))) (Z.of_nat n) [])
    as [A B].
  - lia.
  - pose proof (Z.log2_nonneg (Z.of_nat n)). lia.
  - constructor.
  - split; [exact A |]. rewrite B. simpl. rewrite Nat2Z.id. reflexivity.
Qed.

Lemma list_ascii_of_string_app s1 s2 :
  list_ascii_of_string (s1 ++ s2)
  = list_ascii_of_string s1 ++ list_ascii_of_string s2.
Proof. induction s1 as [|c s1 IH]; simpl; [| rewrite IH]; reflexivity. Qed.

Lemma list_ascii_of_concat ts :
  list_ascii_of_string (String.concat "" ts)
  = List.concat (map list_ascii_of_string ts).
Proof.
  induction ts as [|t ts IH]; [reflexivity |].
  simpl. destruct ts as [|t' ts].
  - simpl. rewrite app_nil_r. reflexivity.
  - rewrite !list_ascii_of_string_app, IH. reflexivity.
Qed.

(** The format of one supported column parses as one item, one slot. *)
Lemma parse_format_type ty rest :
  supported ty = true ->
  parse_format (list_ascii_of_string (type_of ty) ++ rest) None
  = rbind (parse_format rest None) (fun items =>
    Ok ((code_of ty, match ty with np_dtype _ size => size | _ => 1%nat end)
        :: items)).
Proof.
  destruct ty as [| | | | | | | | |[] size|]; intros H; try discriminate;
    try reflexivity.
  simpl type_of. unfold string_format.
  rewrite list_ascii_of_string_of_list_ascii, <- app_assoc.
  destruct (decimal_spec size) as [A B].
  rewrite parse_format_digits by exact A. rewrite B. reflexivity.
Qed.

Lemma slots_of_item_type ty :
  supported ty = true ->
  slots_of_item (code_of ty, match ty with np_dtype _ size => size | _ => 1%nat end)
  = [slot_of ty].
Proof.
  destruct ty as [| | | | | | | | |[] size|]; intros H; try discriminate;
    reflexivity.
Qed.

Lemma parse_format_types tys :
  Forall (fun ty => supported ty = true) tys ->
  parse_format (List.concat (map list_ascii_of_string (map type_of tys))) None
  = Ok (map (fun ty => (code_of ty,
                        match ty with np_dtype _ size => size | _ => 1%nat end))
          tys).
Proof.
  induction 1 as [|ty tys Hty _ IH]; [reflexivity |].
  simpl. rewrite parse_format_type by exact Hty. rewrite IH. reflexivity.
Qed.

Lemma prepare_types tys :
  Forall (fun ty => supported ty = true) tys ->
  prepare (String.concat "" (map type_of tys)) = Ok (map slot_of tys).
Proof.
  intros H. unfold prepare.
  rewrite list_ascii_of_concat, parse_format_types by exact H.
  cbn [rbind]. f_equal.
  induction H as [|ty tys Hty _ IH]; [reflexivity |].
  cbn [map flat_map]. rewrite IH, slots_of_item_type by exact Hty.
  reflexivity.
Qed.

(** ** The locals of [MakeStore] *)

Lemma MakeStore_step_supported l name ty :
  supported ty = true ->
  MakeStore_step l (name, ty)
  = Ok {| l_type := Some (type_of ty);
          l_types := l_types l ++ [type_of ty];
          l_names := l_names l ++ [name];
          l_dtypes := l_dtypes l ++ [dtype_of ty] |}.
Proof.
  destruct ty as [| | | | | | | | |[] size|]; intros H; try discriminate;
    reflexivity.
Qed.

Lemma MakeStore_step_unsupported l name ty l' :
  supported ty = false ->
  MakeStore_step l (name, ty) = Ok l' ->
  exists t, l_type l = Some t
            /\ l' = {| l_type := Some t; l_types := l_types l ++ [t];
                       l_names := l_names l ++ [name];
                       l_dtypes := l_dtypes l |}.
Proof.
  destruct ty as [| | | | | | | | |[] size|]; intros H; try discriminate;
    unfold MakeStore_step; cbn [rbind].
  destruct (l_type l) as [t|]; intros E; inversion E; subst. eauto.
Qed.

Lemma MakeStore_loop_supported cols :
  Forall (fun ty => supported ty = true) (map snd cols) ->
  forall l, exists t,
    MakeStore_loop l cols
    = Ok {| l_type := t;
            l_types := l_types l ++ map type_of (map snd cols);
            l_names := l_names l ++ map fst cols;
            l_dtypes := l_dtypes l ++ map dtype_of (map snd cols) |}.
Proof.
  induction cols as [|[name ty] cols IH]; intros H l.
  - exists (l_type l). cbn. rewrite !app_nil_r. destruct l; reflexivity.
  - inversion H as [|? ? Hty Hcols]; subst.
    cbn [MakeStore_loop]. rewrite MakeStore_step_supported by exact Hty.
    cbn [rbind].
    destruct (IH Hcols {| l_type := Some (type_of ty);
                          l_types := l_types l ++ [type_of ty];
                          l_names := l_names l ++ [name];
                          l_dtypes := l_dtypes l ++ [dtype_of ty] |})
      as [t E].
    exists t. rewrite E. cbn. rewrite <- !app_assoc. reflexivity.
Qed.

Lemma MakeStore_loop_shape cols :
  forall l l',
    (forall t, l_type l = Some t -> is_type t) ->
    Forall is_type (l_types l) ->
    MakeStore_loop l cols = Ok l' ->
    Forall is_type (l_types l')
    /\ List.length (l_types l')
       = (List.length (l_types l) + List.length cols)%nat
    /\ List.length (l_dtypes l')
       = (List.length (l_dtypes l)
          + List.length (filter supported (map snd cols)))%nat.
Proof.
  induction cols as [|[name ty] cols IH]; intros l l' Ht Hts E.
  - cbn in E. inversion E; subst. cbn. auto with arith.
  - cbn [MakeStore_loop] in E.
    destruct (MakeStore_step l (name, ty)) as [l1|] eqn:E1; [| discriminate].
    cbn [rbind] in E. cbn [map snd filter List.length].
    destruct (supported ty) eqn:Hty.
    + rewrite MakeStore_step_supported in E1 by exact Hty.
      inversion E1; subst l1; clear E1.
      apply IH in E; cbn.
      * destruct E as (A & B & C). split; [exact A |].
        rewrite B, C. cbn. rewrite !length_app. cbn. lia.
      * intros t Et. inversion Et. exists ty. auto.
      * apply Forall_app. split; [exact Hts |].
        constructor; [exists ty; auto | constructor].
    + destruct (MakeStore_step_unsupported _ _ _ _ Hty E1) as (t & Et & ->).
      apply IH in E; cbn.
      * destruct E as (A & B & C). split; [exact A |].
        rewrite B, C. cbn. rewrite !length_app. cbn. lia.
      * intros t' Et'. inversion Et'; subst. auto.
      * apply Forall_app. split; [exact Hts |].
        constructor; [auto | constructor].
Qed.

Lemma is_type_list ts :
  Forall is_type ts ->
  exists tys, ts = map type_of tys
              /\ Forall (fun ty => supported ty = true) tys.
Proof.
  induction 1 as [|t ts (ty & Hty & ->) _ (tys & -> & Htys)].
  - exists []. split; [reflexivity | constructor].
  - exists (ty :: tys). split; [reflexivity | constructor; assumption].
Qed.

Lemma count_args_slots tys :
  count_args (map slot_of tys) = List.length tys.
Proof.
  unfold count_args. induction tys as [|ty tys IH]; [reflexivity |].
  cbn. rewrite IH. reflexivity.
Qed.

Lemma filter_length_all {A} (p : A -> bool) l :
  List.length (filter p l) = List.length l -> Forall (fun a => p a = true) l.
Proof.
  induction l as [|a l IH]; intros H; [constructor |].
  cbn in H. pose proof (filter_length_le p l).
  destruct (p a) eqn:E; cbn in H; [| lia].
  constructor; [exact E | apply IH; lia].
Qed.

(** Only supported columns pass [MakeStore]'s loop and its computation of
    the row size. *)
Lemma derivation_supported cols l packed :
  MakeStore_loop no_locals cols = Ok l ->
  struct_pack (String.concat "" (l_types l)) (map call_zero (l_dtypes l))
  = Ok packed ->
  Forall (fun ty => supported ty = true) (map snd cols).
Proof.
  intros El Ep.
  destruct (MakeStore_loop_shape cols no_locals l) as (A & B & C);
    [discriminate | constructor | exact El |].
  destruct (is_type_list _ A) as (tys & Ets & Htys).
  unfold struct_pack in Ep. rewrite Ets, prepare_types in Ep by exact Htys.
  cbn [rbind] in Ep. rewrite count_args_slots, length_map in Ep.
  destruct (Nat.eqb_spec (List.length (l_dtypes l)) (List.length tys))
    as [E|]; [| discriminate].
  apply filter_length_all.
  assert (List.length tys = List.length (l_types l))
    by (rewrite Ets, length_map; reflexivity).
  cbn in B, C. rewrite length_map. lia.
Qed.

(** ** Packing *)

Lemma le_bytes_length n : forall z, List.length (le_bytes n z) = n.
Proof. induction n as [|n IH]; intros z; cbn; [| rewrite IH]; reflexivity. Qed.

Lemma pack_value_length k size v b :
  (k = code_bool -> size = 1%nat) ->
  pack_value k size v = Ok b -> List.length b = size.
Proof.
  intros Hk. unfold pack_value.
  destruct k;
    try (destruct (integer_argument v) as [z|]; cbn [rbind];
         [destruct (in_range _ z) |]; intros E; inversion E;
         apply le_bytes_length);
    try (destruct (float_argument v) as [z|]; cbn [rbind];
         intros E; inversion E; apply le_bytes_length).
  - intros E. inversion E. cbn. symmetry. auto.
  - destruct v; intros E; inversion E.
    rewrite length_app, repeat_length, length_firstn. lia.
Qed.

Lemma pack_slots_length sl :
  forall off args bs,
    Forall slot_ok sl ->
    pack_slots sl off args = Ok bs ->
    (off + List.length bs = end_offset sl off)%nat.
Proof.
  induction sl as [|s sl IH]; intros off args bs Hok E.
  - cbn in E. inversion E. cbn. lia.
  - inversion Hok as [|? ? Hs Hsl]; subst.
    cbn [pack_slots end_offset] in *.
    destruct (s_arg s).
    + destruct args as [|v args]; [discriminate |].
      destruct (pack_value (s_code s) (s_size s) v) as [b|] eqn:Eb;
        [| discriminate].
      cbn [rbind] in E.
      destruct (pack_slots sl _ args) as [bs'|] eqn:E'; [| discriminate].
      cbn [rbind] in E. inversion E; subst.
      apply IH in E'; [| exact Hsl].
      apply pack_value_length in Eb; [| exact Hs].
      rewrite !length_app, repeat_length. lia.
    + destruct (pack_slots sl _ args) as [bs'|] eqn:E'; [| discriminate].
      cbn [rbind] in E. inversion E; subst.
      apply IH in E'; [| exact Hsl].
      rewrite !length_app, !repeat_length. lia.
Qed.

Lemma slot_of_ok tys : Forall slot_ok (map slot_of tys).
Proof.
  induction tys as [|ty tys IH]; constructor; [| exact IH].
  unfold slot_ok. destruct ty; cbn; congruence.
Qed.

Lemma pack_slots_zero tys :
  Forall (fun ty => supported ty = true) tys ->
  forall off, exists bs,
    pack_slots (map slot_of tys) off (map call_zero (map dtype_of tys)) = Ok bs.
Proof.
  induction 1 as [|ty tys Hty _ IH]; intros off; [exists []; reflexivity |].
  cbn [map pack_slots]. cbn [slot_of s_arg s_code s_size].
  destruct (IH (off + slot_pad off (slot_of ty) + s_size (slot_of ty))%nat)
    as [bs E].
  cbn [slot_of s_size] in E. rewrite E.
  destruct ty as [| | | | | | | | |[] size|]; try discriminate;
    eexists; reflexivity.
Qed.

Lemma column_size_slot ty :
  supported ty = true -> Z.of_nat (s_size (slot_of ty)) = column_size ty.
Proof.
  destruct ty as [| | | | | | | | |[] size|]; intros H; try discriminate;
    reflexivity.
Qed.

Lemma end_offset_sum cols :
  Forall (fun ty => supported ty = true) (map snd cols) ->
  forall off,
    Z.of_nat (end_offset (map slot_of (map snd cols)) off)
    = Z.of_nat off + sum_of_sizes cols
      + Z.of_nat (alignment_padding (map snd cols) off).
Proof.
  induction cols as [|[name ty] cols IH]; intros H off; [cbn; lia |].
  inversion H as [|? ? Hty Hcols]; subst.
  unfold sum_of_sizes in *.
  cbn [map end_offset alignment_padding fold_right snd].
  rewrite (IH Hcols). rewrite <- (column_size_slot ty Hty). lia.
Qed.

(** What a derived descriptor is made of. *)
Lemma derived_spec cols s :
  derived cols s ->
  Forall (fun ty => supported ty = true) (map snd cols)
  /\ pack_format s = String.concat "" (map type_of (map snd cols))
  /\ prepare (pack_format s) = Ok (map slot_of (map snd cols))
  /\ dtypes s = map dtype_of (map snd cols)
  /\ colnames s = map fst cols
  /\ rowbytes s = Z.of_nat (calcsize (map slot_of (map snd cols))).
Proof.
  intros (l & packed & El & Ep & Hf & Hn & Hd & Hr).
  assert (Hs := derivation_supported _ _ _ El Ep).
  destruct (MakeStore_loop_supported cols Hs no_locals) as [t E].
  rewrite E in El. inversion El; subst l; clear El. cbn in *.
  split; [exact Hs |].
  split; [exact Hf |].
  split; [rewrite Hf; apply prepare_types; exact Hs |].
  split; [exact Hd |].
  split; [exact Hn |].
  unfold struct_pack in Ep. rewrite prepare_types in Ep by exact Hs.
  cbn [rbind] in Ep.
  destruct (_ =? _)%nat; [| discriminate].
  apply pack_slots_length in Ep; [| apply slot_of_ok].
  rewrite Hr. unfold calcsize. f_equal. lia.
Qed.

(** ** Writing into a file *)

Lemma file_write_length d pos bs :
  List.length (file_write d pos bs)
  = Nat.max (List.length d) (pos + List.length bs).
Proof.
  unfold file_write.
  rewrite !length_app, length_firstn, length_skipn, length_app, repeat_length.
  lia.
Qed.

Lemma file_write_new pos bs :
  file_write [] pos bs = repeat x00 pos ++ bs.
Proof.
  unfold file_write. cbn [List.length app].
  rewrite Nat.sub_0_r, skipn_nil, app_nil_r.
  rewrite firstn_all2 by (rewrite repeat_length; lia). reflexivity.
Qed.

Lemma file_write_prefix d pos bs k :
  (k <= pos)%nat -> (k <= List.length d)%nat ->
  firstn k (file_write d pos bs) = firstn k d.
Proof.
  intros Hk Hd. unfold file_write.
  rewrite firstn_app.
  rewrite length_firstn, length_app, repeat_length.
  replace (k - Nat.min pos (List.length d + (pos - List.length d)))%nat
    with O by lia.
  cbn [firstn]. rewrite app_nil_r.
  rewrite firstn_firstn. replace (Nat.min k pos) with k by lia.
  rewrite firstn_app. replace (k - List.length d)%nat with O by lia.
  cbn [firstn]. rewrite app_nil_r. reflexivity.
Qed.

Lemma file_write_read d pos bs :
  firstn (List.length bs) (skipn pos (file_write d pos bs)) = bs.
Proof.
  unfold file_write.
  rewrite skipn_app.
  rewrite length_firstn, length_app, repeat_length.
  replace (Nat.min pos (List.length d + (pos - List.length d))) with pos by lia.
  rewrite Nat.sub_diag. cbn [skipn].
  rewrite skipn_all2 by (rewrite length_firstn, length_app, repeat_length; lia).
  cbn [app]. rewrite firstn_app, Nat.sub_diag. cbn [firstn].
  rewrite app_nil_r. apply firstn_all.
Qed.

(** ** Opening and growing *)

Lemma _openfile_inv w w' :
  _openfile w = (Ok tt, w') ->
  fs w' = fs w
  /\ rowbytes (self w') = rowbytes (self w)
  /\ pack_format (self w') = pack_format (self w)
  /\ colnames (self w') = colnames (self w)
  /\ dtypes (self w') = dtypes (self w)
  /\ N (self w') = N (self w)
  /\ mode (self w') = mode (self w)
  /\ mapped (f (self w')).
Proof.
  unfold _openfile, bind, me, update, ret, open, mmap, raise. cbn.
  destruct (mode (self w)) eqn:Em; cbn;
    destruct (store_file (fs w)) eqn:Ef; cbn; try discriminate;
    unfold size, data; cbn; rewrite ?Ef; cbn.
  - destruct (Z.of_nat (List.length l) =? 0); cbn; intros E; inversion E; cbn;
      auto 10.
  - destruct (Z.of_nat (List.length l) =? 0); cbn; intros E; inversion E; cbn;
      auto 10.
  - rewrite Ef. cbn.
    destruct (Z.of_nat (List.length l) =? 0); cbn; intros E; inversion E; cbn;
      auto 10.
  - destruct (_f (self w)) as [|m|o]; cbn.
    + intros E; inversion E; cbn; auto 10.
    + discriminate.
    + destruct (h_closed o); discriminate.
Qed.

Lemma _openfile_run w d :
  store_file (fs w) = Some d -> d <> [] ->
  mode (self w) = Mode.APPEND \/ mode (self w) = Mode.WRITE ->
  _openfile w
  = (Ok tt,
     with_self
       (set_f (MmapObj {| m_closed := false; m_pos := 0; m_write := true |})
          (set__f (FileObj {| h_closed := false; h_pos := 0; h_write := true |})
             (self w))) w).
Proof.
  intros Ef Hd Hm.
  assert (Hs : (Z.of_nat (List.length d) =? 0) = false).
  { destruct d; [congruence | reflexivity]. }
  unfold _openfile, bind, me, update, ret, open, mmap, raise. cbn.
  destruct Hm as [Em|Em]; rewrite Em; cbn; rewrite Ef; cbn;
    unfold size, data; cbn; rewrite ?Ef; cbn; rewrite ?Ef; cbn;
    rewrite Hs; reflexivity.
Qed.

Lemma close_closed_again w h h' :
  close_handle (f (self w)) = Ok h ->
  close_handle (_f (self w)) = Ok h' ->
  close (with_self (set__f h' (set_f h (self w))) w)
  = (Ok tt, with_self (set__f h' (set_f h (self w))) w).
Proof.
  intros Eh Eh'. unfold close, bind, me, lift, update. cbn.
  destruct (f (self w)) as [|m|o]; [discriminate | |];
    destruct (_f (self w)) as [|m'|o']; try discriminate;
    inversion Eh; inversion Eh'; subst; cbn; destruct w as [d s];
    destruct s; reflexivity.
Qed.

Lemma bind_ok {A B} (c : M A) (k : A -> M B) w a w1 :
  c w = (Ok a, w1) -> bind c k w = k a w1.
Proof. intros E. unfold bind. rewrite E. reflexivity. Qed.

Lemma bind_inv {A B} (c : M A) (k : A -> M B) w b w' :
  bind c k w = (Ok b, w') ->
  exists a w1, c w = (Ok a, w1) /\ k a w1 = (Ok b, w').
Proof.
  unfold bind. destruct (c w) as [[a|e] w1]; [eauto | discriminate].
Qed.

Lemma close_inv w w' :
  close w = (Ok tt, w') -> f (self w) <> PyNone /\ _f (self w) <> PyNone.
Proof.
  unfold close, bind, me, lift, update. cbn.
  destruct (f (self w)) as [|m|o]; [discriminate | |]; cbn;
    (destruct (_f (self w)) as [|m'|o']; [discriminate | |]); cbn;
    intros _; split; discriminate.
Qed.

(** The run of [appendBlankRows] that succeeds. *)
Lemma appendBlankRows_run w m d md :
  mode (self w) = Mode.APPEND ->
  f (self w) <> PyNone -> _f (self w) <> PyNone ->
  store_file (fs w) = Some d ->
  rawformat (fs w) = Some md ->
  1 <= m ->
  0 <= rowbytes (self w) * (N (self w) + m) ->
  appendBlankRows m w
  = (Ok tt,
     {| fs := {| directory_exists := directory_exists (fs w);
                 rawformat :=
                   Some {| md_rowbytes := md_rowbytes md;
                           md_pack_format := md_pack_format md;
                           md_colnames := md_colnames md;
                           md_dtypes := md_dtypes md;
                           md_N := N (self w) + m |};
                 store_file :=
                   Some (file_write d
                           (Z.to_nat (rowbytes (self w) * (N (self w) + m)))
                           [x00]) |};
        self := {| rowbytes := rowbytes (self w);
                   pack_format := pack_format (self w);
                   colnames := colnames (self w);
                   dtypes := dtypes (self w);
                   N := N (self w) + m;
                   mode := Mode.APPEND;
                   f := MmapObj {| m_closed := false; m_pos := 0;
                                   m_write := true |};
                   _f := FileObj {| h_closed := false; h_pos := 0;
                                    h_write := true |} |} |}).
Proof.
  intros Em Hf H_f Ef Er Hm Ht.
  destruct (close_spec w Hf H_f) as (h & h' & Hclose & Eh & Eh').
  pose proof (close_closed_again w h h' Eh Eh') as Hclose2.
  unfold appendBlankRows.
  rewrite (bind_ok me _ w (self w) w eq_refl), Em.
  rewrite (bind_ok _ _ _ _ _ Hclose).
  erewrite (bind_ok (open true)) by (unfold open; cbn; rewrite Ef; reflexivity).
  destruct (Z.ltb_spec m 1); [lia |].
  rewrite (bind_ok _ _ _ _ _ Hclose2).
  erewrite (bind_ok me) by reflexivity.
  cbn [self with_self set__f set_f rowbytes N].
  destruct (Z.ltb_spec (rowbytes (self w) * (N (self w) + m)) 0); [lia |].
  erewrite bind_ok by reflexivity.
  erewrite (bind_ok (update _)) by reflexivity.
  erewrite (bind_ok me) by reflexivity.
  erewrite bind_ok by (cbn; rewrite Er; reflexivity).
  erewrite bind_ok by reflexivity.
  erewrite _openfile_run; cbn.
  - unfold data. cbn. rewrite Ef.
    unfold with_self, with_rawformat, with_store_file, set_f, set__f, set_N.
    cbn. rewrite Em. reflexivity.
  - reflexivity.
  - unfold data. cbn. rewrite Ef. intros E.
    pose proof (file_write_length d
                  (Z.to_nat (rowbytes (self w) * (N (self w) + m))) [x00]) as L.
    rewrite E in L. cbn in L. lia.
  - left. exact Em.
Qed.

(** Whenever [appendBlankRows] succeeds, it ran as above. *)
Lemma appendBlankRows_inv w m w' :
  appendBlankRows m w = (Ok tt, w') ->
  exists d md,
    mode (self w) = Mode.APPEND
    /\ f (self w) <> PyNone /\ _f (self w) <> PyNone
    /\ store_file (fs w) = Some d
    /\ rawformat (fs w) = Some md
    /\ 1 <= m
    /\ 0 <= rowbytes (self w) * (N (self w) + m).
Proof.
  unfold appendBlankRows. intros H.
  rewrite (bind_ok me _ w (self w) w eq_refl) in H.
  destruct (mode (self w)) eqn:Em; try discriminate.
  apply bind_inv in H as ([] & w1 & Hc & H).
  destruct (close_inv _ _ Hc) as [Hf H_f].
  destruct (close_spec w Hf H_f) as (h & h' & Hclose & Eh & Eh').
  rewrite Hclose in Hc. inversion Hc; subst w1; clear Hc.
  apply bind_inv in H as (o & w2 & Ho & H).
  unfold open in Ho. cbn in Ho.
  destruct (store_file (fs w)) as [d|] eqn:Ed; [| discriminate].
  inversion Ho; subst; clear Ho.
  destruct (Z.ltb_spec m 1); [discriminate |].
  rewrite (bind_ok _ _ _ _ _ (close_closed_again w h h' Eh Eh')) in H.
  erewrite (bind_ok me) in H by reflexivity.
  cbn [self with_self set__f set_f rowbytes N] in H.
  destruct (Z.ltb_spec (rowbytes (self w) * (N (self w) + m)) 0);
    [discriminate |].
  erewrite bind_ok in H by reflexivity.
  erewrite (bind_ok (update _)) in H by reflexivity.
  erewrite (bind_ok me) in H by reflexivity.
  apply bind_inv in H as (md & w3 & Hmd & H).
  cbn in Hmd. destruct (rawformat (fs w)) as [md'|] eqn:Er; [| discriminate].
  exists d, md'. repeat split; try assumption; try reflexivity; lia.
Qed.

(** ** The runs of [get] and [putRow] on a memory map *)

Lemma data_with_self s w : data (with_self s w) = data w.
Proof. reflexivity. Qed.

Lemma f_seek_run w m offset :
  f (self w) = MmapObj m -> m_closed m = false ->
  0 <= offset <= size w ->
  f_seek offset w
  = (Ok tt,
     with_self (set_f (MmapObj {| m_closed := false; m_pos := offset;
                                  m_write := m_write m |}) (self w)) w).
Proof.
  intros Ef Ec Ho. unfold f_seek, mmap_at, file_at. rewrite Ef, Ec.
  destruct (Z.ltb_spec offset 0); [lia |].
  destruct (Z.ltb_spec (size w) offset); [lia |]. reflexivity.
Qed.

Lemma f_seek_inv w offset w1 :
  f_seek offset w = (Ok tt, w1) -> mapped (f (self w)) ->
  exists m, f (self w) = MmapObj m /\ m_closed m = false
            /\ 0 <= offset <= size w.
Proof.
  unfold f_seek, mmap_at, file_at. destruct (f (self w)) as [|m|o]; [discriminate | |];
    intros H Hm; [| contradiction].
  destruct (m_closed m) eqn:Ec; [discriminate |].
  destruct (Z.ltb_spec offset 0); [discriminate |].
  destruct (Z.ltb_spec (size w) offset); [discriminate |].
  exists m. repeat split; try reflexivity; try assumption; lia.
Qed.

(** What [get] returns on an open memory map. *)
Lemma get_run w m idx :
  f (self w) = MmapObj m -> m_closed m = false ->
  0 <= idx < N (self w) ->
  0 <= idx * rowbytes (self w) <= size w ->
  fst (get idx w)
  = rbind (struct_unpack (pack_format (self w))
             (read_at (data w) (idx * rowbytes (self w)) (rowbytes (self w))))
      (fun res =>
         Ok (if negb (contains_char "s" (pack_format (self w))) then res
             else map strip_field res)).
Proof.
  intros Ef Ec Hi Ho. unfold get.
  rewrite (bind_ok me _ w (self w) w eq_refl).
  destruct (Z.leb_spec (N (self w)) idx); [lia |].
  destruct (Z.ltb_spec idx 0); [lia |]. cbn [orb].
  erewrite bind_ok
    by (unfold try_except; rewrite (f_seek_run w m) by assumption; reflexivity).
  unfold bind, f_read, mmap_at, file_at, lift, ret. cbn.
  destruct (struct_unpack _ _); cbn; [| reflexivity].
  destruct (negb _); reflexivity.
Qed.

(** The run of [putRow] that succeeds. *)
Lemma putRow_run w m idx r bytes :
  f (self w) = MmapObj m -> m_closed m = false -> m_write m = true ->
  idx < N (self w) ->
  List.length r = List.length (dtypes (self w)) ->
  first_raised (combine (dtypes (self w)) r) = None ->
  rbind (rmap convert_string r) (struct_pack (pack_format (self w))) = Ok bytes ->
  0 <= idx * rowbytes (self w) ->
  idx * rowbytes (self w) + Z.of_nat (List.length bytes) <= size w ->
  putRow idx r w
  = (Ok tt,
     with_store_file
       (file_write (data w) (Z.to_nat (idx * rowbytes (self w))) bytes)
       (with_self
          (set_f (MmapObj {| m_closed := false;
                             m_pos := idx * rowbytes (self w)
                                      + Z.of_nat (List.length bytes);
                             m_write := true |}) (self w)) w)).
Proof.
  intros Ef Ec Ew Hi Hr Hc Hb Ho Hs. unfold putRow.
  rewrite (bind_ok me _ w (self w) w eq_refl).
  destruct (Z.leb_spec (N (self w)) idx); [lia |].
  rewrite Hr, Nat.eqb_refl. cbn [negb]. rewrite Hc.
  erewrite bind_ok by (apply (f_seek_run w m); [assumption .. | lia]).
  erewrite bind_ok by (unfold lift; rewrite Hb; reflexivity).
  unfold f_write, mmap_at, file_at. cbn. rewrite Ew. cbn.
  unfold size in *. rewrite !data_with_self.
  destruct (Z.ltb_spec (Z.of_nat (List.length (data w)))
              (idx * rowbytes (self w) + Z.of_nat (List.length bytes)));
    [lia |].
  reflexivity.
Qed.

(** Whenever [putRow] succeeds on a store that is not on a plain file, it
    ran as above. *)
Lemma putRow_inv w idx r w' :
  putRow idx r w = (Ok tt, w') -> mapped (f (self w)) ->
  exists m bytes,
    f (self w) = MmapObj m /\ m_closed m = false /\ m_write m = true
    /\ idx < N (self w)
    /\ List.length r = List.length (dtypes (self w))
    /\ first_raised (combine (dtypes (self w)) r) = None
    /\ rbind (rmap convert_string r) (struct_pack (pack_format (self w)))
       = Ok bytes
    /\ 0 <= idx * rowbytes (self w)
    /\ idx * rowbytes (self w) + Z.of_nat (List.length bytes) <= size w.
Proof.
  unfold putRow. intros H Hm.
  rewrite (bind_ok me _ w (self w) w eq_refl) in H.
  destruct (Z.leb_spec (N (self w)) idx); [discriminate |].
  destruct (Nat.eqb_spec (List.length r) (List.length (dtypes (self w))));
    [| discriminate].
  cbn [negb] in H.
  destruct (first_raised _) as [ex|] eqn:Hc.
  { destruct ex; try discriminate.
    unfold bind, lift, raise in H. destruct (cannot_convert _ _ _);
      discriminate. }
  apply bind_inv in H as ([] & w1 & Hs & H).
  destruct (f_seek_inv _ _ _ Hs Hm) as (m & Ef & Ec & Ho).
  rewrite (f_seek_run w m) in Hs by assumption.
  inversion Hs; subst w1; clear Hs.
  apply bind_inv in H as (bytes & w2 & Hb & H).
  unfold lift in Hb. inversion Hb; subst w2; clear Hb.
  exists m, bytes. unfold f_write, mmap_at, file_at in H. cbn in H.
  destruct (m_write m); [| discriminate]. cbn in H.
  unfold size in *. rewrite !data_with_self in H.
  destruct (Z.ltb_spec (Z.of_nat (List.length (data w)))
              (idx * rowbytes (self w) + Z.of_nat (List.length bytes)));
    [discriminate |].
  repeat split; try assumption; try reflexivity; try lia.
Qed.

(** ** The layout invariant *)

Lemma same_handle_mapped h h' : same_handle h h' -> mapped h -> mapped h'.
Proof. destruct h, h'; simpl; tauto. Qed.

Lemma consistent_position w w' :
  same_but_position w w' -> consistent w -> consistent w'.
Proof.
  intros (A & B & C & D & E & F & G & H & I)
         (md & d & R & S & X & HN & HR & H0 & HL & HM).
  exists md, d. rewrite <- A, <- B, <- F.
  repeat split; try assumption. eapply same_handle_mapped; eauto.
Qed.

Lemma get_consistent w idx : consistent w -> consistent (snd (get idx w)).
Proof. apply consistent_position, get_position. Qed.

Lemma putRow_consistent w idx r w' :
  consistent w -> putRow idx r w = (Ok tt, w') -> consistent w'.
Proof.
  intros (md & d & R & S & X & HN & HR & H0 & HL & HM) H.
  destruct (putRow_inv _ _ _ _ H HM)
    as (m & bytes & Ef & Ec & Ew & Hi & Hr & Hc & Hb & Ho & Hs).
  rewrite (putRow_run w m idx r bytes) in H by assumption.
  inversion H; subst w'; clear H.
  exists md, (file_write (data w) (Z.to_nat (idx * rowbytes (self w))) bytes).
  cbn. repeat split; try assumption.
  rewrite file_write_length. unfold size, data in *. rewrite S in *. lia.
Qed.

Lemma appendBlankRows_consistent w m w' :
  consistent w -> appendBlankRows m w = (Ok tt, w') -> consistent w'.
Proof.
  intros (md & d & R & S & X & HN & HR & H0 & HL & HM) H.
  destruct (appendBlankRows_inv _ _ _ H)
    as (d' & md' & Em & Hf & H_f & Ed & Er & Hm & Ht).
  rewrite (appendBlankRows_run w m d' md') in H by assumption.
  inversion H; subst w'; clear H.
  rewrite S in Ed. inversion Ed; subst d'. clear Ed.
  exists {| md_rowbytes := md_rowbytes md'; md_pack_format := md_pack_format md';
            md_colnames := md_colnames md'; md_dtypes := md_dtypes md';
            md_N := N (self w) + m |},
    (file_write d (Z.to_nat (rowbytes (self w) * (N (self w) + m))) [x00]).
  rewrite R in Er. inversion Er; subst md'. clear Er.
  cbn. repeat split; try assumption; try reflexivity.
  rewrite file_write_length. cbn [List.length]. nia.
Qed.

Lemma __init___consistent mode d w md bs :
  __init__ mode d = Ok w ->
  directory_exists d = true ->
  rawformat d = Some md -> store_file d = Some bs ->
  0 <= md_rowbytes md ->
  Z.of_nat (List.length bs) = md_N md * md_rowbytes md + 1 ->
  consistent w.
Proof.
  unfold __init__. intros H X R S H0 HL. rewrite X, R in H. cbn [negb] in H.
  destruct (_openfile _) as [[[]|e] w1] eqn:E; inversion H; subst w1.
  apply _openfile_inv in E. cbn in E.
  destruct E as (A & B & C & D & E & F & G & I).
  exists md, bs. rewrite A, B, F. repeat split; assumption.
Qed.

Lemma reachable_consistent w0 w :
  consistent w0 -> reachable w0 w -> consistent w.
Proof.
  intros H0. induction 1 as [|w mode w' _ IH Ho|w idx r w' _ IH Hg
                              |w idx r w' _ IH Hp|w m w' _ IH Ha].
  - exact H0.
  - destruct IH as (md & d & R & S & X & HN & HR & Hr & HL & HM).
    eapply __init___consistent; eauto; rewrite ?HN, ?HR; assumption.
  - pose proof (get_consistent w idx IH) as Hc. rewrite Hg in Hc. exact Hc.
  - eapply putRow_consistent; eauto.
  - eapply appendBlankRows_consistent; eauto.
Qed.

(** What a successful [MakeStore] returns. *)
Lemma MakeStore_inv cols n check d w d' :
  MakeStore cols (Some n) check d = (Ok w, d') ->
  derived cols (self w) /\ consistent w /\ N (self w) = n
  /\ mode (self w) = Mode.WRITE
  /\ f (self w) = MmapObj {| m_closed := false; m_pos := 0; m_write := true |}
  /\ d' = fs w.
Proof.
  unfold MakeStore.
  destruct (directory_exists d && check); [discriminate |].
  destruct (Z.eq_dec n 0) as [->|Hn]; [discriminate |].
  assert (En : forall (A : Type) (a b : A),
             match n with 0 => a | _ => b end = b)
    by (destruct n; [contradiction | reflexivity | reflexivity]).
  rewrite En.
  destruct (MakeStore_loop no_locals cols) as [l|] eqn:El; [| discriminate].
  destruct (struct_pack _ _) as [packed|] eqn:Ep; [| discriminate].
  destruct (Z.ltb_spec (Z.of_nat (List.length packed) * n) 0); [discriminate |].
  unfold __init__. cbn [directory_exists rawformat negb].
  rewrite file_write_new.
  erewrite _openfile_run;
    [| reflexivity | destruct (Z.to_nat _); discriminate | right; reflexivity].
  intros E. inversion E; subst; clear E. cbn.
  split; [exists l, packed; cbn; auto 10 |].
  repeat split; try reflexivity.
  eexists. eexists. cbn. repeat split; try reflexivity; [lia |].
  rewrite length_app, repeat_length. cbn. lia.
Qed.

(** C2, as the code has it.  For every store that [MakeStore] creates,
    [rowbytes] is the size that [struct] gives to the packed row in native
    mode: the sum of the sizes of the columns plus the pad bytes that
    alignment puts before them.  The store file has
    [N * rowbytes + 1] bytes when it is created, and in every state that
    follows by opening the store again, by [get], by a [putRow] that
    succeeds and by an [appendBlankRows] that succeeds. *)
Theorem row_size_and_file_length cols n check d w d' :
  MakeStore cols (Some n) check d = (Ok w, d') ->
  rowbytes (self w)
  = sum_of_sizes cols + Z.of_nat (alignment_padding (map snd cols) 0)
  /\ forall w', reachable w w' -> file_length_ok w'.
Proof.
  intros H. destruct (MakeStore_inv _ _ _ _ _ _ H) as (Hd & Hc & _).
  split.
  - destruct (derived_spec _ _ Hd) as (Hs & _ & _ & _ & _ & Hr).
    rewrite Hr. unfold calcsize. rewrite end_offset_sum by exact Hs. lia.
  - intros w' Hw.
    destruct (reachable_consistent _ _ Hc Hw)
      as (md & bs & R & S & X & HN & HR & Hr & HL & HM).
    exists bs. split; assumption.
Qed.

Lemma row_size_and_file_length_witness :
  exists w w1 w2 w3,
    MakeStore scenario_columns (Some 3) true no_directory
    = (Ok w, scenario_directory)
    /\ putRow 0 [VInt 7; VStr "hi"] w = (Ok tt, w1)
    /\ __init__ Mode.APPEND (fs w1) = Ok w2
    /\ appendBlankRows 2 w2 = (Ok tt, w3)
    /\ rowbytes (self w) = 4 + 4 + 0
    /\ N (self w3) = 5
    /\ file_length_ok w3.
Proof.
  let r := eval vm_compute in
    (MakeStore scenario_columns (Some 3) true no_directory) in
  match r with (Ok ?w, _) => pose (w0 := w) end.
  let r := eval vm_compute in (putRow 0 [VInt 7; VStr "hi"] w0) in
  match r with (_, ?w) => pose (w1 := w) end.
  let r := eval vm_compute in (__init__ Mode.APPEND (fs w1)) in
  match r with Ok ?w => pose (w2 := w) end.
  let r := eval vm_compute in (appendBlankRows 2 w2) in
  match r with (_, ?w) => pose (w3 := w) end.
  assert (E0 : MakeStore scenario_columns (Some 3) true no_directory
               = (Ok w0, scenario_directory)) by (vm_compute; reflexivity).
  assert (E1 : putRow 0 [VInt 7; VStr "hi"] w0 = (Ok tt, w1))
    by (vm_compute; reflexivity).
  assert (E2 : __init__ Mode.APPEND (fs w1) = Ok w2)
    by (vm_compute; reflexivity).
  assert (E3 : appendBlankRows 2 w2 = (Ok tt, w3))
    by (vm_compute; reflexivity).
  exists w0, w1, w2, w3.
  destruct (row_size_and_file_length scenario_columns 3 true no_directory
              w0 scenario_directory E0) as [Hr Hf].
  repeat split; try assumption; try reflexivity.
  apply Hf.
  apply (reach_appendBlankRows w0 w2 2 w3); [| exact E3].
  apply (reach_open w0 w1 Mode.APPEND w2); [| exact E2].
  apply (reach_putRow w0 w0 0 [VInt 7; VStr "hi"] w1); [| exact E1].
  apply reach_start.
Defined.

(** C2, as the claim states it, fails: with a [uint8] column before an
    [int32] column the row takes 8 bytes, three of them padding, while the
    sizes of the columns add up to 5. *)
Lemma rowbytes_exceeds_sum_of_sizes :
  exists w,
    fst (MakeStore [("a"%string, np_uint8); ("b"%string, np_int32)]
           (Some 3) true no_directory) = Ok w
    /\ rowbytes (self w) = 8
    /\ sum_of_sizes [("a"%string, np_uint8); ("b"%string, np_int32)] = 5.
Proof.
  eexists. split; [vm_compute; reflexivity |].
  split; reflexivity.
Qed.


(** ** Growing the store *)

Lemma read_at_length d pos n :
  0 <= pos -> 0 <= n -> pos + n <= Z.of_nat (List.length d) ->
  List.length (read_at d pos n) = Z.to_nat n.
Proof.
  intros Hp Hn Hl. unfold read_at.
  destruct (Z.ltb_spec n 0); [lia |].
  rewrite length_firstn, length_skipn. lia.
Qed.

Lemma read_at_prefix d d' pos n :
  0 <= pos -> 0 <= n ->
  firstn (Z.to_nat (pos + n)) d' = firstn (Z.to_nat (pos + n)) d ->
  read_at d' pos n = read_at d pos n.
Proof.
  intros Hp Hn E. unfold read_at.
  destruct (Z.ltb_spec n 0); [lia |].
  rewrite !firstn_skipn_comm.
  replace (Z.to_nat pos + Z.to_nat n)%nat with (Z.to_nat (pos + n)) by lia.
  rewrite E. reflexivity.
Qed.

Lemma struct_unpack_ok fmt sl bs :
  prepare fmt = Ok sl -> List.length bs = calcsize sl ->
  struct_unpack fmt bs = Ok (unpack_slots sl O bs).
Proof.
  intros Ep El. unfold struct_unpack. rewrite Ep. cbn [rbind].
  rewrite El, Nat.eqb_refl. reflexivity.
Qed.

(** A row of a derived store that lies inside the file decodes. *)
Lemma get_decodes cols w m idx :
  derived cols (self w) ->
  f (self w) = MmapObj m -> m_closed m = false ->
  0 <= idx < N (self w) ->
  (idx + 1) * rowbytes (self w) <= size w ->
  exists r, fst (get idx w) = Ok r.
Proof.
  intros Hd Ef Ec Hi Hs.
  destruct (derived_spec _ _ Hd) as (_ & _ & Hp & _ & _ & Hr).
  assert (0 <= rowbytes (self w)) by lia.
  rewrite (get_run w m idx) by (try assumption; nia).
  erewrite struct_unpack_ok; [cbn [rbind]; eauto | exact Hp |].
  rewrite read_at_length; [lia | nia | lia | unfold size in Hs; lia].
Qed.

(** C5.  On a store opened in append mode, [appendBlankRows(m)] with
    [m >= 1] succeeds; the row count of the handle and of the metadata is
    [N + m]; the bytes of the [N] rows that were there are unchanged and
    [get(i)] returns for them what it returned before; [get(j)] returns a
    row, without error, for each new index [j]. *)
Theorem appendBlankRows_grows cols (w : world) (m : Z) :
  derived cols (self w) ->
  consistent w ->
  mode (self w) = Mode.APPEND ->
  is_open w ->
  _f (self w) <> PyNone ->
  1 <= m ->
  exists w',
    appendBlankRows m w = (Ok tt, w')
    /\ N (self w') = N (self w) + m
    /\ option_map md_N (rawformat (fs w')) = Some (N (self w) + m)
    /\ firstn (Z.to_nat (N (self w) * rowbytes (self w))) (data w')
       = firstn (Z.to_nat (N (self w) * rowbytes (self w))) (data w)
    /\ (forall i, 0 <= i < N (self w) -> fst (get i w') = fst (get i w))
    /\ (forall j, 0 <= j -> N (self w) <= j < N (self w) + m ->
        exists r, fst (get j w') = Ok r).
Proof.
  intros Hd (md & d & R & S & X & HN & HR & H0 & HL & HM) Em
         (mo & Ef & Ec) H_f Hm.
  assert (Ht : 0 <= rowbytes (self w) * (N (self w) + m)).
  { destruct (Z.eq_dec (rowbytes (self w)) 0) as [E|E]; [rewrite E; lia |].
    assert (-1 <= N (self w)) by nia.
    apply Z.mul_nonneg_nonneg; lia. }
  assert (Hf : f (self w) <> PyNone) by congruence.
  eexists. split; [apply (appendBlankRows_run w m d md); assumption |].
  set (target := Z.to_nat (rowbytes (self w) * (N (self w) + m))).
  assert (Hdata : data w = d) by (unfold data; rewrite S; reflexivity).
  assert (Hlen : Z.of_nat (List.length (file_write d target [x00]))
                 = (N (self w) + m) * rowbytes (self w) + 1).
  { rewrite file_write_length. cbn [List.length]. subst target. nia. }
  assert (Hpre : forall k, (k <= Z.to_nat (N (self w) * rowbytes (self w)))%nat ->
                 firstn k (file_write d target [x00]) = firstn k d).
  { intros k Hk. apply file_write_prefix; subst target; nia. }
  split; [reflexivity |].
  split; [reflexivity |].
  split; [cbn; rewrite Hdata; apply Hpre; lia |].
  split.
  - intros i Hi.
    rewrite (get_run w mo i)
      by (try assumption; unfold size; rewrite Hdata; nia).
    rewrite (get_run _ {| m_closed := false; m_pos := 0; m_write := true |} i);
      [| reflexivity | reflexivity | cbn; lia | unfold size, data; cbn; nia].
    cbn. rewrite Hdata.
    rewrite (read_at_prefix d (file_write d target [x00])
               (i * rowbytes (self w)) (rowbytes (self w)));
      [reflexivity | nia | lia | apply Hpre; nia].
  - intros j Hj0 Hj.
    eapply get_decodes with (cols := cols);
      [| reflexivity | reflexivity | cbn; lia
       | unfold size, data; cbn; nia].
    destruct Hd as (l & packed & A & B & C & D & E & F).
    exists l, packed. cbn. auto 10.
Qed.

Lemma appendBlankRows_grows_witness :
  exists w,
    __init__ Mode.APPEND scenario_directory = Ok w
    /\ N (self w) = 3
    /\ exists w',
      appendBlankRows 2 w = (Ok tt, w')
      /\ N (self w') = N (self w) + 2
      /\ option_map md_N (rawformat (fs w')) = Some (N (self w) + 2)
      /\ firstn (Z.to_nat (N (self w) * rowbytes (self w))) (data w')
         = firstn (Z.to_nat (N (self w) * rowbytes (self w))) (data w)
      /\ (forall i, 0 <= i < N (self w) -> fst (get i w') = fst (get i w))
      /\ (forall j, 0 <= j -> N (self w) <= j < N (self w) + 2 ->
          exists r, fst (get j w') = Ok r).
Proof.
  let r := eval vm_compute in (__init__ Mode.APPEND scenario_directory) in
  match r with Ok ?w => exists w end.
  split; [vm_compute; reflexivity |].
  split; [reflexivity |].
  apply (appendBlankRows_grows scenario_columns).
  - do 2 eexists. repeat split; vm_compute; reflexivity.
  - do 2 eexists. repeat split; try (vm_compute; reflexivity).
    vm_compute. discriminate.
  - reflexivity.
  - eexists. split; reflexivity.
  - discriminate.
  - lia.
Defined.

(** ** Bytes *)

Lemma Z_of_byte_of_Z z : Z_of_byte (byte_of_Z z) = z mod 256.
Proof.
  unfold Z_of_byte, byte_of_Z.
  assert (H : 0 <= z mod 256 < 256) by (apply Z.mod_pos_bound; lia).
  destruct (Byte.of_N (Z.to_N (z mod 256))) as [b|] eqn:E.
  - apply Byte.to_of_N in E. rewrite E. lia.
  - apply Byte.of_N_None_iff in E. lia.
Qed.

Lemma le_value_le_bytes n :
  forall z, le_value (le_bytes n z) = z mod 2 ^ (8 * Z.of_nat n).
Proof.
  induction n as [|n IH]; intros z.
  - cbn. rewrite Z.mod_1_r. reflexivity.
  - cbn [le_bytes le_value]. rewrite Z_of_byte_of_Z, IH.
    replace (8 * Z.of_nat (S n)) with (8 + 8 * Z.of_nat n) by lia.
    rewrite Z.pow_add_r by lia.
    change (2 ^ 8) with 256.
    rewrite Z.rem_mul_r by lia. reflexivity.
Qed.

Lemma le_value_small n z :
  0 <= z < 2 ^ (8 * Z.of_nat n) -> le_value (le_bytes n z) = z.
Proof. intros H. rewrite le_value_le_bytes. apply Z.mod_small. exact H. Qed.

Lemma le_value_signed n z :
  (0 < n)%nat ->
  - 2 ^ (8 * Z.of_nat n - 1) <= z < 2 ^ (8 * Z.of_nat n - 1) ->
  (let u := le_value (le_bytes n z) in
   if u <? 2 ^ (8 * Z.of_nat n - 1) then u else u - 2 ^ (8 * Z.of_nat n)) = z.
Proof.
  intros Hn Hz. cbv zeta. rewrite le_value_le_bytes.
  assert (E : 2 ^ (8 * Z.of_nat n) = 2 * 2 ^ (8 * Z.of_nat n - 1)).
  { rewrite <- Z.pow_succ_r by lia. f_equal. lia. }
  assert (0 < 2 ^ (8 * Z.of_nat n - 1)) by (apply Z.pow_pos_nonneg; lia).
  destruct (Z_lt_le_dec z 0).
  - rewrite <- (Z.mod_add z 1) by lia.
    rewrite Z.mod_small by lia.
    destruct (Z.ltb_spec (z + 1 * 2 ^ (8 * Z.of_nat n))
                (2 ^ (8 * Z.of_nat n - 1))); lia.
  - rewrite Z.mod_small by lia.
    destruct (Z.ltb_spec z (2 ^ (8 * Z.of_nat n - 1))); lia.
Qed.

(** ** Text *)

Lemma list_ascii_of_list_byte bs :
  list_ascii_of_string (string_of_list_byte bs) = map ascii_of_byte bs.
Proof.
  unfold string_of_list_byte. apply list_ascii_of_string_of_list_ascii.
Qed.

Lemma remove_nul_padded s k :
  no_nul s = true ->
  remove_nul (string_of_list_byte (list_byte_of_string s ++ repeat x00 k)) = s.
Proof.
  intros H. unfold remove_nul. rewrite list_ascii_of_list_byte, map_app.
  rewrite filter_app.
  replace (filter _ (map ascii_of_byte (repeat x00 k))) with (@nil ascii).
  - rewrite app_nil_r. unfold list_byte_of_string. rewrite map_map.
    rewrite (map_ext _ (fun c => c)) by apply ascii_of_byte_of_ascii.
    rewrite map_id.
    unfold no_nul in H. rewrite forallb_filter_id by exact H.
    apply string_of_list_ascii_of_string.
  - induction k as [|k IH]; [reflexivity | exact IH].
Qed.

(** ** Packing and unpacking a value that fits *)

Lemma unpack_signed k z :
  is_signed k = true -> in_range k z = true ->
  unpack_value k (le_bytes (code_size k) z) = VInt z.
Proof.
  intros Hk Hr. unfold in_range in Hr. rewrite Hk in Hr.
  apply andb_prop in Hr as [H1 H2].
  apply Z.leb_le in H1. apply Z.ltb_lt in H2.
  pose proof (le_value_signed (code_size k) z) as E. cbv zeta in E.
  destruct k; try discriminate; unfold unpack_value;
    rewrite le_bytes_length; rewrite E; try reflexivity;
    try (cbn; lia); split; assumption.
Qed.

Lemma unpack_unsigned k z :
  k = code_B \/ k = code_H \/ k = code_I \/ k = code_Q ->
  in_range k z = true ->
  unpack_value k (le_bytes (code_size k) z) = VInt z.
Proof.
  intros Hk Hr. unfold in_range in Hr.
  assert (Hs : is_signed k = false)
    by (destruct Hk as [->|[->|[->| ->]]]; reflexivity).
  rewrite Hs in Hr. apply andb_prop in Hr as [H1 H2].
  apply Z.leb_le in H1. apply Z.ltb_lt in H2.
  pose proof (le_value_small (code_size k) z (conj H1 H2)) as E.
  destruct Hk as [->|[->|[->| ->]]]; unfold unpack_value; rewrite E;
    reflexivity.
Qed.

Lemma fits_roundtrip ty v :
  fits ty v = true ->
  exists b,
    pack_value (code_of ty) (s_size (slot_of ty)) v = Ok b
    /\ strip_field (unpack_value (code_of ty) b) = v
    /\ (code_of ty <> code_s -> unpack_value (code_of ty) b = v)
    /\ convert_string v = Ok v
    /\ call_dtype (dtype_of ty) v = Returned v.
Proof.
  destruct ty as [| | | | | | | | |[] size|]; destruct v; try discriminate;
    cbn [fits]; intros H.
  1-6: eexists; unfold pack_value; cbn [code_of slot_of s_size integer_argument rbind];
       rewrite H;
       (split; [reflexivity |]);
       first [ rewrite unpack_signed by (reflexivity || exact H)
             | rewrite unpack_unsigned by (tauto || exact H) ];
       repeat split; reflexivity.
  - (* float32 *)
    cbv zeta in H.
    apply andb_prop in H as [H H3]. apply andb_prop in H as [H1 H2].
    apply Z.leb_le in H1. apply Z.ltb_lt in H2. apply Z.eqb_eq in H3.
    eexists. unfold pack_value.
    cbn [code_of slot_of s_size float_argument rbind].
    split; [reflexivity |].
    assert (E : unpack_value code_f (le_bytes (code_size code_f)
                                       (single_of_double bits)) = VFloat bits).
    { unfold unpack_value.
      rewrite le_value_small by (split; [exact H1 | exact H2]).
      rewrite H3. reflexivity. }
    rewrite E. repeat split; reflexivity.
  - (* float64 *)
    apply andb_prop in H as [H1 H2].
    apply Z.leb_le in H1. apply Z.ltb_lt in H2.
    eexists. unfold pack_value.
    cbn [code_of slot_of s_size float_argument rbind].
    split; [reflexivity |].
    assert (E : unpack_value code_d (le_bytes (code_size code_d) bits)
                = VFloat bits).
    { unfold unpack_value.
      rewrite le_value_small by (split; [exact H1 | exact H2]).
      reflexivity. }
    rewrite E. repeat split; reflexivity.
  - (* bool *)
    eexists. split; [reflexivity |]. destruct b; repeat split; reflexivity.
  - (* fixed bytes *)
    apply andb_prop in H as [H H3]. apply andb_prop in H as [H1 H2].
    apply Nat.leb_le in H1.
    assert (L : List.length (list_byte_of_string s) = String.length s).
    { unfold list_byte_of_string. rewrite length_map.
      clear. induction s as [|c s IH]; cbn; [| rewrite IH]; reflexivity. }
    eexists. unfold pack_value. cbn [code_of slot_of s_size].
    split; [reflexivity |].
    rewrite firstn_all2 by lia.
    unfold unpack_value, strip_field.
    rewrite remove_nul_padded by exact H2.
    split; [reflexivity |]. split; [congruence |].
    unfold convert_string, call_dtype, dtype_of, str_store, str_encode.
    rewrite H3. split; reflexivity.
Qed.

(** ** Packing and unpacking a row that fits *)

Lemma row_fits_length cols r :
  row_fits cols r = true -> List.length r = List.length cols.
Proof.
  revert r. induction cols as [|col cols IH]; intros [|v r] H;
    try discriminate; [reflexivity |].
  cbn in H. apply andb_prop in H as [_ H]. cbn. f_equal. apply IH, H.
Qed.

Lemma row_fits_conversions cols r :
  row_fits cols r = true ->
  rmap convert_string r = Ok r
  /\ first_raised (combine (map dtype_of (map snd cols)) r) = None
  /\ coerce_row (map dtype_of (map snd cols)) r = Some r.
Proof.
  revert r. induction cols as [|[name ty] cols IH]; intros [|v r] H;
    try discriminate; [repeat split |].
  cbn [row_fits snd] in H. apply andb_prop in H as [Hv H].
  destruct (IH r H) as (A & B & C).
  destruct (fits_roundtrip ty v Hv) as (b & _ & _ & _ & Hc & Hd).
  cbn [rmap map combine first_raised coerce_row snd].
  unfold raised. rewrite Hc, Hd, A, B, C. repeat split.
Qed.

Lemma firstn_exact {A} (b rest : list A) :
  firstn (List.length b) (b ++ rest) = b.
Proof.
  rewrite firstn_app, Nat.sub_diag, firstn_all. cbn. apply app_nil_r.
Qed.

Lemma skipn_exact {A} (b rest : list A) :
  skipn (List.length b) (b ++ rest) = rest.
Proof.
  rewrite skipn_app, Nat.sub_diag, skipn_all. reflexivity.
Qed.

Lemma pack_unpack_row cols :
  forall r off,
    row_fits cols r = true ->
    exists bs,
      pack_slots (map slot_of (map snd cols)) off r = Ok bs
      /\ forall tail,
        map strip_field
          (unpack_slots (map slot_of (map snd cols)) off (bs ++ tail)) = r
        /\ (Forall (fun ty => code_of ty <> code_s) (map snd cols) ->
            unpack_slots (map slot_of (map snd cols)) off (bs ++ tail) = r).
Proof.
  induction cols as [|[name ty] cols IH]; intros [|v r] off H;
    try discriminate.
  - exists []. split; [reflexivity |]. intros tail. split; reflexivity.
  - cbn [row_fits snd] in H. apply andb_prop in H as [Hv H].
    destruct (fits_roundtrip ty v Hv) as (b & Hp & Hs & Hu & _ & _).
    set (off' := (off + slot_pad off (slot_of ty) + s_size (slot_of ty))%nat).
    destruct (IH r off' H) as (bs & Hbs & Hun).
    assert (Hl : List.length b = s_size (slot_of ty)).
    { eapply pack_value_length; [| exact Hp].
      destruct ty; cbn; congruence. }
    exists (repeat x00 (slot_pad off (slot_of ty)) ++ b ++ bs).
    cbn [map snd pack_slots unpack_slots].
    change (s_arg (slot_of ty)) with true.
    change (s_code (slot_of ty)) with (code_of ty).
    cbv iota. rewrite Hp. cbn [rbind]. fold off'. rewrite Hbs. cbn [rbind].
    split; [reflexivity |]. intros tail.
    rewrite <- !app_assoc.
    rewrite skipn_app, skipn_all2 by (rewrite repeat_length; lia).
    rewrite repeat_length, Nat.sub_diag. cbn [skipn app].
    rewrite <- Hl, !firstn_exact, !skipn_exact.
    destruct (Hun tail) as [U1 U2].
    split.
    + cbn [map]. rewrite Hs, U1. reflexivity.
    + intros Hc. pose proof (Forall_inv Hc) as Hty.
      pose proof (Forall_inv_tail Hc) as Hcols. cbv beta in Hty.
      rewrite (Hu Hty), (U2 Hcols). reflexivity.
Qed.

Lemma contains_char_types tys :
  contains_char "s" (String.concat "" (map type_of tys)) = false ->
  Forall (fun ty => supported ty = true) tys ->
  Forall (fun ty => code_of ty <> code_s) tys.
Proof.
  unfold contains_char. rewrite list_ascii_of_concat.
  induction tys as [|ty tys IH]; intros H Hs; [constructor |].
  inversion Hs as [|? ? Hty Htys]; subst.
  cbn [map List.concat] in H. rewrite existsb_app in H.
  apply orb_false_elim in H as [H1 H2].
  constructor; [| apply IH; assumption].
  destruct ty as [| | | | | | | | |[] size|]; try discriminate.
  exfalso. cbn [type_of] in H1. unfold string_format in H1.
  rewrite list_ascii_of_string_of_list_ascii, existsb_app in H1.
  apply orb_false_elim in H1 as [_ H1]. discriminate.
Qed.

(** ** Round trip *)




(** ** What holds of the bounds and of the unmapped types *)

(** [get] refuses every index outside [0, N) with [IndexError], and
    [putRow] every index from [N] on; neither changes the state. *)
Lemma get_out_of_range w idx :
  idx < 0 \/ N (self w) <= idx -> get idx w = (Raise IndexError, w).
Proof.
  intros H. unfold get. rewrite (bind_ok me _ w (self w) w eq_refl).
  destruct (Z.leb_spec (N (self w)) idx); [reflexivity |].
  destruct (Z.ltb_spec idx 0); [reflexivity | lia].
Qed.

Lemma putRow_beyond_end w idx r :
  N (self w) <= idx -> putRow idx r w = (Raise IndexError, w).
Proof.
  intros H. unfold putRow. rewrite (bind_ok me _ w (self w) w eq_refl).
  destruct (Z.leb_spec (N (self w)) idx); [reflexivity | lia].
Qed.

(** Whatever [MakeStore] raises for a column specification with a type
    that no branch maps, it raises before it writes a file. *)
Lemma MakeStore_unsupported_writes_no_file cols n check d :
  ~ Forall (fun ty => supported ty = true) (map snd cols) ->
  exists e d',
    MakeStore cols n check d = (Raise e, d')
    /\ rawformat d' = rawformat d /\ store_file d' = store_file d.
Proof.
  intros H. unfold MakeStore.
  destruct (directory_exists d && check); [do 2 eexists; repeat split |].
  destruct n as [n|]; [| do 2 eexists; repeat split].
  destruct (MakeStore_loop no_locals cols) as [l|e] eqn:El.
  - destruct (struct_pack _ _) as [packed|e] eqn:Ep.
    + exfalso. apply H. eapply derivation_supported; eauto.
    + destruct n; do 2 eexists; repeat split.
  - destruct n; do 2 eexists; repeat split.
Qed.

(** Every store opened in mode [READONCE] is left without a handle, and
    [get] on it raises [AttributeError] at every index in range. *)
Lemma READONCE_leaves_no_handle d w :
  __init__ Mode.READONCE d = Ok w ->
  f (self w) = PyNone
  /\ forall idx, 0 <= idx < N (self w) ->
                 fst (get idx w) = Raise AttributeError.
Proof.
  unfold __init__.
  destruct (directory_exists d); [| discriminate]. cbn [negb].
  destruct (rawformat d) as [md|]; [| discriminate].
  unfold _openfile, bind, me, update, ret, open. cbn.
  destruct (store_file d); [| discriminate]. cbn.
  intros E. inversion E; subst w; clear E. cbn.
  split; [reflexivity |]. intros idx Hi.
  unfold get, bind, me, raise, try_except, f_seek. cbn.
  destruct (Z.leb_spec (md_N md) idx); [lia |].
  destruct (Z.ltb_spec idx 0); [lia |]. reflexivity.
Qed.


(** * Further properties of the store *)

(** ** Reading *)

(** X1.  [get] writes nothing: whatever it returns, the files, the descriptor,
    the mode and the handles are as before, up to the position of
    [self.f]. *)
Theorem get_changes_only_the_position (w : world) (idx : Z) :
  same_but_position w (snd (get idx w)).
Proof. apply get_position. Qed.

(** X2.  On a file that was cut short, [get] at an index in range raises
    [IndexError] when the row starts beyond the end of the file, and
    [struct.error] when the row starts inside the file and is not
    complete: a short read is never decoded. *)
Theorem get_on_short_file cols (w : world) (idx : Z) :
  derived cols (self w) ->
  is_open w ->
  0 <= idx < N (self w) ->
  (size w < idx * rowbytes (self w) -> get idx w = (Raise IndexError, w))
  /\ (idx * rowbytes (self w) <= size w < (idx + 1) * rowbytes (self w) ->
      fst (get idx w) = Raise StructError).
Proof.
  intros Hd (m & Ef & Ec) Hi.
  destruct (derived_spec _ _ Hd) as (_ & _ & Hp & _ & _ & Hr).
  assert (H0 : 0 <= rowbytes (self w)) by lia.
  split; intros Hs.
  - unfold get. rewrite (bind_ok me _ w (self w) w eq_refl).
    destruct (Z.leb_spec (N (self w)) idx); [lia |].
    destruct (Z.ltb_spec idx 0); [lia |]. cbn [orb].
    unfold bind, try_except, f_seek. rewrite Ef, Ec.
    destruct (Z.ltb_spec (idx * rowbytes (self w)) 0); [nia |].
    destruct (Z.ltb_spec (size w) (idx * rowbytes (self w))); [| lia].
    reflexivity.
  - rewrite (get_run w m idx) by (try assumption; nia).
    unfold struct_unpack. rewrite Hp. cbn [rbind].
    destruct (Nat.eqb_spec
                (List.length (read_at (data w) (idx * rowbytes (self w))
                                (rowbytes (self w))))
                (calcsize (map slot_of (map snd cols)))) as [E|E];
      [| reflexivity].
    exfalso. unfold read_at in E.
    destruct (Z.ltb_spec (rowbytes (self w)) 0); [lia |].
    rewrite length_firstn, length_skipn in E. unfold size in Hs. nia.
Qed.

Lemma get_on_short_file_witness :
  exists w,
    __init__ Mode.READONLY
      {| directory_exists := true;
         rawformat := rawformat scenario_directory;
         store_file := Some (repeat x00 12) |} = Ok w
    /\ get 2 w = (Raise IndexError, w)
    /\ fst (get 1 w) = Raise StructError.
Proof.
  let r := eval vm_compute in
    (__init__ Mode.READONLY
       {| directory_exists := true;
          rawformat := rawformat scenario_directory;
          store_file := Some (repeat x00 12) |}) in
  match r with Ok ?w => exists w end.
  split; [vm_compute; reflexivity |].
  split.
  - apply (get_on_short_file scenario_columns _ 2).
    + do 2 eexists. repeat split; vm_compute; reflexivity.
    + eexists. split; reflexivity.
    + cbn. lia.
    + vm_compute. reflexivity.
  - apply (get_on_short_file scenario_columns _ 1).
    + do 2 eexists. repeat split; vm_compute; reflexivity.
    + eexists. split; reflexivity.
    + cbn. lia.
    + vm_compute. split; [discriminate | reflexivity].
Defined.

(** ** Closing *)

(** X3.  [close] can be repeated; it leaves the files as they are; on a closed
    store every [get], in range or not, raises [IndexError] (the
    [ValueError] of the closed map is caught and turned into it). *)
Theorem closed_store_answers_IndexError (w w' : world) :
  close w = (Ok tt, w') ->
  close w' = (Ok tt, w')
  /\ fs w' = fs w
  /\ forall idx, get idx w' = (Raise IndexError, w').
Proof.
  intros H. destruct (close_inv _ _ H) as [Hf H_f].
  destruct (close_spec w Hf H_f) as (h & h' & Hc & Eh & Eh').
  rewrite Hc in H. inversion H; subst w'; clear H.
  split; [apply close_closed_again; assumption |].
  split; [reflexivity |].
  intros idx. unfold get.
  erewrite (bind_ok me) by reflexivity.
  destruct ((_ <=? idx) || (idx <? 0)); [reflexivity |].
  unfold bind, try_except.
  rewrite f_seek_closed by (cbn; eapply close_handle_closed; eauto).
  reflexivity.
Qed.

Lemma closed_store_answers_IndexError_witness :
  exists w w',
    fst (MakeStore scenario_columns (Some 3) true no_directory) = Ok w
    /\ close w = (Ok tt, w')
    /\ close w' = (Ok tt, w')
    /\ fs w' = fs w
    /\ forall idx, get idx w' = (Raise IndexError, w').
Proof.
  let r := eval vm_compute in
    (MakeStore scenario_columns (Some 3) true no_directory) in
  match r with (Ok ?w, _) => exists w end.
  eexists. split; [vm_compute; reflexivity |].
  assert (forall (A B : Prop), A -> (A -> B) -> A /\ B) as both by tauto.
  apply both; [vm_compute; reflexivity |].
  apply closed_store_answers_IndexError.
Defined.

(** ** Writing *)

Lemma putRow_failure_position (w w' : world) idx r e :
  putRow idx r w = (Raise e, w') -> same_but_position w w'.
Proof.
  unfold putRow. rewrite (bind_ok me _ w (self w) w eq_refl).
  destruct (N (self w) <=? idx);
    [intros H; inversion H; apply same_but_position_refl |].
  destruct (negb _);
    [intros H; inversion H; apply same_but_position_refl |].
  destruct (first_raised _) as [ex|].
  { destruct ex; try (intros H; inversion H; apply same_but_position_refl).
    unfold bind, lift, raise. destruct (cannot_convert _ _ _);
      intros H; inversion H; apply same_but_position_refl. }
  unfold bind.
  pose proof (f_seek_position (idx * rowbytes (self w)) w) as Hs.
  destruct (f_seek (idx * rowbytes (self w)) w) as [[[]|e1] w1]; cbn in Hs;
    [| intros H; inversion H; subst; exact Hs].
  unfold lift.
  destruct (rbind _ _) as [bytes|e2];
    [| intros H; inversion H; subst; exact Hs].
  unfold f_write.
  destruct (f (self w1)) as [|m|o];
    [intros H; inversion H; subst; exact Hs | |].
  - destruct (m_closed m); [intros H; inversion H; subst; exact Hs |].
    destruct (negb (m_write m)); [intros H; inversion H; subst; exact Hs |].
    destruct (size w1 <? _); [intros H; inversion H; subst; exact Hs |].
    discriminate.
  - destruct (h_closed o); [intros H; inversion H; subst; exact Hs |].
    destruct (negb (h_write o)); [intros H; inversion H; subst; exact Hs |].
    discriminate.
Qed.

(** X4.  A [putRow] that raises has written nothing: the files and the
    descriptor are as before, whatever the exception and wherever it was
    raised. *)
Theorem putRow_that_fails_writes_nothing (w w' : world) idx r e :
  putRow idx r w = (Raise e, w') -> same_but_position w w'.
Proof. apply putRow_failure_position. Qed.

Lemma putRow_that_fails_writes_nothing_witness :
  exists w w',
    fst (MakeStore scenario_columns (Some 3) true no_directory) = Ok w
    /\ putRow 1 [VInt (2 ^ 31); VStr "hi"] w = (Raise StructError, w')
    /\ same_but_position w w'.
Proof.
  let r := eval vm_compute in
    (MakeStore scenario_columns (Some 3) true no_directory) in
  match r with (Ok ?w, _) => exists w end.
  eexists. split; [vm_compute; reflexivity |].
  assert (forall (A B : Prop), A -> (A -> B) -> A /\ B) as both by tauto.
  apply both; [vm_compute; reflexivity |].
  apply putRow_that_fails_writes_nothing.
Defined.

(** ** Opening *)

(** The run of [__init__] on a directory with both files, in a mode that
    maps the store file. *)
Lemma __init___run mode d md bs :
  directory_exists d = true ->
  rawformat d = Some md -> store_file d = Some bs -> bs <> [] ->
  mode <> Mode.READONCE ->
  let write := match mode with Mode.READONLY => false | _ => true end in
  __init__ mode d
  = Ok {| fs := d;
          self := {| rowbytes := md_rowbytes md;
                     pack_format := md_pack_format md;
                     colnames := md_colnames md;
                     dtypes := md_dtypes md;
                     N := md_N md;
                     mode := mode;
                     f := MmapObj {| m_closed := false; m_pos := 0;
                                     m_write := write |};
                     _f := FileObj {| h_closed := false; h_pos := 0;
                                      h_write := write |} |} |}.
Proof.
  intros X R S Hbs Hm. unfold __init__. rewrite X, R. cbn [negb].
  assert (Hs : (Z.of_nat (List.length bs) =? 0) = false)
    by (destruct bs; [congruence | reflexivity]).
  unfold _openfile, bind, me, update, ret, open, mmap, raise. cbn.
  destruct mode; try congruence; cbn; rewrite S; cbn;
    unfold size, data; cbn; rewrite ?S; cbn; rewrite ?S; cbn;
    rewrite Hs; reflexivity.
Qed.

(** What [get] returns depends on the files, on the row size, the format
    and the row count, and on whether the map is open; not on the mode
    nor on the position. *)
Lemma get_depends_on w w' m m' idx :
  f (self w) = MmapObj m -> f (self w') = MmapObj m' ->
  m_closed m = m_closed m' ->
  fs w = fs w' ->
  rowbytes (self w) = rowbytes (self w') ->
  pack_format (self w) = pack_format (self w') ->
  N (self w) = N (self w') ->
  fst (get idx w) = fst (get idx w').
Proof.
  intros Ef Ef' Ec Efs Er Ep En.
  unfold get.
  rewrite (bind_ok me _ w (self w) w eq_refl).
  rewrite (bind_ok me _ w' (self w') w' eq_refl).
  rewrite <- En, <- Er, <- Ep.
  destruct ((N (self w) <=? idx) || (idx <? 0)); [reflexivity |].
  unfold bind, try_except, f_seek, size, data.
  rewrite Ef, Ef', <- Ec, <- Efs.
  destruct (m_closed m); [reflexivity |].
  destruct ((idx * rowbytes (self w) <? 0) || _); [reflexivity |].
  unfold f_read, mmap_at, lift, ret, raise, data. cbn. rewrite <- Efs.
  destruct (struct_unpack _ _); [| reflexivity].
  destruct (negb _); reflexivity.
Qed.

(** X5.  A store whose metadata file holds its descriptor can be opened again,
    in any mode that maps the file, and the new handle reads at every
    index what the open handle reads: rows written through one handle are
    there for the next. *)
Theorem reopened_store_reads_the_same (w : world) (mode : Mode.t) :
  in_sync w ->
  is_open w ->
  directory_exists (fs w) = true ->
  0 < size w ->
  mode <> Mode.READONCE ->
  exists w',
    __init__ mode (fs w) = Ok w'
    /\ fs w' = fs w
    /\ forall idx, fst (get idx w') = fst (get idx w).
Proof.
  intros Hsync (m & Ef & Ec) X Hs Hm.
  destruct (store_file (fs w)) as [bs|] eqn:S;
    [| unfold size, data in Hs; rewrite S in Hs; cbn in Hs; lia].
  assert (Hbs : bs <> []).
  { intros ->. unfold size, data in Hs. rewrite S in Hs. cbn in Hs. lia. }
  eexists. split; [apply (__init___run mode (fs w) _ bs X Hsync S Hbs Hm) |].
  split; [reflexivity |].
  intros idx.
  eapply (get_depends_on _ w _ m idx);
    cbn; try reflexivity; try exact Ef. symmetry. exact Ec.
Qed.

Lemma reopened_store_reads_the_same_witness :
  exists w w1,
    fst (MakeStore scenario_columns (Some 3) true no_directory) = Ok w
    /\ putRow 1 [VInt 7; VStr "hi"] w = (Ok tt, w1)
    /\ exists w',
      __init__ Mode.READONLY (fs w1) = Ok w'
      /\ fs w' = fs w1
      /\ forall idx, fst (get idx w') = fst (get idx w1).
Proof.
  let r := eval vm_compute in
    (MakeStore scenario_columns (Some 3) true no_directory) in
  match r with (Ok ?w, _) => exists w end.
  eexists. split; [vm_compute; reflexivity |].
  split; [vm_compute; reflexivity |].
  apply reopened_store_reads_the_same.
  - reflexivity.
  - eexists. split; reflexivity.
  - reflexivity.
  - reflexivity.
  - discriminate.
Defined.



(** ** Creating *)

Lemma struct_pack_zero tys :
  Forall (fun ty => supported ty = true) tys ->
  exists packed,
    struct_pack (String.concat "" (map type_of tys))
      (map call_zero (map dtype_of tys)) = Ok packed
    /\ List.length packed = calcsize (map slot_of tys).
Proof.
  intros H. destruct (pack_slots_zero tys H O) as [bs E].
  exists bs. unfold struct_pack. rewrite prepare_types by exact H.
  cbn [rbind]. rewrite count_args_slots, !length_map, Nat.eqb_refl.
  split; [exact E |].
  apply pack_slots_length in E; [| apply slot_of_ok]. unfold calcsize. lia.
Qed.

(** The run of [MakeStore] that succeeds. *)
Lemma MakeStore_run cols k check d :
  directory_exists d && check = false ->
  k <> 0 ->
  Forall (fun ty => supported ty = true) (map snd cols) ->
  0 <= Z.of_nat (calcsize (map slot_of (map snd cols))) * k ->
  exists w,
    MakeStore cols (Some k) check d = (Ok w, fs w)
    /\ N (self w) = k
    /\ rowbytes (self w) = Z.of_nat (calcsize (map slot_of (map snd cols)))
    /\ data w = repeat x00 (Z.to_nat (rowbytes (self w) * k)) ++ [x00].
Proof.
  intros Hc Hk Hs Hn. unfold MakeStore. rewrite Hc.
  assert (En : forall (A : Type) (a b : A),
             match k with 0 => a | _ => b end = b)
    by (destruct k; [contradiction | reflexivity | reflexivity]).
  rewrite En.
  destruct (MakeStore_loop_supported cols Hs no_locals) as [t El].
  unfold no_locals at 2 3 4 in El. cbn [l_types l_dtypes l_names app] in El.
  rewrite El. cbn [l_types l_dtypes l_names].
  destruct (struct_pack_zero _ Hs) as (packed & Ep & Hl).
  rewrite Ep, Hl.
  destruct (Z.ltb_spec (Z.of_nat (calcsize (map slot_of (map snd cols))) * k) 0);
    [lia |].
  rewrite file_write_new.
  erewrite __init___run;
    [| reflexivity | reflexivity | reflexivity
     | destruct (Z.to_nat _); discriminate | discriminate].
  match goal with |- exists w, (Ok ?x, _) = _ /\ _ => exists x end.
  split; [reflexivity |]. cbn. repeat split.
Qed.

(** What a successful [MakeStore] was given and what it wrote. *)
Lemma MakeStore_inv_data cols n check d w d' :
  MakeStore cols n check d = (Ok w, d') ->
  directory_exists d && check = false
  /\ exists k, n = Some k /\ k <> 0
               /\ 0 <= rowbytes (self w) * k
               /\ data w
                  = repeat x00 (Z.to_nat (rowbytes (self w) * k)) ++ [x00].
Proof.
  unfold MakeStore.
  destruct (directory_exists d && check); [discriminate |].
  destruct n as [k|]; [| discriminate].
  destruct (Z.eq_dec k 0) as [->|Hk]; [discriminate |].
  assert (En : forall (A : Type) (a b : A),
             match k with 0 => a | _ => b end = b)
    by (destruct k; [contradiction | reflexivity | reflexivity]).
  rewrite En.
  destruct (MakeStore_loop no_locals cols) as [l|]; [| discriminate].
  destruct (struct_pack _ _) as [packed|]; [| discriminate].
  destruct (Z.ltb_spec (Z.of_nat (List.length packed) * k) 0); [discriminate |].
  rewrite file_write_new.
  erewrite __init___run;
    [| reflexivity | reflexivity | reflexivity
     | destruct (Z.to_nat _); discriminate | discriminate].
  intros E. inversion E; subst; clear E. cbn.
  split; [reflexivity |]. exists k. repeat split; assumption.
Qed.

(** X7.  [MakeStore] succeeds exactly when the directory may be used (it does
    not exist, or [checkDirectoryExists] is off), every column has a type
    that a branch maps, [N] is given and not zero, and the size of the rows
    is not negative: a negative [N] passes only when there are no
    columns. *)
Theorem MakeStore_succeeds_exactly_when cols n check d :
  (exists w d', MakeStore cols n check d = (Ok w, d'))
  <-> directory_exists d && check = false
      /\ Forall (fun ty => supported ty = true) (map snd cols)
      /\ exists k, n = Some k /\ k <> 0
                   /\ 0 <= Z.of_nat (calcsize (map slot_of (map snd cols))) * k.
Proof.
  split.
  - intros (w & d' & H).
    destruct (MakeStore_inv_data _ _ _ _ _ _ H) as (Hc & k & -> & Hk & Hn & _).
    destruct (MakeStore_inv _ _ _ _ _ _ H) as (Hd & _).
    destruct (derived_spec _ _ Hd) as (Hs & _ & _ & _ & _ & Hr).
    split; [exact Hc |]. split; [exact Hs |].
    exists k. rewrite <- Hr. auto.
  - intros (Hc & Hs & k & -> & Hk & Hn).
    destruct (MakeStore_run cols k check d Hc Hk Hs Hn) as (w & E & _).
    eauto.
Qed.

(** X8.  With a negative [N] and columns, [MakeStore] raises [IOError] after
    it has written the metadata and created the store file, which is left
    empty; the directory it leaves cannot be opened in any mode that maps
    the file. *)
Theorem MakeStore_negative_N_leaves_a_broken_store cols k check d :
  directory_exists d && check = false ->
  Forall (fun ty => supported ty = true) (map snd cols) ->
  k < 0 ->
  (0 < calcsize (map slot_of (map snd cols)))%nat ->
  exists d',
    MakeStore cols (Some k) check d = (Raise IOError, d')
    /\ option_map md_N (rawformat d') = Some k
    /\ store_file d' = Some []
    /\ forall mode, mode <> Mode.READONCE ->
                    __init__ mode d' = Raise ValueError.
Proof.
  intros Hc Hs Hk Hr. unfold MakeStore. rewrite Hc.
  assert (En : forall (A : Type) (a b : A),
             match k with 0 => a | _ => b end = b)
    by (destruct k; [lia | reflexivity | reflexivity]).
  rewrite En.
  destruct (MakeStore_loop_supported cols Hs no_locals) as [t El].
  unfold no_locals at 2 3 4 in El. cbn [l_types l_dtypes l_names app] in El.
  rewrite El. cbn [l_types l_dtypes l_names].
  destruct (struct_pack_zero _ Hs) as (packed & Ep & Hl).
  rewrite Ep, Hl.
  destruct (Z.ltb_spec (Z.of_nat (calcsize (map slot_of (map snd cols))) * k) 0);
    [| nia].
  eexists. split; [reflexivity |]. cbn.
  repeat split. intros mode Hm.
  unfold __init__, _openfile, bind, me, update, ret, open, mmap, raise. cbn.
  destruct mode; try congruence; reflexivity.
Qed.

Lemma MakeStore_negative_N_leaves_a_broken_store_witness :
  exists d',
    MakeStore scenario_columns (Some (-3)) true no_directory
    = (Raise IOError, d')
    /\ option_map md_N (rawformat d') = Some (-3)
    /\ store_file d' = Some []
    /\ forall mode, mode <> Mode.READONCE ->
                    __init__ mode d' = Raise ValueError.
Proof.
  apply MakeStore_negative_N_leaves_a_broken_store.
  - reflexivity.
  - repeat constructor.
  - lia.
  - vm_compute. lia.
Defined.

(** ** Growing and scanning: the cases that are refused *)

(** X9.  The handle that [MakeStore] returns is in mode [WRITE]:
    [appendBlankRows] refuses it with [IOError] and, unlike the refusal of
    a count below one in append mode, leaves the store open and as it
    was. *)
Theorem MakeStore_handle_cannot_grow cols n check d w d' m :
  MakeStore cols (Some n) check d = (Ok w, d') ->
  appendBlankRows m w = (Raise IOError, w) /\ is_open w.
Proof.
  intros H. destruct (MakeStore_inv _ _ _ _ _ _ H) as (_ & _ & _ & Em & Ef & _).
  split.
  - unfold appendBlankRows. rewrite (bind_ok me _ w (self w) w eq_refl), Em.
    reflexivity.
  - eexists. split; [exact Ef | reflexivity].
Qed.

Lemma MakeStore_handle_cannot_grow_witness :
  exists w,
    MakeStore scenario_columns (Some 3) true no_directory
    = (Ok w, scenario_directory)
    /\ appendBlankRows 2 w = (Raise IOError, w) /\ is_open w.
Proof.
  let r := eval vm_compute in
    (MakeStore scenario_columns (Some 3) true no_directory) in
  match r with (Ok ?w, _) => exists w end.
  assert (forall (A B : Prop), A -> (A -> B) -> A /\ B) as both by tauto.
  apply both; [vm_compute; reflexivity |].
  apply MakeStore_handle_cannot_grow.
Defined.

Lemma list_index_spec name names :
  match list_index name names with
  | None => ~ In name names
  | Some c =>
      0 <= c < Z.of_nat (List.length names)
      /\ nth_error names (Z.to_nat c) = Some name
  end.
Proof.
  induction names as [|y names IH]; [intros [] |].
  cbn [list_index]. destruct (String.eqb_spec name y) as [->|Hne].
  - cbn. split; [lia | reflexivity].
  - destruct (list_index name names) as [c|]; cbn.
    + destruct IH as [Hc Hn]. split; [lia |].
      replace (Z.to_nat (Z.succ c)) with (S (Z.to_nat c)) by lia. exact Hn.
    + intros [E|E]; [congruence | contradiction].
Qed.


(** ** Rows of zero bytes *)

Lemma skipn_zeros k : forall n, skipn k (repeat x00 n) = repeat x00 (n - k).
Proof.
  induction k as [|k IH]; intros [|n]; cbn; try reflexivity. apply IH.
Qed.

Lemma firstn_zeros k :
  forall n, (k <= n)%nat -> firstn k (repeat x00 n) = repeat x00 k.
Proof.
  induction k as [|k IH]; intros [|n] H; cbn; try reflexivity; [lia |].
  rewrite IH by lia. reflexivity.
Qed.

Lemma zeros_snoc n : repeat x00 n ++ [x00] = repeat x00 (S n).
Proof. induction n as [|n IH]; cbn; [| rewrite IH]; reflexivity. Qed.

Lemma zeros_app n m : repeat x00 n ++ repeat x00 m = repeat x00 (n + m).
Proof. symmetry. apply repeat_app. Qed.

Lemma read_at_zeros n pos k :
  0 <= pos -> 0 <= k -> pos + k <= Z.of_nat n ->
  read_at (repeat x00 n) pos k = repeat x00 (Z.to_nat k).
Proof.
  intros Hp Hk Hn. unfold read_at.
  destruct (Z.ltb_spec k 0); [lia |].
  rewrite skipn_zeros. apply firstn_zeros. lia.
Qed.

Lemma end_offset_ge sl : forall off, (off <= end_offset sl off)%nat.
Proof.
  induction sl as [|s sl IH]; intros off; cbn [end_offset]; [lia |].
  specialize (IH (off + slot_pad off s + s_size s)%nat). lia.
Qed.

Lemma unpack_zero_value ty :
  supported ty = true ->
  strip_field (unpack_value (code_of ty) (repeat x00 (s_size (slot_of ty))))
  = zero_value ty
  /\ (code_of ty <> code_s ->
      unpack_value (code_of ty) (repeat x00 (s_size (slot_of ty)))
      = zero_value ty).
Proof.
  destruct ty as [| | | | | | | | |[|] size|]; intros H; try discriminate H;
    try (split; [| intros _]; vm_compute; reflexivity).
  split; [| intros C; contradiction C; reflexivity].
  cbn [code_of slot_of s_size unpack_value strip_field zero_value].
  f_equal. exact (remove_nul_padded "" size eq_refl).
Qed.

Lemma unpack_slots_zeros tys :
  Forall (fun ty => supported ty = true) tys ->
  forall off n,
    (end_offset (map slot_of tys) off <= off + n)%nat ->
    map strip_field (unpack_slots (map slot_of tys) off (repeat x00 n))
    = map zero_value tys
    /\ (Forall (fun ty => code_of ty <> code_s) tys ->
        unpack_slots (map slot_of tys) off (repeat x00 n)
        = map zero_value tys).
Proof.
  induction 1 as [|ty tys Hty Htys IH]; intros off n Hn;
    [split; reflexivity |].
  cbn [map end_offset] in Hn.
  pose proof (end_offset_ge (map slot_of tys)
                (off + slot_pad off (slot_of ty) + s_size (slot_of ty))).
  cbn [map unpack_slots].
  replace (s_arg (slot_of ty)) with true by reflexivity.
  rewrite !skipn_zeros, firstn_zeros by lia.
  destruct (IH (off + slot_pad off (slot_of ty) + s_size (slot_of ty))%nat
              (n - slot_pad off (slot_of ty) - s_size (slot_of ty))%nat)
    as [IH1 IH2]; [lia |].
  destruct (unpack_zero_value ty Hty) as [V1 V2].
  split.
  - cbn [map]. rewrite IH1. f_equal. exact V1.
  - intros Hs. rewrite IH2 by (eapply Forall_inv_tail; exact Hs).
    f_equal. apply V2. exact (Forall_inv Hs).
Qed.

(** A row whose bytes are all zero reads as the zero of every column. *)
Lemma get_zero_row cols w m idx :
  derived cols (self w) ->
  f (self w) = MmapObj m -> m_closed m = false ->
  0 <= idx < N (self w) ->
  0 <= idx * rowbytes (self w) <= size w ->
  read_at (data w) (idx * rowbytes (self w)) (rowbytes (self w))
  = repeat x00 (Z.to_nat (rowbytes (self w))) ->
  fst (get idx w) = Ok (zero_row cols).
Proof.
  intros Hd Ef Ec Hi Hs Er.
  destruct (derived_spec _ _ Hd) as (Hsup & Epf & Epr & _ & _ & Erb).
  rewrite (get_run w m idx Ef Ec Hi Hs), Er.
  rewrite (struct_unpack_ok _ _ _ Epr)
    by (rewrite repeat_length, Erb; lia).
  cbn [rbind]. f_equal.
  destruct (unpack_slots_zeros _ Hsup O (Z.to_nat (rowbytes (self w))))
    as [Z1 Z2]; [rewrite Erb; unfold calcsize; lia |].
  unfold zero_row. rewrite <- (map_map snd zero_value).
  destruct (contains_char "s" (pack_format (self w))) eqn:Es; cbn [negb].
  - exact Z1.
  - apply Z2. apply contains_char_types; [rewrite <- Epf; exact Es | exact Hsup].
Qed.



Lemma file_write_beyond d pos bs :
  (List.length d <= pos)%nat ->
  file_write d pos bs = d ++ repeat x00 (pos - List.length d) ++ bs.
Proof.
  intros H. unfold file_write.
  rewrite firstn_all2 by (rewrite length_app, repeat_length; lia).
  rewrite skipn_all2 by lia. rewrite app_nil_r, <- app_assoc. reflexivity.
Qed.

Lemma file_write_last d pos b :
  List.length d = S pos -> file_write d pos [b] = firstn pos d ++ [b].
Proof.
  intros H. unfold file_write.
  replace (pos - List.length d)%nat with O by lia.
  rewrite app_nil_r. cbn [List.length].
  rewrite skipn_all2 by lia. reflexivity.
Qed.

Lemma skipn_last {A} (x : A) a :
  forall d, List.length d = S a -> nth_error d a = Some x -> skipn a d = [x].
Proof.
  induction a as [|a IH]; intros [|y d] Hl Hn; try discriminate.
  - destruct d; [| discriminate]. cbn in Hn. injection Hn as ->. reflexivity.
  - cbn. apply IH; [cbn in Hl; lia | exact Hn].
Qed.

(** After the file has grown to [target], the bytes from the old end
    byte on are zero when the old end byte was. *)
Lemma file_write_grown d a target :
  List.length d = S a -> nth_error d a = Some x00 -> (a <= target)%nat ->
  skipn a (file_write d target [x00]) = repeat x00 (S (target - a)).
Proof.
  intros Hl Hn Ht. pose proof (skipn_last x00 a d Hl Hn) as Es.
  destruct (Nat.eq_dec target a) as [->|Hne].
  - rewrite file_write_last by exact Hl.
    rewrite skipn_app, skipn_firstn_comm, length_firstn.
    replace (a - a)%nat with O by lia.
    replace (a - Nat.min a (List.length d))%nat with O by lia.
    cbn. replace (a - a)%nat with O by lia. reflexivity.
  - rewrite file_write_beyond by lia.
    rewrite skipn_app, Es.
    replace (a - List.length d)%nat with O by lia.
    cbn [skipn app]. rewrite zeros_snoc.
    replace (S (target - a)) with (S (S (target - List.length d))) by lia.
    reflexivity.
Qed.



(** The second of two calls of [appendBlankRows] writes its end byte
    after the first one's. *)
Lemma file_write_twice d t1 t2 :
  (List.length d = S t1 /\ t2 = t1) \/ (List.length d <= t1 < t2)%nat ->
  file_write (file_write d t1 [x00]) t2 [x00] = file_write d t2 [x00].
Proof.
  intros [[Hl ->]|H].
  - rewrite (file_write_last d t1 x00 Hl).
    rewrite file_write_last by (rewrite length_app, length_firstn; cbn; lia).
    rewrite firstn_app, firstn_firstn, length_firstn.
    replace (Nat.min t1 t1) with t1 by lia.
    replace (t1 - Nat.min t1 (List.length d))%nat with O by lia.
    cbn [firstn]. rewrite app_nil_r. reflexivity.
  - rewrite (file_write_beyond d t1) by lia.
    rewrite file_write_beyond
      by (rewrite !length_app, repeat_length; cbn; lia).
    rewrite (file_write_beyond d t2) by lia.
    rewrite !length_app, repeat_length. cbn [List.length].
    rewrite <- !app_assoc. f_equal.
    rewrite (app_assoc (repeat x00 (t1 - List.length d))), zeros_snoc.
    rewrite app_assoc, zeros_app. f_equal. f_equal. lia.
Qed.

(** X13.  Growing a store by [a] rows and then by [b] rows is growing it by
    [a + b] rows: the same file, the same metadata, the same handle. *)
Theorem appendBlankRows_twice (w : world) (a b : Z) (w1 w2 : world) :
  consistent w ->
  appendBlankRows a w = (Ok tt, w1) ->
  appendBlankRows b w1 = (Ok tt, w2) ->
  appendBlankRows (a + b) w = (Ok tt, w2).
Proof.
  intros Hc H1 H2.
  destruct (appendBlankRows_inv _ _ _ H1)
    as (d & md & Em & Ef & Ef' & Ed & Emd & Ha & Ht).
  rewrite (appendBlankRows_run w a d md Em Ef Ef' Ed Emd Ha Ht) in H1.
  injection H1 as <-.
  destruct (appendBlankRows_inv _ _ _ H2)
    as (d1 & md1 & _ & _ & _ & Ed1 & Emd1 & Hb & Ht1).
  cbn [self fs rowbytes N store_file rawformat] in Ed1, Emd1, Ht1.
  injection Ed1 as <-. injection Emd1 as <-.
  match type of H2 with
  | appendBlankRows _ ?x = _ =>
      rewrite (appendBlankRows_run x b _ _ eq_refl ltac:(discriminate)
                 ltac:(discriminate) eq_refl eq_refl Hb Ht1) in H2
  end.
  injection H2 as <-.
  destruct Hc as (md' & d' & _ & Ed' & _ & _ & _ & Hrb & Hlen & _).
  rewrite Ed in Ed'. injection Ed' as <-.
  rewrite (appendBlankRows_run w (a + b) d md Em Ef Ef' Ed Emd)
    by (rewrite ?Z.add_assoc; lia).
  cbn [self fs rowbytes N store_file rawformat directory_exists pack_format
       colnames dtypes md_rowbytes md_pack_format md_colnames md_dtypes].
  rewrite !Z.add_assoc.
  rewrite file_write_twice; [reflexivity |].
  destruct (Z.eq_dec (rowbytes (self w)) 0) as [E0|E0].
  - left. rewrite E0 in *. cbn. split; [lia | reflexivity].
  - right. split; nia.
Qed.

Lemma appendBlankRows_twice_witness :
  exists w w1 w2,
    __init__ Mode.APPEND scenario_directory = Ok w
    /\ appendBlankRows 2 w = (Ok tt, w1)
    /\ appendBlankRows 3 w1 = (Ok tt, w2)
    /\ appendBlankRows (2 + 3) w = (Ok tt, w2).
Proof.
  let r := eval vm_compute in (__init__ Mode.APPEND scenario_directory) in
  match r with
  | Ok ?w =>
      let r1 := eval vm_compute in (appendBlankRows 2 w) in
      match r1 with
      | (Ok tt, ?w1) =>
          let r2 := eval vm_compute in (appendBlankRows 3 w1) in
          match r2 with (Ok tt, ?w2) => exists w, w1, w2 end
      end
  end.
  split; [vm_compute; reflexivity |].
  assert (forall (A B C : Prop), A -> B -> (A -> B -> C) -> A /\ B /\ C)
    as both by tauto.
  apply both; [vm_compute; reflexivity | vm_compute; reflexivity |].
  apply appendBlankRows_twice.
  do 2 eexists. repeat split; try (vm_compute; reflexivity).
  vm_compute. discriminate.
Defined.

(** ** Writing one row *)

Lemma file_write_suffix d pos bs k :
  (pos + List.length bs <= k)%nat ->
  (pos + List.length bs <= List.length d)%nat ->
  skipn k (file_write d pos bs) = skipn k d.
Proof.
  intros Hk Hd. unfold file_write.
  replace (pos - List.length d)%nat with O by lia.
  cbn [repeat]. rewrite app_nil_r.
  rewrite !skipn_app, length_firstn.
  rewrite (skipn_all2 (firstn pos d)) by (rewrite length_firstn; lia).
  rewrite (skipn_all2 bs) by lia.
  cbn [app]. rewrite skipn_skipn. f_equal. lia.
Qed.

Lemma read_at_file_write_other d pos bs pos' n :
  0 <= pos' -> 0 <= n ->
  (pos + List.length bs <= List.length d)%nat ->
  pos' + n <= Z.of_nat pos \/ Z.of_nat (pos + List.length bs) <= pos' ->
  read_at (file_write d pos bs) pos' n = read_at d pos' n.
Proof.
  intros Hp Hn Hd [H|H].
  - apply read_at_prefix; try assumption.
    apply file_write_prefix; lia.
  - unfold read_at. rewrite file_write_suffix by lia. reflexivity.
Qed.

(** Bytes written over the row [k] leave what [get] reads of every
    other row. *)
Lemma get_other_row w w1 m m1 k j bs :
  consistent w ->
  f (self w) = MmapObj m -> m_closed m = false ->
  f (self w1) = MmapObj m1 -> m_closed m1 = false ->
  rowbytes (self w1) = rowbytes (self w) ->
  pack_format (self w1) = pack_format (self w) ->
  N (self w1) = N (self w) ->
  0 <= k * rowbytes (self w) ->
  k * rowbytes (self w) + rowbytes (self w) <= size w ->
  Z.of_nat (List.length bs) = rowbytes (self w) ->
  data w1 = file_write (data w) (Z.to_nat (k * rowbytes (self w))) bs ->
  j <> k ->
  fst (get j w1) = fst (get j w).
Proof.
  intros (md & d & _ & S & _ & _ & _ & H0 & HL & _)
         Ef Ec Ef1 Ec1 Erb Epf EN Hk Hks Hbs Ed Hj.
  assert (Hdata : data w = d) by (unfold data; rewrite S; reflexivity).
  assert (Hsize : size w = N (self w) * rowbytes (self w) + 1)
    by (unfold size; rewrite Hdata; exact HL).
  assert (Hsize1 : size w1 = size w).
  { unfold size. rewrite Ed, file_write_length.
    unfold size in Hks. lia. }
  destruct (Z_lt_ge_dec j 0) as [Hneg|Hpos];
    [rewrite !get_out_of_range by (rewrite ?EN; lia); reflexivity |].
  destruct (Z_lt_ge_dec j (N (self w))) as [Hin|Hout];
    [| rewrite !get_out_of_range by (rewrite ?EN; lia); reflexivity].
  rewrite (get_run w1 m1 j Ef1 Ec1) by (rewrite ?EN, ?Erb, ?Hsize1; nia).
  rewrite (get_run w m j Ef Ec) by nia.
  rewrite Erb, Epf, Ed.
  rewrite read_at_file_write_other; [reflexivity | nia | lia | |].
  - unfold size in Hks. lia.
  - destruct (Z_lt_ge_dec j k); [left | right]; nia.
Qed.

(** The row that was packed over the place of row [k] is what [get]
    reads there. *)
Lemma get_written_row cols w1 m1 k r bs d :
  derived cols (self w1) ->
  f (self w1) = MmapObj m1 -> m_closed m1 = false ->
  0 <= k < N (self w1) ->
  row_fits cols r = true ->
  pack_slots (map slot_of (map snd cols)) O r = Ok bs ->
  data w1 = file_write d (Z.to_nat (k * rowbytes (self w1))) bs ->
  k * rowbytes (self w1) + rowbytes (self w1) <= Z.of_nat (List.length d) ->
  fst (get k w1) = Ok r.
Proof.
  intros Hd Ef Ec Hk Hfit Hbs Edata Hlen.
  destruct (derived_spec _ _ Hd) as (Hs & Hf & Hp & _ & _ & Hr).
  destruct (pack_unpack_row cols r O Hfit) as (bs' & Hbs' & Hun).
  rewrite Hbs in Hbs'. injection Hbs' as <-.
  assert (Hsize : Z.of_nat (List.length bs) = rowbytes (self w1)).
  { apply pack_slots_length in Hbs; [| apply slot_of_ok].
    rewrite Hr. unfold calcsize. lia. }
  rewrite (get_run w1 m1 k Ef Ec Hk)
    by (unfold size; rewrite Edata, file_write_length; nia).
  assert (Hread : read_at (data w1) (k * rowbytes (self w1))
                    (rowbytes (self w1)) = bs).
  { unfold read_at. destruct (Z.ltb_spec (rowbytes (self w1)) 0); [lia |].
    rewrite Edata.
    replace (Z.to_nat (rowbytes (self w1))) with (List.length bs) by lia.
    apply file_write_read. }
  rewrite Hread.
  rewrite (struct_unpack_ok _ _ _ Hp)
    by (apply pack_slots_length in Hbs; [| apply slot_of_ok];
        unfold calcsize; lia).
  cbn [rbind]. f_equal.
  destruct (Hun []) as [U1 U2]. rewrite app_nil_r in U1, U2.
  destruct (contains_char "s" (pack_format (self w1))) eqn:Es; cbn [negb].
  - exact U1.
  - apply U2. apply contains_char_types; [| exact Hs].
    rewrite <- Hf. exact Es.
Qed.

Lemma struct_pack_length fmt sl args bs :
  prepare fmt = Ok sl -> Forall slot_ok sl ->
  struct_pack fmt args = Ok bs -> List.length bs = calcsize sl.
Proof.
  intros Hp Hok. unfold struct_pack. rewrite Hp. cbn [rbind].
  destruct (_ =? _)%nat; [| discriminate].
  intros H. apply pack_slots_length in H; [| exact Hok].
  unfold calcsize. lia.
Qed.

Lemma write_run w m r bs :
  f (self w) = MmapObj m -> m_closed m = false -> m_write m = true ->
  struct_pack (pack_format (self w)) r = Ok bs ->
  m_pos m + Z.of_nat (List.length bs) <= size w ->
  write r w
  = (Ok tt,
     with_store_file (file_write (data w) (Z.to_nat (m_pos m)) bs)
       (with_self
          (set_f (MmapObj {| m_closed := false;
                             m_pos := m_pos m + Z.of_nat (List.length bs);
                             m_write := true |}) (self w)) w)).
Proof.
  intros Ef Ec Ew Hp Hs. unfold write.
  rewrite (bind_ok me _ w (self w) w eq_refl).
  unfold lift. rewrite Hp.
  unfold bind, f_write, mmap_at. rewrite Ef, Ec, Ew. cbn [negb].
  destruct (Z.ltb_spec (size w) (m_pos m + Z.of_nat (List.length bs)));
    [lia |].
  reflexivity.
Qed.



(** X15.  A successful [putRow] leaves what [get] answers for every other
    index: the bytes it writes are those of one row. *)
Theorem putRow_leaves_the_other_rows cols (w w' : world) (idx j : Z) (r : row) :
  derived cols (self w) ->
  consistent w ->
  putRow idx r w = (Ok tt, w') ->
  j <> idx ->
  fst (get j w') = fst (get j w).
Proof.
  intros Hd Hc H Hj.
  pose proof Hc as (md & d & R & S & X & HN & HR & H0 & HL & HM).
  destruct (putRow_inv _ _ _ _ H HM)
    as (m & bytes & Ef & Ec & Ew & Hi & Hr & Hcv & Hb & Ho & Hs).
  rewrite (putRow_run w m idx r bytes) in H by assumption.
  injection H as <-.
  destruct (derived_spec _ _ Hd) as (_ & _ & Hp & _ & _ & Hrb).
  assert (Hlen : Z.of_nat (List.length bytes) = rowbytes (self w)).
  { destruct (rmap convert_string r) as [r'|]; [| discriminate].
    cbn [rbind] in Hb.
    rewrite (struct_pack_length _ _ _ _ Hp (slot_of_ok _) Hb). lia. }
  eapply (get_other_row w _ m _ idx j bytes);
    try reflexivity; try assumption; lia.
Qed.

Lemma putRow_leaves_the_other_rows_witness :
  exists w w',
    MakeStore scenario_columns (Some 3) true no_directory
    = (Ok w, scenario_directory)
    /\ putRow 1 [VInt 7; VStr "hi"] w = (Ok tt, w')
    /\ fst (get 2 w') = fst (get 2 w).
Proof.
  let r := eval vm_compute in
    (MakeStore scenario_columns (Some 3) true no_directory) in
  match r with
  | (Ok ?w, _) =>
      let r' := eval vm_compute in (putRow 1 [VInt 7; VStr "hi"] w) in
      match r' with (Ok tt, ?w') => exists w, w' end
  end.
  split; [vm_compute; reflexivity |].
  assert (forall (A B : Prop), A -> (A -> B) -> A /\ B) as both by tauto.
  apply both; [vm_compute; reflexivity |].
  intros E.
  refine (putRow_leaves_the_other_rows scenario_columns _ _ 1 2 _ _ _ E _).
  - do 2 eexists. repeat split; vm_compute; reflexivity.
  - do 2 eexists. repeat split; try (vm_compute; reflexivity).
    vm_compute. discriminate.
  - discriminate.
Defined.

(** X16.  Neither [putRow] nor [write] changes the size of the file of a
    store that is mapped, whatever they are given and whether they succeed:
    rows are written in place and a write that does not fit in the map
    fails. *)
Theorem rows_are_written_in_place (w : world) (idx : Z) (r : row) :
  mapped (f (self w)) ->
  size (snd (putRow idx r w)) = size w
  /\ (forall pos, open_at pos w -> 0 <= pos ->
      size (snd (write r w)) = size w).
Proof.
  intros HM. split.
  - destruct (putRow idx r w) as [[[]|e] w'] eqn:E.
    + destruct (putRow_inv _ _ _ _ E HM)
        as (m & bytes & Ef & Ec & Ew & Hi & Hr & Hcv & Hb & Ho & Hs).
      rewrite (putRow_run w m idx r bytes) in E by assumption.
      injection E as <-. cbn [snd]. unfold size, data in *. cbn.
      rewrite file_write_length. lia.
    + destruct (putRow_failure_position _ _ _ _ _ E) as (Efs & _).
      cbn [snd]. unfold size, data. rewrite Efs. reflexivity.
  - intros pos (m & Ef & Ec & Ep) Hpos.
    unfold write. rewrite (bind_ok me _ w (self w) w eq_refl).
    unfold bind, lift.
    destruct (struct_pack (pack_format (self w)) r) as [bs|]; [| reflexivity].
    unfold f_write. rewrite Ef, Ec.
    destruct (negb (m_write m)); [reflexivity |].
    destruct (Z.ltb_spec (size w) (m_pos m + Z.of_nat (List.length bs)));
      [reflexivity |].
    cbn [snd]. unfold size, data in *. cbn.
    rewrite file_write_length. lia.
Qed.

Lemma rows_are_written_in_place_witness :
  exists w,
    MakeStore scenario_columns (Some 3) true no_directory
    = (Ok w, scenario_directory)
    /\ size (snd (putRow 5 [VInt 7; VStr "hi"] w)) = size w
    /\ (forall pos, open_at pos w -> 0 <= pos ->
        size (snd (write [VInt 7; VStr "hi"] w)) = size w).
Proof.
  let r := eval vm_compute in
    (MakeStore scenario_columns (Some 3) true no_directory) in
  match r with (Ok ?w, _) => exists w end.
  split; [vm_compute; reflexivity |].
  apply rows_are_written_in_place. exact I.
Defined.

(** ** Rows as dictionaries *)

Lemma dict_get_set k k' v d :
  dict_get k (dict_set k' v d)
  = if (k =? k')%string then Some v else dict_get k d.
Proof.
  induction d as [|[k0 v0] d IH]; cbn [dict_set dict_get]; [reflexivity |].
  destruct (String.eqb_spec k' k0) as [->|Hne]; cbn [dict_get].
  - destruct (String.eqb_spec k k0); reflexivity.
  - rewrite IH. destruct (String.eqb_spec k k0) as [->|]; [| reflexivity].
    destruct (String.eqb_spec k0 k'); [congruence | reflexivity].
Qed.

Lemma dict_get_fold_other name pairs :
  forall acc,
    (forall kv, In kv pairs -> fst kv <> name) ->
    dict_get name
      (fold_left (fun d kv => dict_set (fst kv) (snd kv) d) pairs acc)
    = dict_get name acc.
Proof.
  induction pairs as [|kv pairs IH]; intros acc H; [reflexivity |].
  cbn [fold_left]. rewrite IH by (intros kv' Hin; apply H; right; exact Hin).
  rewrite dict_get_set.
  destruct (String.eqb_spec name (fst kv)) as [E|]; [| reflexivity].
  exfalso. apply (H kv); [left; reflexivity | congruence].
Qed.

Lemma dict_get_fold name v pairs :
  forall acc c,
    nth_error pairs c = Some (name, v) ->
    (forall c' kv, (c < c')%nat -> nth_error pairs c' = Some kv ->
                   fst kv <> name) ->
    dict_get name
      (fold_left (fun d kv => dict_set (fst kv) (snd kv) d) pairs acc)
    = Some v.
Proof.
  induction pairs as [|kv pairs IH]; intros acc [|c] Hn Hlast;
    try discriminate Hn.
  - cbn in Hn. injection Hn as ->. cbn [fold_left fst snd].
    rewrite dict_get_fold_other.
    + rewrite dict_get_set, String.eqb_refl. reflexivity.
    + intros kv Hin. destruct (In_nth_error _ _ Hin) as [c' Hc'].
      apply (Hlast (S c') kv); [lia | exact Hc'].
  - cbn [fold_left]. apply (IH _ c); [exact Hn |].
    intros c' kv' Hlt Hc'. apply (Hlast (S c') kv'); [lia | exact Hc'].
Qed.

Lemma nth_error_combine {A B} (l : list A) (l' : list B) :
  forall c a b,
    nth_error l c = Some a -> nth_error l' c = Some b ->
    nth_error (combine l l') c = Some (a, b).
Proof.
  revert l'. induction l as [|x l IH]; intros [|y l'] [|c] a b Ha Hb;
    try discriminate; cbn in *.
  - congruence.
  - apply IH; assumption.
Qed.

Lemma nth_error_combine_fst {A B} (l : list A) (l' : list B) :
  forall c kv,
    nth_error (combine l l') c = Some kv -> nth_error l c = Some (fst kv).
Proof.
  revert l'. induction l as [|x l IH]; intros [|y l'] [|c] kv H;
    try discriminate; cbn in *.
  - injection H as <-. reflexivity.
  - eapply IH. exact H.
Qed.

(** X17.  [getDict] fails as [get] fails and leaves the store as [get] leaves
    it; when [get] returns a row, the dictionary maps the name of a column
    to the field of that column, provided no later column has the same
    name (of columns with one name, the last is the one that is kept). *)
Theorem getDict_maps_names_to_fields (w : world) (idx : Z) :
  snd (getDict idx w) = snd (get idx w)
  /\ match fst (get idx w) with
     | Raise e => fst (getDict idx w) = Raise e
     | Ok r =>
         exists d,
           fst (getDict idx w) = Ok d
           /\ forall c name v,
             nth_error (colnames (self w)) c = Some name ->
             nth_error r c = Some v ->
             (forall c', (c < c')%nat ->
                         nth_error (colnames (self w)) c' <> Some name) ->
             dict_get name d = Some v
     end.
Proof.
  unfold getDict. rewrite (bind_ok me _ w (self w) w eq_refl).
  unfold bind, ret. destruct (get idx w) as [[r|e] w'];
    cbn [fst snd]; split; try reflexivity.
  eexists. split; [reflexivity |].
  intros c name v Hn Hv Hlast. unfold dict_of.
  apply (dict_get_fold name v _ [] c).
  - apply nth_error_combine; assumption.
  - intros c' kv Hlt Hc' E.
    apply (Hlast c' Hlt). rewrite <- E.
    eapply nth_error_combine_fst. exact Hc'.
Qed.

(** ** The types of the fields *)

Lemma Z_of_byte_range b : 0 <= Z_of_byte b < 256.
Proof.
  unfold Z_of_byte. pose proof (Byte.to_N_bounded b). lia.
Qed.

Lemma le_value_range bs : 0 <= le_value bs < 2 ^ (8 * Z.of_nat (List.length bs)).
Proof.
  induction bs as [|b bs IH]; [cbn; lia |].
  cbn [le_value List.length]. pose proof (Z_of_byte_range b).
  replace (8 * Z.of_nat (S (List.length bs)))
    with (8 + 8 * Z.of_nat (List.length bs)) by lia.
  rewrite Z.pow_add_r by lia. change (2 ^ 8) with 256. lia.
Qed.

Lemma string_of_list_ascii_length l :
  String.length (string_of_list_ascii l) = List.length l.
Proof. induction l as [|c l IH]; cbn; [| rewrite IH]; reflexivity. Qed.

Lemma remove_nul_typed s :
  (String.length (remove_nul s) <= String.length s)%nat
  /\ no_nul (remove_nul s) = true.
Proof.
  unfold remove_nul, no_nul.
  rewrite string_of_list_ascii_length, list_ascii_of_string_of_list_ascii.
  split.
  - rewrite <- (string_of_list_ascii_of_string s) at 2.
    rewrite string_of_list_ascii_length. apply filter_length_le.
  - apply forallb_forall. intros c Hc. apply filter_In in Hc. apply Hc.
Qed.

Lemma string_of_list_byte_length bs :
  String.length (string_of_list_byte bs) = List.length bs.
Proof.
  rewrite <- (string_of_list_ascii_of_string (string_of_list_byte bs)).
  rewrite string_of_list_ascii_length, list_ascii_of_list_byte, length_map.
  reflexivity.
Qed.

Lemma unpack_value_typed ty bs :
  supported ty = true ->
  List.length bs = s_size (slot_of ty) ->
  has_type ty (strip_field (unpack_value (code_of ty) bs)) = true
  /\ (code_of ty <> code_s ->
      has_type ty (unpack_value (code_of ty) bs) = true).
Proof.
  intros Hs Hl. pose proof (le_value_range bs) as Hr. rewrite Hl in Hr.
  assert (forall P : Prop, P -> P /\ (code_of ty <> code_s -> P)) as same
      by tauto.
  destruct ty as [| | | | | | | | |[|] size|]; try discriminate Hs;
    cbn [code_of slot_of s_size code_size] in *;
    try (apply same;
         cbn [unpack_value strip_field has_type in_range is_signed code_size];
         rewrite ?Hl;
         repeat match goal with
                | |- context [Z.ltb ?a ?b] => destruct (Z.ltb_spec a b)
                | |- context [Z.leb ?a ?b] => destruct (Z.leb_spec a b)
                end;
         cbn in *; try reflexivity; lia).
  split; [| intros C; contradiction C; reflexivity].
  cbn [unpack_value strip_field has_type].
  destruct (remove_nul_typed (string_of_list_byte bs)) as [L1 L2].
  rewrite string_of_list_byte_length, Hl in L1.
  rewrite L2, Bool.andb_true_r. apply Nat.leb_le. exact L1.
Qed.

Lemma unpack_slots_typed cols :
  Forall (fun ty => supported ty = true) (map snd cols) ->
  forall off bs,
    (end_offset (map slot_of (map snd cols)) off <= off + List.length bs)%nat ->
    row_has_types cols
      (map strip_field (unpack_slots (map slot_of (map snd cols)) off bs))
    = true
    /\ (Forall (fun ty => code_of ty <> code_s) (map snd cols) ->
        row_has_types cols (unpack_slots (map slot_of (map snd cols)) off bs)
        = true).
Proof.
  induction cols as [|[name ty] cols IH]; intros Hs off bs Hn;
    [split; reflexivity |].
  cbn [map snd] in *.
  pose proof (Forall_inv Hs) as Hty. pose proof (Forall_inv_tail Hs) as Htys.
  cbn [end_offset] in Hn.
  pose proof (end_offset_ge (map slot_of (map snd cols))
                (off + slot_pad off (slot_of ty) + s_size (slot_of ty))).
  cbn [unpack_slots].
  replace (s_arg (slot_of ty)) with true by reflexivity.
  change (s_code (slot_of ty)) with (code_of ty).
  destruct (IH Htys (off + slot_pad off (slot_of ty) + s_size (slot_of ty))%nat
              (skipn (s_size (slot_of ty))
                 (skipn (slot_pad off (slot_of ty)) bs)))
    as [IH1 IH2]; [rewrite !length_skipn; lia |].
  destruct (unpack_value_typed ty
              (firstn (s_size (slot_of ty))
                 (skipn (slot_pad off (slot_of ty)) bs)) Hty)
    as [V1 V2]; [rewrite length_firstn, length_skipn; lia |].
  split.
  - cbn [map row_has_types snd]. rewrite V1, IH1. reflexivity.
  - intros Hc. cbn [row_has_types snd].
    rewrite (V2 (Forall_inv Hc)), (IH2 (Forall_inv_tail Hc)). reflexivity.
Qed.



(** ** Iterating *)



(** ** Scanning a column *)

Lemma nth_error_split_at {A} (l : list A) c x :
  nth_error l c = Some x ->
  l = firstn c l ++ x :: skipn (S c) l /\ List.length (firstn c l) = c.
Proof.
  revert c. induction l as [|y l IH]; intros [|c] H; try discriminate.
  - cbn in H. injection H as ->. split; reflexivity.
  - cbn in H. destruct (IH c H) as [E L]. cbn [firstn skipn List.length].
    split; [cbn; f_equal; exact E | f_equal; exact L].
Qed.

Lemma firstn_S_nth {A} (l : list A) c x :
  nth_error l c = Some x -> firstn (S c) l = firstn c l ++ [x].
Proof.
  revert c. induction l as [|y l IH]; intros [|c] H; try discriminate.
  - cbn in H. injection H as ->. reflexivity.
  - cbn in H. cbn [firstn app]. f_equal. apply IH. exact H.
Qed.

Lemma py_prefix_app {A} (pre post : list A) :
  py_prefix (pre ++ post) (Z.of_nat (List.length pre)) = pre.
Proof.
  unfold py_prefix. destruct (Z.ltb_spec (Z.of_nat (List.length pre)) 0);
    [lia |].
  rewrite Nat2Z.id. apply firstn_exact.
Qed.

Lemma type_of_char ty :
  supported ty = true -> code_of ty <> code_s ->
  exists ch, type_of ty = String ch EmptyString
             /\ s_size (slot_of ty) = code_size (code_of ty)
             /\ (0 < code_size (code_of ty))%nat
             /\ slot_pad O (slot_of ty) = O.
Proof.
  destruct ty as [| | | | | | | | |[|] size|]; intros Hs Hc;
    try discriminate Hs; try (contradiction Hc; reflexivity);
    eexists; cbn; repeat split; lia.
Qed.

Lemma format_chars tys :
  Forall (fun ty => supported ty = true) tys ->
  Forall (fun ty => code_of ty <> code_s) tys ->
  List.length (list_ascii_of_string (String.concat "" (map type_of tys)))
  = List.length tys.
Proof.
  intros Hs Hc. rewrite list_ascii_of_concat.
  induction tys as [|ty tys IH]; [reflexivity |].
  destruct (type_of_char ty (Forall_inv Hs) (Forall_inv Hc)) as (ch & E & _).
  cbn [map List.concat]. rewrite E, length_app.
  rewrite IH by (eapply Forall_inv_tail; eassumption). reflexivity.
Qed.

Lemma concat_types_app tys1 tys2 :
  list_ascii_of_string (String.concat "" (map type_of (tys1 ++ tys2)))
  = list_ascii_of_string (String.concat "" (map type_of tys1))
    ++ list_ascii_of_string (String.concat "" (map type_of tys2)).
Proof.
  rewrite !list_ascii_of_concat, !map_app, concat_app. reflexivity.
Qed.

Lemma end_offset_app sl1 sl2 :
  forall off, end_offset (sl1 ++ sl2) off = end_offset sl2 (end_offset sl1 off).
Proof.
  induction sl1 as [|s sl1 IH]; intros off; [reflexivity |].
  cbn [app end_offset]. apply IH.
Qed.

(** The pieces that the prologue of [getColByIdx] computes, for a
    column of a store without text columns. *)
Lemma getColByIdx_prologue cols s c ty :
  derived cols s ->
  Forall (fun ty => code_of ty <> code_s) (firstn (S c) (map snd cols)) ->
  nth_error (map snd cols) c = Some ty ->
  let column := Z.of_nat c in
  let fmt := list_ascii_of_string (pack_format s) in
  exists ch skipped one,
    type_of ty = String ch EmptyString
    /\ struct_pack (string_of_list_ascii (py_prefix fmt column))
         (map call_zero (py_prefix (dtypes s) column)) = Ok skipped
    /\ List.length skipped = packed_before (map snd cols) c
    /\ py_index fmt column = Ok ch
    /\ py_index (dtypes s) column = Ok (dtype_of ty)
    /\ struct_pack (String ch EmptyString) [call_zero (dtype_of ty)] = Ok one
    /\ List.length one = code_size (code_of ty)
    /\ prepare (String ch EmptyString) = Ok [slot_of ty].
Proof.
  intros Hd Hc Hn column fmt.
  destruct (derived_spec _ _ Hd) as (Hs & Hf & _ & Hdt & _ & _).
  set (tys := map snd cols) in *.
  destruct (nth_error_split_at tys c ty Hn) as [Esplit Elen].
  set (pre := firstn c tys) in *. set (post := skipn (S c) tys) in *.
  assert (Hs' : Forall (fun ty => supported ty = true) (pre ++ ty :: post))
    by (rewrite <- Esplit; exact Hs).
  assert (Hc' : Forall (fun ty => code_of ty <> code_s) (pre ++ [ty]))
    by (unfold pre; rewrite <- (firstn_S_nth tys c ty Hn); exact Hc).
  apply Forall_app in Hs'. destruct Hs' as [Hs1 Hs2].
  apply Forall_app in Hc'. destruct Hc' as [Hc1 Hc2].
  destruct (type_of_char ty (Forall_inv Hs2) (Forall_inv Hc2))
    as (ch & Ech & Esz & Hpos & Epad).
  assert (Efmt : fmt
                 = list_ascii_of_string (String.concat "" (map type_of pre))
                   ++ ch :: list_ascii_of_string
                              (String.concat "" (map type_of post))).
  { unfold fmt. rewrite Hf, Esplit, concat_types_app.
    change (ty :: post) with ([ty] ++ post). rewrite concat_types_app.
    cbn [map String.concat]. rewrite Ech. reflexivity. }
  assert (Eplen : List.length
                    (list_ascii_of_string (String.concat "" (map type_of pre)))
                  = c)
    by (rewrite format_chars by assumption; exact Elen).
  assert (Edt : dtypes s
                = map dtype_of pre ++ dtype_of ty :: map dtype_of post)
    by (rewrite Hdt, Esplit, map_app; reflexivity).
  destruct (struct_pack_zero pre Hs1) as (skipped & Esk & Lsk).
  destruct (struct_pack_zero [ty] (Forall_cons _ (Forall_inv Hs2) (Forall_nil _)))
    as (one & Eone & Lone).
  cbn [map String.concat] in Eone. rewrite Ech in Eone.
  assert (P1 : py_prefix fmt column
               = list_ascii_of_string (String.concat "" (map type_of pre))).
  { unfold column. rewrite Efmt, <- Eplen. apply py_prefix_app. }
  assert (P2 : py_prefix (dtypes s) column = map dtype_of pre).
  { unfold column. rewrite Edt, <- Elen, <- (length_map dtype_of pre).
    apply py_prefix_app. }
  exists ch, skipped, one.
  split; [exact Ech |].
  split; [rewrite P1, P2, string_of_list_ascii_of_string; exact Esk |].
  split; [exact Lsk |].
  split.
  { unfold column. rewrite Efmt, <- Eplen. apply py_index_app. }
  split.
  { unfold column. rewrite Edt, <- Elen, <- (length_map dtype_of pre).
    apply py_index_app. }
  split; [exact Eone |].
  split.
  { rewrite Lone. unfold calcsize. cbn [map end_offset].
    rewrite Epad, Esz. lia. }
  rewrite <- Ech.
  exact (prepare_types [ty] (Forall_cons _ (Forall_inv Hs2) (Forall_nil _))).
Qed.

Lemma f_read_moved m p n w :
  f_read n (moved m p w)
  = (Ok (read_at (data w) p n),
     moved m (p + Z.of_nat (List.length (read_at (data w) p n))) w).
Proof. reflexivity. Qed.

Lemma f_seek_moved m p o w :
  f_seek o (moved m p w)
  = if (o <? 0) || (size w <? o) then (Raise ValueError, moved m p w)
    else (Ok tt, moved m o w).
Proof.
  unfold f_seek, moved. cbn.
  change (size (with_self _ w)) with (size w).
  destruct ((o <? 0) || (size w <? o)); reflexivity.
Qed.

Lemma getColByIdx_loop_step fuel fmt nbytes offset w :
  getColByIdx_loop (S fuel) fmt nbytes offset w
  = match f_read nbytes w with
    | (Raise e, w1) => (([], Failed e), w1)
    | (Ok [], w1) => (([], Exhausted), w1)
    | (Ok bytes, w1) =>
        match struct_unpack fmt bytes with
        | Raise e =>
            if is_StructError e
               && negb (Z.of_nat (List.length bytes) =? nbytes)
            then (([], Exhausted), w1)
            else (([], Failed e), w1)
        | Ok item =>
            match f_seek offset w1 with
            | (Raise e, w2) =>
                if is_ValueError e then (([item], Exhausted), w2)
                else (([item], Failed e), w2)
            | (Ok _, w2) =>
                let '((items, e), w3) :=
                  getColByIdx_loop fuel fmt nbytes
                    (offset + rowbytes (self w2)) w2 in
                ((item :: items, e), w3)
            end
        end
    end.
Proof. reflexivity. Qed.

Section Scan.

Variables (w : world) (m : mmap_obj) (ty : numpy_type) (ch : ascii) (off : Z).

Let rb := rowbytes (self w).
Let n := N (self w).
Let sz := Z.of_nat (code_size (code_of ty)).
Let fmt := String ch EmptyString.

Hypothesis Hprep : prepare fmt = Ok [slot_of ty].
Hypothesis Hsize : s_size (slot_of ty) = code_size (code_of ty).
Hypothesis Hpos : (0 < code_size (code_of ty))%nat.
Hypothesis Hpad : slot_pad O (slot_of ty) = O.
Hypothesis Hlen : size w = n * rb + 1.
Hypothesis Hoff : 0 <= off /\ off + sz <= rb.
Hypothesis Hn : 0 <= n.

Let extra : list row :=
  if (off =? 0) && (sz =? 1) then [[decoded_at w ty (n * rb)]] else [].

Lemma unpack_one bytes :
  List.length bytes = code_size (code_of ty) ->
  struct_unpack fmt bytes = Ok [unpack_value (code_of ty) bytes].
Proof.
  intros H. unfold struct_unpack. rewrite Hprep. cbn [rbind].
  unfold calcsize. cbn [end_offset unpack_slots].
  rewrite Hpad, Hsize, H. cbn [Nat.add]. rewrite Nat.eqb_refl.
  replace (s_arg (slot_of ty)) with true by reflexivity.
  change (s_code (slot_of ty)) with (code_of ty).
  cbn [skipn]. rewrite <- H, firstn_all. reflexivity.
Qed.

Lemma unpack_short bytes :
  List.length bytes <> code_size (code_of ty) ->
  struct_unpack fmt bytes = Raise StructError.
Proof.
  intros H. unfold struct_unpack. rewrite Hprep. cbn [rbind].
  unfold calcsize. cbn [end_offset]. rewrite Hpad, Hsize. cbn [Nat.add].
  destruct (Nat.eqb_spec (List.length bytes) (code_size (code_of ty)));
    [contradiction | reflexivity].
Qed.

(** The iteration that starts where the rows end. *)
Lemma getColByIdx_loop_end fuel :
  (2 <= fuel)%nat ->
  fst (getColByIdx_loop fuel fmt sz (off + (n + 1) * rb)
         (moved m (off + n * rb) w))
  = (extra, Exhausted).
Proof.
  intros Hf. destruct fuel as [|fuel]; [lia |].
  rewrite getColByIdx_loop_step, f_read_moved.
  assert (0 <= rb) by (unfold sz in *; lia).
  assert (0 <= n * rb) by (apply Z.mul_nonneg_nonneg; lia).
  unfold size in Hlen.
  destruct (Z.eq_dec off 0) as [E0|E0].
  - subst off. cbn [Z.add].
    assert (Elast : exists b, skipn (Z.to_nat (n * rb)) (data w) = [b]).
    { pose proof (length_skipn (Z.to_nat (n * rb)) (data w)) as L.
      destruct (skipn (Z.to_nat (n * rb)) (data w)) as [|b [|b' l]];
        cbn in L; try lia. eauto. }
    destruct Elast as [b Eb].
    assert (Er : read_at (data w) (n * rb) sz = [b]).
    { unfold read_at. destruct (Z.ltb_spec sz 0); [unfold sz in *; lia |].
      rewrite Eb. unfold sz. rewrite Nat2Z.id.
      apply firstn_all2. cbn. lia. }
    rewrite Er. cbv beta iota.
    unfold extra. rewrite Z.eqb_refl. cbn [andb].
    destruct (Z.eqb_spec sz 1) as [E1|E1].
    + rewrite unpack_one by (unfold sz in E1; cbn; lia).
      rewrite f_seek_moved.
      assert (Ed : decoded_at w ty (n * rb) = unpack_value (code_of ty) [b]).
      { unfold decoded_at. fold sz. rewrite Er. reflexivity. }
      rewrite Ed.
      destruct (((n + 1) * rb <? 0) || (size w <? (n + 1) * rb))
        eqn:Ec; [reflexivity |].
      destruct fuel as [|fuel]; [lia |].
      rewrite getColByIdx_loop_step, f_read_moved.
      assert (Er' : read_at (data w) ((n + 1) * rb) sz = []).
      { unfold read_at. destruct (Z.ltb_spec sz 0); [lia |].
        rewrite skipn_all2; [destruct (Z.to_nat sz); reflexivity |].
        apply Bool.orb_false_iff in Ec. destruct Ec as [_ Ec].
        apply Z.ltb_ge in Ec. unfold size in Ec. nia. }
      rewrite Er'. reflexivity.
    + rewrite unpack_short by (unfold sz in E1; cbn; lia).
      cbn [is_StructError andb List.length].
      destruct (Z.eqb_spec (Z.of_nat 1) sz); [lia | reflexivity].
  - assert (Er : read_at (data w) (off + n * rb) sz = []).
    { unfold read_at. destruct (Z.ltb_spec sz 0); [unfold sz in *; lia |].
      rewrite skipn_all2 by lia. destruct (Z.to_nat sz); reflexivity. }
    rewrite Er. unfold extra.
    destruct (Z.eqb_spec off 0); [contradiction | reflexivity].
Qed.

(** The iterations from row [k] on. *)
Lemma getColByIdx_loop_rows j :
  forall k fuel,
    Z.of_nat j = n - k -> 0 <= k -> (j + 2 <= fuel)%nat ->
    fst (getColByIdx_loop fuel fmt sz (off + (k + 1) * rb)
           (moved m (off + k * rb) w))
    = (map (fun i => [decoded_at w ty ((k + Z.of_nat i) * rb + off)]) (seq 0 j)
         ++ extra,
       Exhausted).
Proof.
  induction j as [|j IH]; intros k fuel Hj Hk Hf.
  - replace k with n by lia. apply getColByIdx_loop_end. lia.
  - destruct fuel as [|fuel]; [lia |].
    rewrite getColByIdx_loop_step, f_read_moved.
    assert (0 <= rb) by (unfold sz in *; lia).
    assert (0 <= k * rb) by (apply Z.mul_nonneg_nonneg; lia).
    assert (Hin : off + k * rb + sz <= Z.of_nat (List.length (data w)))
      by (unfold size in Hlen; nia).
    pose proof (read_at_length (data w) (off + k * rb) sz
                  ltac:(lia) ltac:(unfold sz; lia) Hin) as Lr.
    unfold sz in Lr at 2. rewrite Nat2Z.id in Lr.
    assert (Ed : [decoded_at w ty ((k + Z.of_nat 0) * rb + off)]
                 = [unpack_value (code_of ty)
                      (read_at (data w) (off + k * rb) sz)]).
    { unfold decoded_at. fold sz. do 3 f_equal. cbn. lia. }
    destruct (read_at (data w) (off + k * rb) sz) as [|b0 bytes] eqn:Er;
      [cbn in Lr; lia |].
    cbv beta iota. rewrite (unpack_one _ Lr), f_seek_moved.
    cbn [seq map app]. rewrite Ed.
    destruct ((off + (k + 1) * rb <? 0) || (size w <? off + (k + 1) * rb))
      eqn:Ec.
    + apply Bool.orb_true_iff in Ec.
      assert (Hout : size w < off + (k + 1) * rb)
        by (destruct Ec as [Ec|Ec];
            [apply Z.ltb_lt in Ec; nia | apply Z.ltb_lt in Ec; exact Ec]).
      assert (j = O) by nia. subst j.
      cbn [is_ValueError fst seq map app]. unfold extra.
      destruct (Z.eqb_spec off 0); [nia | reflexivity].
    + change (rowbytes (self (moved m (off + (k + 1) * rb) w))) with rb.
      replace (off + (k + 1) * rb + rb) with (off + (k + 1 + 1) * rb) by ring.
      specialize (IH (k + 1) fuel ltac:(lia) ltac:(lia) ltac:(lia)).
      destruct (getColByIdx_loop fuel fmt sz (off + (k + 1 + 1) * rb)
                  (moved m (off + (k + 1) * rb) w)) as [[items e] w3].
      cbn [fst] in IH |- *. injection IH as -> ->.
      f_equal. f_equal. rewrite <- seq_shift, map_map.
      f_equal. apply map_ext. intros i. do 3 f_equal. lia.
Qed.

End Scan.

Lemma packed_before_bound tys c ty :
  nth_error tys c = Some ty ->
  (packed_before tys c + slot_pad (packed_before tys c) (slot_of ty)
   + s_size (slot_of ty) <= calcsize (map slot_of tys))%nat.
Proof.
  intros Hn. destruct (nth_error_split_at tys c ty Hn) as [E _].
  unfold packed_before, calcsize. rewrite E at 3.
  rewrite map_app, end_offset_app. cbn [map end_offset].
  apply end_offset_ge.
Qed.

Lemma packed_before_positive tys c ty :
  Forall (fun ty => supported ty = true) tys ->
  Forall (fun ty => code_of ty <> code_s) (firstn (S c) tys) ->
  nth_error tys c = Some ty ->
  (packed_before tys c = O <-> c = O).
Proof.
  intros Hs Hc Hn. split; [| intros ->; reflexivity].
  destruct c as [|c]; [reflexivity |].
  destruct tys as [|t tys]; [discriminate |].
  cbn [firstn] in Hc.
  destruct (type_of_char t (Forall_inv Hs) (Forall_inv Hc))
    as (_ & _ & E & Hp & _).
  unfold packed_before, calcsize. cbn [firstn map end_offset].
  pose proof (end_offset_ge (map slot_of (firstn c tys))
                (0 + slot_pad 0 (slot_of t) + s_size (slot_of t))).
  lia.
Qed.

Lemma unpack_slots_nth pre ty post :
  forall off bs,
    let e := end_offset (map slot_of pre) off in
    nth_error (unpack_slots (map slot_of (pre ++ ty :: post)) off bs)
      (List.length pre)
    = Some (unpack_value (code_of ty)
              (firstn (s_size (slot_of ty))
                 (skipn (e + slot_pad e (slot_of ty) - off) bs))).
Proof.
  induction pre as [|t pre IH]; intros off bs e.
  - cbn [app map unpack_slots List.length nth_error].
    replace (s_arg (slot_of ty)) with true by reflexivity.
    cbn [nth_error]. subst e. cbn [map end_offset].
    replace (off + slot_pad off (slot_of ty) - off)%nat
      with (slot_pad off (slot_of ty)) by lia.
    reflexivity.
  - cbn [app map unpack_slots List.length].
    replace (s_arg (slot_of t)) with true by reflexivity.
    cbn [nth_error]. rewrite IH. subst e. cbn [map end_offset].
    pose proof (end_offset_ge (map slot_of pre)
                  (off + slot_pad off (slot_of t) + s_size (slot_of t))).
    rewrite !skipn_skipn. do 4 f_equal. lia.
Qed.

Lemma strip_non_string k bs :
  k <> code_s -> strip_field (unpack_value k bs) = unpack_value k bs.
Proof. destruct k; intros H; try reflexivity. contradiction H; reflexivity. Qed.

Lemma read_at_inside d p a n len :
  0 <= p -> 0 <= a -> 0 <= n -> a + n <= len ->
  firstn (Z.to_nat n) (skipn (Z.to_nat a) (read_at d p len))
  = read_at d (p + a) n.
Proof.
  intros Hp Ha Hn Hl. unfold read_at.
  destruct (Z.ltb_spec len 0); [lia |].
  destruct (Z.ltb_spec n 0); [lia |].
  rewrite skipn_firstn_comm, firstn_firstn, skipn_skipn.
  replace (Nat.min (Z.to_nat n) (Z.to_nat len - Z.to_nat a)) with (Z.to_nat n)
    by lia.
  do 2 f_equal. lia.
Qed.

(** The field of column [c] in the row that [get] returns. *)
Lemma get_field cols w m k c ty :
  derived cols (self w) ->
  consistent w ->
  f (self w) = MmapObj m -> m_closed m = false ->
  code_of ty <> code_s ->
  nth_error (map snd cols) c = Some ty ->
  0 <= k < N (self w) ->
  exists r,
    fst (get k w) = Ok r
    /\ nth_error r c
       = Some (decoded_at w ty
                 (k * rowbytes (self w)
                  + Z.of_nat (packed_before (map snd cols) c)
                  + Z.of_nat (slot_pad (packed_before (map snd cols) c)
                                (slot_of ty)))).
Proof.
  intros Hd (md & d & R & S & X & HN & HR & H0 & HL & HM) Ef Ec Hty Hn Hk.
  destruct (derived_spec _ _ Hd) as (Hs & Hf & Hp & _ & _ & Hr).
  assert (Hdata : data w = d) by (unfold data; rewrite S; reflexivity).
  assert (Hlen : List.length
                   (read_at (data w) (k * rowbytes (self w))
                      (rowbytes (self w)))
                 = calcsize (map slot_of (map snd cols))).
  { rewrite read_at_length; [lia | nia | lia | rewrite Hdata; nia]. }
  rewrite (get_run w m k Ef Ec Hk) by (unfold size; rewrite Hdata; nia).
  rewrite (struct_unpack_ok _ _ _ Hp Hlen). cbn [rbind].
  eexists. split; [reflexivity |].
  pose proof (packed_before_bound _ _ _ Hn) as Hb.
  destruct (nth_error_split_at _ c ty Hn) as [E L].
  assert (Hsz : s_size (slot_of ty) = code_size (code_of ty)).
  { destruct ty as [| | | | | | | | |b size|]; try reflexivity.
    contradiction Hty. reflexivity. }
  assert (Hnth : nth_error
                   (unpack_slots (map slot_of (map snd cols)) O
                      (read_at (data w) (k * rowbytes (self w))
                         (rowbytes (self w)))) c
                 = Some (decoded_at w ty
                           (k * rowbytes (self w)
                            + Z.of_nat (packed_before (map snd cols) c)
                            + Z.of_nat
                                (slot_pad (packed_before (map snd cols) c)
                                   (slot_of ty))))).
  { rewrite E at 1. rewrite <- L at 3. rewrite unpack_slots_nth.
    fold (calcsize (map slot_of (firstn c (map snd cols)))).
    fold (packed_before (map snd cols) c).
    f_equal. unfold decoded_at. f_equal.
    rewrite Nat.sub_0_r, Hsz.
    rewrite <- (Nat2Z.id (code_size (code_of ty))).
    rewrite <- (Nat2Z.id (packed_before (map snd cols) c
                          + slot_pad (packed_before (map snd cols) c)
                              (slot_of ty))).
    rewrite read_at_inside by nia.
    f_equal; lia. }
  destruct (negb (contains_char "s" (pack_format (self w)))); [exact Hnth |].
  rewrite nth_error_map, Hnth. cbn [option_map]. f_equal.
  apply strip_non_string. exact Hty.
Qed.



(** *** Text columns *)

Lemma Forall_prefix {A} (P : A -> Prop) (l : list A) n :
  Forall P l -> Forall P (firstn n l).
Proof.
  intros H. revert n. induction H as [|x l Hx _ IH]; intros [|n]; cbn;
    constructor; auto.
Qed.

Lemma decimal_not_empty (n : nat) : decimal (Z.of_nat n) <> [].
Proof.
  destruct (decimal_spec n) as [_ H]. intros E. rewrite E in H. discriminate.
Qed.

Lemma feed_not_empty ds :
  forall count, ds <> [] -> all_digits ds -> feed ds count <> None.
Proof.
  unfold feed. induction ds as [|d ds IH]; intros count Hne Hd;
    [contradiction |].
  cbn [fold_left]. pose proof (Forall_inv Hd) as Hd0.
  destruct (digit_of_char d) as [v|] eqn:Ed; [| congruence].
  destruct ds as [|d' ds]; [discriminate |].
  apply IH; [discriminate | exact (Forall_inv_tail Hd)].
Qed.

Lemma parse_format_digits_only ds count :
  ds <> [] -> all_digits ds -> parse_format ds count = Raise StructError.
Proof.
  intros Hne Hd. rewrite <- (app_nil_r ds), (parse_format_digits ds Hd).
  cbn [parse_format].
  destruct (feed ds count) eqn:E; [reflexivity |].
  exfalso. exact (feed_not_empty ds count Hne Hd E).
Qed.

Lemma chars_of_type ty :
  supported ty = true ->
  (code_of ty <> code_s
   /\ exists ch, list_ascii_of_string (type_of ty) = [ch])
  \/ (exists size,
        ty = np_dtype true size
        /\ list_ascii_of_string (type_of ty)
           = decimal (Z.of_nat size) ++ ["s"%char]).
Proof.
  destruct ty as [| | | | | | | | |[|] size|]; intros H; try discriminate H;
    try (left; split; [discriminate | eexists; reflexivity]).
  right. exists size. split; [reflexivity |].
  cbn [type_of]. unfold string_format.
  apply list_ascii_of_string_of_list_ascii.
Qed.

(** The characters of the types of a list of columns. *)
Lemma chars_length tys :
  Forall (fun ty => supported ty = true) tys ->
  (List.length tys
   <= List.length (List.concat (map list_ascii_of_string (map type_of tys))))%nat
  /\ (List.length (List.concat (map list_ascii_of_string (map type_of tys)))
      = List.length tys ->
      Forall (fun ty => code_of ty <> code_s) tys).
Proof.
  induction 1 as [|ty tys Hty _ [IH1 IH2]];
    [split; [cbn; lia | intros _; constructor] |].
  cbn [map List.concat List.length]. rewrite length_app.
  destruct (chars_of_type ty Hty) as [[Hc [ch E]]|[size [-> E]]]; rewrite E.
  - cbn [List.length]. split; [lia |].
    intros H. constructor; [exact Hc | apply IH2; lia].
  - rewrite length_app. cbn [List.length].
    pose proof (decimal_not_empty size) as Hne.
    destruct (decimal (Z.of_nat size)); [contradiction |].
    cbn [List.length]. split; lia.
Qed.

(** The first [L] characters of a format either do not parse or are
    the format of the first [j] columns. *)
Lemma format_prefix tys :
  Forall (fun ty => supported ty = true) tys ->
  forall L,
    parse_format
      (firstn L (List.concat (map list_ascii_of_string (map type_of tys))))
      None = Raise StructError
    \/ exists j,
      (j <= List.length tys)%nat
      /\ firstn L (List.concat (map list_ascii_of_string (map type_of tys)))
         = List.concat
             (map list_ascii_of_string (map type_of (firstn j tys))).
Proof.
  induction 1 as [|ty tys Hty Htys IH]; intros L.
  - right. exists O. split; [lia |]. destruct L; reflexivity.
  - cbn [map List.concat].
    destruct L as [|L]; [right; exists O; split; [cbn; lia | reflexivity] |].
    set (cty := list_ascii_of_string (type_of ty)).
    destruct (le_lt_dec (List.length cty) (S L)) as [Hle|Hlt].
    + rewrite firstn_app, (firstn_all2 cty) by exact Hle.
      destruct (IH (S L - List.length cty)%nat) as [E|(j & Hj & E)].
      * left. unfold cty in *. rewrite parse_format_type by exact Hty.
        rewrite E. reflexivity.
      * right. exists (S j). split; [cbn; lia |].
        rewrite E. reflexivity.
    + left. rewrite firstn_app.
      replace (S L - List.length cty)%nat with O by lia.
      rewrite firstn_O, app_nil_r.
      destruct (chars_of_type ty Hty) as [[_ [ch E]]|[size [-> E]]];
        unfold cty in *; rewrite E in *.
      * cbn in Hlt. lia.
      * rewrite length_app in Hlt. cbn [List.length] in Hlt.
        rewrite firstn_app.
        replace (S L - List.length (decimal (Z.of_nat size)))%nat with O
          by lia.
        rewrite firstn_O, app_nil_r.
        apply parse_format_digits_only.
        -- pose proof (decimal_not_empty size) as Hne.
           destruct (decimal (Z.of_nat size)); [contradiction | discriminate].
        -- apply Forall_prefix. apply decimal_spec.
Qed.

(** X21.  On a store with a text column, the scan of that column and of
    every column after it fails with [struct.error] before it reads the
    file: the format is sliced by character, and the format of a text
    column has more than one. *)
Theorem getColByIdx_fails_from_the_first_text_column cols (w : world)
  (c c' size fuel : nat) :
  derived cols (self w) ->
  nth_error (map snd cols) c = Some (np_dtype true size) ->
  (c <= c' < List.length cols)%nat ->
  getColByIdx fuel (Z.of_nat c') w = (([], Failed StructError), w).
Proof.
  intros Hd Hc Hcc'.
  destruct (derived_spec _ _ Hd) as (Hs & Hf & _ & Hdt & _ & _).
  set (tys := map snd cols) in *.
  assert (Hlt : (c' < List.length tys)%nat)
    by (unfold tys; rewrite length_map; lia).
  set (chars := List.concat (map list_ascii_of_string (map type_of tys))).
  assert (Efmt : list_ascii_of_string (pack_format (self w)) = chars)
    by (rewrite Hf; apply list_ascii_of_concat).
  assert (Epre : forall A (l : list A),
             py_prefix l (Z.of_nat c') = firstn c' l).
  { intros A l. unfold py_prefix.
    destruct (Z.ltb_spec (Z.of_nat c') 0); [lia |].
    rewrite Nat2Z.id. reflexivity. }
  unfold getColByIdx. cbv zeta. rewrite Efmt, !Epre.
  assert (Largs : List.length (map call_zero (firstn c' (dtypes (self w))))
                  = c').
  { rewrite length_map, length_firstn, Hdt, length_map. lia. }
  destruct (format_prefix tys Hs c') as [E|(j & Hj & E)].
  - fold chars in E. unfold struct_pack at 1, prepare.
    rewrite list_ascii_of_string_of_list_ascii, E. reflexivity.
  - fold chars in E.
    assert (Hsj : Forall (fun ty => supported ty = true) (firstn j tys))
      by (apply Forall_prefix; exact Hs).
    assert (Eskip : string_of_list_ascii (firstn c' chars)
                    = String.concat "" (map type_of (firstn j tys))).
    { rewrite E, <- list_ascii_of_concat.
      apply string_of_list_ascii_of_string. }
    rewrite Eskip.
    destruct (chars_length (firstn j tys) Hsj) as [G1 G2].
    assert (Hjc : (j <= c')%nat).
    { rewrite <- E, !length_firstn in G1. lia. }
    destruct (Nat.eq_dec j c') as [->|Hne].
    + assert (Hns : Forall (fun ty => code_of ty <> code_s) (firstn c' tys)).
      { apply G2. rewrite <- E, !length_firstn.
        pose proof (proj1 (chars_length tys Hs)). fold chars in H. lia. }
      assert (c = c').
      { destruct (Nat.eq_dec c c') as [|Hd']; [assumption |].
        exfalso.
        assert (Hin : In (np_dtype true size) (firstn c' tys)).
        { apply (nth_error_In _ c). rewrite nth_error_firstn.
          destruct (Nat.ltb_spec c c'); [exact Hc | lia]. }
        apply (proj1 (Forall_forall _ _) Hns _ Hin). reflexivity. }
      subst c'.
      destruct (nth_error_split_at tys c _ Hc) as [Esplit Elen].
      destruct (struct_pack_zero (firstn c tys) Hsj) as (skipped & Esk & _).
      rewrite Hdt, firstn_map, Esk. cbn [rbind].
      assert (Echars : chars
                       = List.concat
                           (map list_ascii_of_string
                              (map type_of (firstn c tys)))
                         ++ (decimal (Z.of_nat size) ++ ["s"%char])
                         ++ List.concat
                              (map list_ascii_of_string
                                 (map type_of (skipn (S c) tys)))).
      { unfold chars. rewrite Esplit at 1.
        rewrite !map_app, concat_app. cbn [map List.concat type_of].
        unfold string_format.
        rewrite list_ascii_of_string_of_list_ascii. reflexivity. }
      assert (Eplen : List.length
                        (List.concat
                           (map list_ascii_of_string
                              (map type_of (firstn c tys)))) = c).
      { rewrite <- E, length_firstn.
        pose proof (proj1 (chars_length tys Hs)). fold chars in H. lia. }
      pose proof (decimal_not_empty size) as Hne.
      destruct (decimal_spec size) as [Hdig _].
      destruct (decimal (Z.of_nat size)) as [|d0 ds] eqn:Edec;
        [contradiction |].
      set (lp := List.concat
                   (map list_ascii_of_string (map type_of (firstn c tys))))
        in *.
      assert (Ei : forall post,
                 py_index (lp ++ d0 :: post) (Z.of_nat c) = Ok d0)
        by (intros post; rewrite <- Eplen; apply py_index_app).
      rewrite Echars. cbn [app]. rewrite Ei. cbn [rbind].
      assert (Ed : py_index (map dtype_of tys) (Z.of_nat c) = Ok d_str_store).
      { rewrite Esplit, map_app. cbn [map].
        set (dp := map dtype_of (firstn c tys)).
        assert (Edp : List.length dp = c)
          by (unfold dp; rewrite length_map; exact Elen).
        rewrite <- Edp. apply py_index_app. }
      rewrite Ed. cbn [rbind].
      unfold struct_pack, prepare. cbn [list_ascii_of_string].
      rewrite (parse_format_digits_only [d0] None);
        [reflexivity | discriminate |].
      constructor; [exact (Forall_inv Hdig) | constructor].
    + unfold struct_pack at 1.
      rewrite (prepare_types _ Hsj). cbn [rbind].
      rewrite count_args_slots, Largs, length_firstn.
      destruct (Nat.eqb_spec c' (Nat.min j (List.length tys)));
        [lia | reflexivity].
Qed.

Lemma getColByIdx_fails_from_the_first_text_column_witness :
  exists w,
    __init__ Mode.READONLY scenario_directory = Ok w
    /\ getColByIdx 5 (Z.of_nat 1) w = (([], Failed StructError), w).
Proof.
  let r := eval vm_compute in (__init__ Mode.READONLY scenario_directory) in
  match r with Ok ?w => exists w end.
  split; [vm_compute; reflexivity |].
  apply (getColByIdx_fails_from_the_first_text_column scenario_columns _ 1 1 4).
  - do 2 eexists. repeat split; vm_compute; reflexivity.
  - reflexivity.
  - cbn. lia.
Defined.

(** ** Opening *)

(** X22.  The outcomes of [RawStore(directory, mode)]: [IOError] when the
    directory, the metadata file or the store file is missing;
    [ValueError], from the memory map, when the store file is empty and
    the mode is not [READONCE]; otherwise a store on the unchanged
    directory with the descriptor of the metadata file, mapped unless the
    mode is [READONCE]. *)
Theorem RawStore_init_outcomes (mode : Mode.t) (d : filesystem) :
  (directory_exists d = false \/ rawformat d = None \/ store_file d = None ->
   __init__ mode d = Raise IOError)
  /\ (forall md,
        directory_exists d = true -> rawformat d = Some md ->
        store_file d = Some [] -> mode <> Mode.READONCE ->
        __init__ mode d = Raise ValueError)
  /\ (forall md bs,
        directory_exists d = true -> rawformat d = Some md ->
        store_file d = Some bs -> bs <> [] \/ mode = Mode.READONCE ->
        exists w,
          __init__ mode d = Ok w
          /\ fs w = d
          /\ rowbytes (self w) = md_rowbytes md
          /\ pack_format (self w) = md_pack_format md
          /\ colnames (self w) = md_colnames md
          /\ dtypes (self w) = md_dtypes md
          /\ N (self w) = md_N md
          /\ (mode <> Mode.READONCE -> is_open w)).
Proof.
  split; [| split].
  - intros H. unfold __init__.
    destruct (directory_exists d); [| reflexivity]. cbn [negb].
    destruct (rawformat d) as [md|]; [| reflexivity].
    destruct H as [H|[H|H]]; try discriminate.
    unfold _openfile, bind, me, update, ret, open, raise. cbn.
    destruct mode; cbn; rewrite H; reflexivity.
  - intros md X R S Hm. unfold __init__. rewrite X, R. cbn [negb].
    unfold _openfile, bind, me, update, ret, open, mmap, raise. cbn.
    destruct mode; try congruence; cbn; rewrite S; cbn;
      unfold size, data; cbn; rewrite ?S; cbn; rewrite ?S; reflexivity.
  - intros md bs X R S H.
    assert (Hcase : mode = Mode.READONCE \/ mode <> Mode.READONCE)
      by (destruct mode; [right | right | right | left];
          (reflexivity || discriminate)).
    destruct Hcase as [->|Hm].
    + unfold __init__. rewrite X, R. cbn [negb].
      unfold _openfile, bind, me, update, ret, open, mmap, raise. cbn.
      rewrite S. cbn. eexists. split; [reflexivity |].
      cbn. repeat split. intros C. contradiction C. reflexivity.
    + destruct H as [Hbs|Hm']; [| contradiction].
      rewrite (__init___run mode d md bs X R S Hbs Hm).
      eexists. split; [reflexivity |]. cbn. repeat split.
      intros _. eexists. split; reflexivity.
Qed.
